(** * sentry-miniapp: the breadcrumb integration and its environment probe

    A shallow embedding of [src/integrations/breadcrumbs.ts] and [src/env.ts].

    The program is JavaScript glue code: it rewrites functions stored on host
    objects ([console], the mini-program context [wx]) and reports what flows
    through them.  The embedding therefore carries

    - a heap of JavaScript objects with data properties, their attributes
      (writable, enumerable, configurable) and a prototype link;
    - a monad with the heap, the shared [fetchData] records, an observable
      trace (logger output, breadcrumbs, calls of host functions) and
      JavaScript exceptions;
    - the functions of the two source files, one definition per function.

    The domain of the embedding, fixed once here:
    - numbers are the integers a JavaScript number holds exactly and prints
      with all their digits (below 2^53 in magnitude); strings are sequences
      of one-byte characters;
    - objects carry data properties only (no accessors, no proxies), none of
      them is named like an array index, so that properties enumerate in the
      order of their creation, and no object defines [toJSON];
    - [Object.prototype] is an object of the heap, at the address the host
      gives; [obj.hasOwnProperty(key)] looks the method up on [obj] and
      calls what it finds;
    - a method call on a string, a function or an array literal of the module
      ([s.toUpperCase()], [s.substr(..)], [f.apply(..)], [f.call(..)],
      [a.includes(x)], [a.indexOf(x)]) denotes the built-in method; where
      the receiver is no such value the call throws a [TypeError];
    - module code is strict-mode code (the sources are ES modules). *)

From Stdlib Require Import ZArith String Ascii List Bool Lia DecimalString.
From stdpp Require Import base option numbers list strings.
Import ListNotations.
Open Scope string_scope.

(** ** Values and objects *)

(** Heap addresses. *)
Abbreviation loc := nat.

Inductive value :=
| VUndefined
| VNull
| VBool (b : bool)
| VNumber (n : Z)
| VBigInt (n : Z)
| VString (s : string)
| VRef (l : loc).

#[global] Instance value_eq_dec : EqDecision value.
Proof. solve_decision. Defined.

Record property := Property {
  p_value : value;
  p_writable : bool;
  p_enumerable : bool;
  p_configurable : bool
}.

(** A property created by plain assignment or by an object literal. *)
Definition data_property (v : value) : property := Property v true true true.

(** The JSON values [JSON.parse] produces. *)
#[warnings="-register-all"]
Inductive json :=
| JNull
| JBool (b : bool)
| JNumber (n : Z)
| JString (s : string)
| JArray (items : list json)
| JObject (fields : list (string * json)).

(** [IntegrationOptions]: one member is absent/[undefined], a boolean, a list
    of names ([console], [realtimeLog], [api], [filterApis]) or, for [request],
    an object that may carry [filterHeaders]. *)
Inductive optval :=
| OUndefined
| OBool (b : bool)
| OList (names : list string)
| OObject (filterHeaders : option (list string)).

Record IntegrationOptions := {
  opt_console : optval;
  opt_request : optval;
  opt_navigation : optval;
  opt_api : optval;
  opt_lifecycle : optval;
  opt_unhandleError : optval;
  opt_realtimeLog : optval;
  opt_filterApis : optval
}.

(** The functions that live on the heap: host primitives, the built-in
    [Object.prototype.hasOwnProperty], and the closures the integration
    creates, each with the variables it captured. *)
Inductive code :=
| Native (name : string)
| HasOwnProperty
| ConsoleWrapper (level : string) (originalConsoleLevel : value)
    (consoleFilterFunctions realtimeLogFilterFunctions : list string)
    (captureUnhandleError : optval) (realtimeLogManager : value)
| MinaApiWrapper (api : string) (originalRequest : value) (ctx : value)
| RequestWrapper (originalRequest : value) (ctx : value) (request : optval)
| SuccessWrapper (fetchData : nat) (originSuccess : value) (request : optval)
| FailWrapper (fetchData : nat) (originFail : value)
| HistoryWrapper (originalHistoryFunction : value)
| LifeCycleListener (key : string).

Inductive kind :=
| KPlain
| KError
| KFunction (c : code).

Record object := Object {
  o_props : list (string * property);
  o_proto : option loc;
  o_extensible : bool;
  o_kind : kind
}.

(** ** Breadcrumbs, as the object literals of the source build them *)

Record fetch_data := FetchData {
  fd_method : value;
  fd_url : value;
  fd_header : value;
  fd_dataType : value;
  fd_status_code : value;
  fd_requestData : value
}.

Inductive breadcrumb :=
| BConsole (arguments : string) (logger : string) (level : string) (message : string)
| BMinaApi (args : list value) (name : string)
| BRequest (fetch : fetch_data) (response_header : value) (response_data : value)
| BRequestError (fetchData : nat) (level : string)
| BNavigation (from to : value)
| BLifeCycle (name : string) (args : value)
| BSentry (event_id : option json) (level : json) (message : string).

Definition category (b : breadcrumb) : string :=
  match b with
  | BConsole _ _ _ _ => "console"
  | BMinaApi _ _ => "mina-api"
  | BRequest _ _ _ | BRequestError _ _ => "request"
  | BNavigation _ _ => "navigation"
  | BLifeCycle _ _ => "app-life-cycle"
  | BSentry _ _ _ => "sentry"
  end.

Definition bc_type (b : breadcrumb) : option string :=
  match b with
  | BRequest _ _ _ | BRequestError _ _ => Some "http"
  | _ => None
  end.

Inductive hint :=
| HConsole (input : list value) (level : string)
| HSentry (event : json).

(** ** Exceptions, the observable trace and the state *)

Inductive exn :=
| TypeError
| SyntaxError
| Error (message : string)
| HostError (v : value).

Inductive event :=
| EWarn (message : string)                          (* logger.warn *)
| EError (message : string)                         (* logger.error *)
| EEmit (b : breadcrumb) (h : option hint)          (* Breadcrumbs.addBreadcrumb *)
| EHubBreadcrumb (b : breadcrumb) (h : option hint) (* getCurrentHub().addBreadcrumb *)
| ECapture (v : value)                              (* captureException *)
| ECall (callee this : value) (args : list value).  (* a host function runs *)

Record state := State {
  heap : list object;
  fetches : list fetch_data;
  trace : list event
}.

Inductive result (A : Type) :=
| Ok (a : A)
| Throw (e : exn)
| Diverge.
Arguments Ok {A} a.
Arguments Throw {A} e.
Arguments Diverge {A}.

Definition M (A : Type) : Type := state -> result A * state.

Definition ret {A} (a : A) : M A := fun st => (Ok a, st).

Definition bind {A B} (m : M A) (k : A -> M B) : M B :=
  fun st =>
    match m st with
    | (Ok a, st') => k a st'
    | (Throw e, st') => (Throw e, st')
    | (Diverge, st') => (Diverge, st')
    end.

Definition throw {A} (e : exn) : M A := fun st => (Throw e, st).

Definition diverge {A} : M A := fun st => (Diverge, st).

(** [try { m } catch (e) { handler e }] *)
Definition try_catch {A} (m : M A) (handler : exn -> M A) : M A :=
  fun st =>
    match m st with
    | (Throw e, st') => handler e st'
    | r => r
    end.

Definition lift {A} (r : result A) : M A := fun st => (r, st).

Definition gets {A} (f : state -> A) : M A := fun st => (Ok (f st), st).

Definition modify (f : state -> state) : M unit := fun st => (Ok tt, f st).

Declare Scope js_scope.
Delimit Scope js_scope with js.
Notation "x <- m ;; k" := (bind m (fun x => k))
  (at level 100, m at next level, right associativity) : js_scope.
Notation "m ;; k" := (bind m (fun _ => k))
  (at level 100, right associativity) : js_scope.
Open Scope js_scope.

Definition when (b : bool) (m : M unit) : M unit := if b then m else ret tt.

(** [list.forEach(f)] *)
Fixpoint forEach {A} (l : list A) (f : A -> M unit) : M unit :=
  match l with
  | [] => ret tt
  | x :: rest => f x ;; forEach rest f
  end.

Definition set_heap (h : list object) (st : state) : state :=
  State h (fetches st) (trace st).

Definition emit (e : event) : M unit :=
  modify (fun st => State (heap st) (fetches st) (trace st ++ [e])).

Definition logger_warn (message : string) : M unit := emit (EWarn message).
Definition logger_error (message : string) : M unit := emit (EError message).

Definition alloc (o : object) : M value :=
  fun st => (Ok (VRef (length (heap st))), set_heap (heap st ++ [o]) st).

(** A function expression evaluates to a fresh, extensible function object. *)
Definition closure (c : code) : M value := alloc (Object [] None true (KFunction c)).

(** ** Property access *)

Fixpoint assoc {A} (k : string) (l : list (string * A)) : option A :=
  match l with
  | [] => None
  | (k', a) :: rest => if String.eqb k k' then Some a else assoc k rest
  end.

(** Replace the entry of [k], or append one: insertion order is kept. *)
Fixpoint assoc_set {A} (k : string) (a : A) (l : list (string * A)) : list (string * A) :=
  match l with
  | [] => [(k, a)]
  | (k', a') :: rest =>
      if String.eqb k k' then (k, a) :: rest else (k', a') :: assoc_set k a rest
  end.

Definition own_property (h : list object) (l : loc) (name : string) : option property :=
  match h !! l with
  | Some o => assoc name (o_props o)
  | None => None
  end.

(** The first object on the prototype chain of [l] that owns [name]. *)
Fixpoint chain_property (fuel : nat) (h : list object) (l : loc) (name : string)
  : option property :=
  match fuel with
  | O => None
  | S fuel' =>
      match h !! l with
      | None => None
      | Some o =>
          match assoc name (o_props o) with
          | Some p => Some p
          | None =>
              match o_proto o with
              | Some l' => chain_property fuel' h l' name
              | None => None
              end
          end
      end
  end.

Definition find_property (h : list object) (l : loc) (name : string) : option property :=
  chain_property (length h) h l name.

Definition truthy (v : value) : bool :=
  match v with
  | VUndefined | VNull => false
  | VBool b => b
  | VNumber n | VBigInt n => negb (Z.eqb n 0)
  | VString s => negb (String.eqb s "")
  | VRef _ => true
  end.

(** [name in source] *)
Definition has_property (source : value) (name : string) : M bool :=
  match source with
  | VRef l => gets (fun st => bool_decide (is_Some (find_property (heap st) l name)))
  | _ => throw TypeError
  end.

(** What reading [name] on the object at [l] gives. *)
Definition field (h : list object) (l : loc) (name : string) : value :=
  match find_property h l name with
  | Some p => p_value p
  | None => VUndefined
  end.

(** [v[name]] and [v.name], for reading a data property. *)
Definition get (v : value) (name : string) : M value :=
  match v with
  | VUndefined | VNull => throw TypeError
  | VRef l => gets (fun st => field (heap st) l name)
  | VString s =>
      ret (if String.eqb name "length" then VNumber (Z.of_nat (String.length s))
           else VUndefined)
  | _ => ret VUndefined
  end.

Definition update_object (l : loc) (o : object) : M unit :=
  modify (fun st => set_heap (<[l := o]> (heap st)) st).

Definition with_props (o : object) (ps : list (string * property)) : object :=
  Object ps (o_proto o) (o_extensible o) (o_kind o).

(** [v[name] = x] in strict mode. *)
Definition set (v : value) (name : string) (x : value) : M unit :=
  match v with
  | VRef l =>
      h <- gets heap ;;
      match h !! l with
      | None => throw TypeError
      | Some o =>
          match assoc name (o_props o) with
          | Some p =>
              if p_writable p
              then update_object l
                     (with_props o (assoc_set name
                        (Property x true (p_enumerable p) (p_configurable p)) (o_props o)))
              else throw TypeError
          | None =>
              let inherited_readonly :=
                match find_property h l name with
                | Some p => negb (p_writable p)
                | None => false
                end in
              if inherited_readonly || negb (o_extensible o)
              then throw TypeError
              else update_object l
                     (with_props o (assoc_set name (data_property x) (o_props o)))
          end
      end
  | _ => throw TypeError
  end.

(** [Object.getOwnPropertyDescriptor(source, name)]; [None] is [undefined]. *)
Definition getOwnPropertyDescriptor (source : value) (name : string)
  : M (option property) :=
  match source with
  | VUndefined | VNull => throw TypeError
  | VRef l => gets (fun st => own_property (heap st) l name)
  | _ => ret None
  end.

(** [Object.defineProperties(source, {[name]: {value: x}})] *)
Definition defineProperties (source : value) (name : string) (x : value) : M unit :=
  match source with
  | VRef l =>
      h <- gets heap ;;
      match h !! l with
      | None => throw TypeError
      | Some o =>
          match assoc name (o_props o) with
          | Some p =>
              if p_configurable p || p_writable p
              then update_object l
                     (with_props o (assoc_set name
                        (Property x (p_writable p) (p_enumerable p) (p_configurable p))
                        (o_props o)))
              else throw TypeError
          | None =>
              if o_extensible o
              then update_object l
                     (with_props o (assoc_set name (Property x false false false) (o_props o)))
              else throw TypeError
          end
      end
  | _ => throw TypeError
  end.

(** ** The host: the JavaScript engine, the globals and the libraries the
    integration is linked against ([@sentry/core], [@sentry/utils],
    [@sentry/types]).  None of it is code of this repository; the definitions
    below are parametric in it. *)

Record Host := {
  (** [Object.defineProperties && Object.getOwnPropertyDescriptor] *)
  object_reflect : bool;
  (** Where [Object.prototype] lives on the heap. *)
  object_prototype : loc;
  (** [String(o)] for an object; [None] when the conversion throws. *)
  object_toString : object -> option string;
  (** [Number(s)] for a string, when it is an integer; [None] when it is
      [NaN], an infinity or a fraction. *)
  string_to_number : string -> option Z;
  (** What a host function returns or throws, from its name, [this] and its
      arguments.  A host function does not call back into the program while
      it runs: the host delivers callbacks later, as calls of their own. *)
  native : string -> value -> list value -> result value;
  (** [JSON.parse] on a string; [None] is a [SyntaxError]. *)
  JSON_parse : string -> option json;
  (** The global [console]. *)
  console : loc;
  (** [minaContext] of env.ts: [wx] when it is defined, else [{}]. *)
  minaContext : value;
  (** The global [getCurrentPages]: [None] when [typeof] does not say
      ['function'], else what a call returns or throws. *)
  getCurrentPages : option (result (list value));
  (** [getCurrentHub().getIntegration(Breadcrumbs)] is truthy. *)
  hub_integration : bool;
  (** [client && client.getDsn()]; [None] when it is falsy. *)
  client_dsn : option string;
  (** [new API(dsn).getStoreEndpoint()] *)
  getStoreEndpoint : string -> string;
  isMatchingPattern : value -> string -> bool;
  Severity_fromString : string -> string;
  getEventDescription : json -> string
}.

(** ** Strings *)

Definition dquote : string := String (ascii_of_nat 34) EmptyString.

(** The decimal numeral of an integer: what JavaScript prints for the
    numbers of the domain, and for every BigInt. *)
Definition Z_to_string (n : Z) : string := NilZero.string_of_int (Z.to_int n).

Definition nat_to_string (n : nat) : string := Z_to_string (Z.of_nat n).

(** [list.join(delimiter)] on strings *)
Fixpoint join (delimiter : string) (l : list string) : string :=
  match l with
  | [] => ""
  | [s] => s
  | s :: rest => s ++ delimiter ++ join delimiter rest
  end.

Definition upper_char (c : ascii) : ascii :=
  let n := nat_of_ascii c in
  if ((97 <=? n) && (n <=? 122))%nat then ascii_of_nat (n - 32) else c.

Definition lower_char (c : ascii) : ascii :=
  let n := nat_of_ascii c in
  if ((65 <=? n) && (n <=? 90))%nat then ascii_of_nat (n + 32) else c.

Fixpoint map_string (f : ascii -> ascii) (s : string) : string :=
  match s with
  | EmptyString => EmptyString
  | String c rest => String (f c) (map_string f rest)
  end.

(** [s.toUpperCase()] as a method call on any value. *)
Definition toUpperCase (v : value) : M value :=
  match v with
  | VString s => ret (VString (map_string upper_char s))
  | _ => throw TypeError
  end.

(** [s.substr(0, n)] *)
Definition substr0 (n : nat) (s : string) : string := substring 0 n s.

(** The character of [s] that the property name [name] indexes. *)
Definition char_at (s : string) (name : string) : option string :=
  head (omap (fun i =>
                if String.eqb (nat_to_string i) name
                then option_map (fun c => String c EmptyString) (String.get i s)
                else None)
             (seq 0 (String.length s))).

(** [v[name]], with the indexed characters of a string. *)
Definition get_member (v : value) (name : string) : M value :=
  match v with
  | VString s =>
      match char_at s name with
      | Some c => ret (VString c)
      | None => get v name
      end
  | _ => get v name
  end.

(** [String(v)] *)
Definition to_string (host : Host) (h : list object) (v : value) : result string :=
  match v with
  | VUndefined => Ok "undefined"
  | VNull => Ok "null"
  | VBool b => Ok (if b then "true" else "false")
  | VNumber n | VBigInt n => Ok (Z_to_string n)
  | VString s => Ok s
  | VRef l =>
      match h !! l with
      | Some o =>
          match object_toString host o with
          | Some s => Ok s
          | None => Throw TypeError
          end
      | None => Throw TypeError
      end
  end.

(** [safeJoin] of [@sentry/utils]: [String] of every element, a placeholder for
    an element whose conversion throws, joined with the delimiter. *)
Definition safeJoin (host : Host) (h : list object) (input : list value)
    (delimiter : string) : string :=
  join delimiter
    (map (fun v => match to_string host h v with
                   | Ok s => s
                   | _ => "[value cannot be serialized]"
                   end) input).

(** *** [JSON.stringify] *)

Definition hex_digit (n : nat) : string :=
  String (nth n (list_ascii_of_string "0123456789abcdef") "0"%char) EmptyString.

Definition quote_char (c : ascii) : string :=
  let n := nat_of_ascii c in
  if (n =? 34)%nat then "\" ++ dquote
  else if (n =? 92)%nat then "\\"
  else if (n =? 8)%nat then "\b"
  else if (n =? 9)%nat then "\t"
  else if (n =? 10)%nat then "\n"
  else if (n =? 12)%nat then "\f"
  else if (n =? 13)%nat then "\r"
  else if (n <? 32)%nat then "\u00" ++ hex_digit (n / 16) ++ hex_digit (n mod 16)
  else String c EmptyString.

Fixpoint quote_body (s : string) : string :=
  match s with
  | EmptyString => EmptyString
  | String c rest => quote_char c ++ quote_body rest
  end.

Definition quote (s : string) : string := dquote ++ quote_body s ++ dquote.

(** [SerializeJSONProperty]: [Ok None] is [undefined].  [stack] holds the
    objects being serialized; meeting one of them again is the cyclic
    structure [JSON.stringify] refuses.  Properties are serialized in the
    order the object lists them, which is the order of JavaScript for names
    that are no array indices; the objects of the domain define no [toJSON],
    so none is consulted.  [fuel]
    bounds the nesting, and the number of objects of the heap is enough of it
    (lemma [serialize_ends]). *)
Fixpoint serialize (fuel : nat) (h : list object) (stack : list loc) (v : value)
  : result (option string) :=
  match v with
  | VUndefined => Ok None
  | VNull => Ok (Some "null")
  | VBool b => Ok (Some (if b then "true" else "false"))
  | VNumber n => Ok (Some (Z_to_string n))
  | VBigInt _ => Throw TypeError
  | VString s => Ok (Some (quote s))
  | VRef l =>
      match h !! l with
      | None => Ok None
      | Some o =>
          match o_kind o with
          | KFunction _ => Ok None
          | _ =>
              if bool_decide (l ∈ stack) then Throw TypeError
              else
                match fuel with
                | O => Diverge
                | S fuel' =>
                    let members :=
                      (fix members (ps : list (string * property))
                         : result (list string) :=
                         match ps with
                         | [] => Ok []
                         | (k, p) :: rest =>
                             if p_enumerable p
                             then
                               match serialize fuel' h (l :: stack) (p_value p) with
                               | Ok (Some s) =>
                                   match members rest with
                                   | Ok ms => Ok ((quote k ++ ":" ++ s) :: ms)
                                   | r => r
                                   end
                               | Ok None => members rest
                               | Throw e => Throw e
                               | Diverge => Diverge
                               end
                             else members rest
                         end) in
                    match members (o_props o) with
                    | Ok ms => Ok (Some ("{" ++ join "," ms ++ "}"))
                    | Throw e => Throw e
                    | Diverge => Diverge
                    end
                end
          end
      end
  end.

Fixpoint serialize_elements (h : list object) (l : list value) : result (list string) :=
  match l with
  | [] => Ok []
  | v :: rest =>
      match serialize (length h) h [] v with
      | Ok s =>
          match serialize_elements h rest with
          | Ok ss => Ok (default "null" s :: ss)
          | r => r
          end
      | Throw e => Throw e
      | Diverge => Diverge
      end
  end.

(** [JSON.stringify(args)] for an array of arguments. *)
Definition JSON_stringify (args : list value) : M string :=
  fun st =>
    match serialize_elements (heap st) args with
    | Ok ss => (Ok ("[" ++ join "," ss ++ "]"), st)
    | Throw e => (Throw e, st)
    | Diverge => (Diverge, st)
    end.

(** ** Small helpers shared by the two source files *)

Definition opt_truthy (o : optval) : bool :=
  match o with
  | OUndefined => false
  | OBool b => b
  | OList _ | OObject _ => true
  end.

Definition code_at (h : list object) (v : value) : option code :=
  match v with
  | VRef l =>
      match h !! l with
      | Some o => match o_kind o with KFunction c => Some c | _ => None end
      | None => None
      end
  | _ => None
  end.

(** [typeof v === 'function'] *)
Definition is_function (h : list object) (v : value) : bool :=
  bool_decide (is_Some (code_at h v)).

(** [isError] of [@sentry/utils] *)
Definition isError (h : list object) (v : value) : bool :=
  match v with
  | VRef l =>
      match h !! l with
      | Some o => match o_kind o with KError => true | _ => false end
      | None => false
      end
  | _ => false
  end.

(** [a[i]] on an array held as a list *)
Definition index (a : list value) (i : Z) : value :=
  if (i <? 0)%Z then VUndefined else nth (Z.to_nat i) a VUndefined.

Fixpoint filterM {A} (f : A -> M bool) (l : list A) : M (list A) :=
  match l with
  | [] => ret []
  | x :: rest =>
      keep <- f x ;;
      rest' <- filterM f rest ;;
      ret (if keep then x :: rest' else rest')
  end.

Definition enumerable_key (o : object) (k : string) : bool :=
  match assoc k (o_props o) with
  | Some p => p_enumerable p
  | None => false
  end.

Definition own_enumerable_keys (o : object) : list string :=
  filter (fun k => enumerable_key o k = true) (map fst (o_props o)).

Definition string_indices (s : string) : list string :=
  map nat_to_string (seq 0 (String.length s)).

(** [Object.keys(v)] *)
Definition Object_keys (v : value) : M (list string) :=
  match v with
  | VUndefined | VNull => throw TypeError
  | VRef l =>
      gets (fun st => match heap st !! l with
                      | Some o => own_enumerable_keys o
                      | None => []
                      end)
  | VString s => ret (string_indices s)
  | _ => ret []
  end.

(** The keys [for (k in o)] visits: the enumerable ones of the object, then
    those of its prototypes that nothing nearer shadows. *)
Fixpoint for_in_chain (fuel : nat) (h : list object) (l : loc) (seen : list string)
  : list string :=
  match fuel with
  | O => []
  | S fuel' =>
      match h !! l with
      | None => []
      | Some o =>
          filter (fun k => bool_decide (k ∉ seen)) (own_enumerable_keys o)
          ++ match o_proto o with
             | Some l' => for_in_chain fuel' h l' (seen ++ map fst (o_props o))
             | None => []
             end
      end
  end.

Definition for_in_keys (h : list object) (v : value) : list string :=
  match v with
  | VRef l => for_in_chain (length h) h l []
  | VString s => string_indices s
  | _ => []
  end.

(** The built-in [Object.prototype.hasOwnProperty], applied to [this]. *)
Definition Object_prototype_hasOwnProperty (this : value) (key : string) : M bool :=
  match this with
  | VUndefined | VNull => throw TypeError
  | VRef l => gets (fun st => bool_decide (is_Some (own_property (heap st) l key)))
  | VString s => ret (bool_decide (is_Some (char_at s key)) || String.eqb key "length")
  | _ => ret false
  end.

(** [isWxUnhandledPromiseError] of env.ts:
      [message && typeof message === 'string' && /^(Unhandled|Uncaught)/i.test(message)] *)
Definition starts_with_ci (prefix s : string) : bool :=
  String.eqb (map_string lower_char (substring 0 (String.length prefix) s)) prefix.

Definition isWxUnhandledPromiseError (message : value) : bool :=
  match message with
  | VString s =>
      negb (String.eqb s "") && (starts_with_ci "unhandled" s || starts_with_ci "uncaught" s)
  | _ => false
  end.

Definition json_get (j : json) (name : string) : result (option json) :=
  match j with
  | JNull => Throw TypeError
  | JObject fields => Ok (assoc name fields)
  | _ => Ok None
  end.

Definition json_truthy (j : option json) : bool :=
  match j with
  | None | Some JNull => false
  | Some (JBool b) => b
  | Some (JNumber n) => negb (Z.eqb n 0)
  | Some (JString s) => negb (String.eqb s "")
  | Some (JArray _) | Some (JObject _) => true
  end.


Definition MINA_APP_LIFE_CYCLE : list string := ["onAppShow"; "onAppHide"].

Record Breadcrumbs := {
  this_name : string;
  this_ctx : value;
  this_realtimeLogManager : value;
  this_options : IntegrationOptions
}.

(** The argument of the constructor: [None] is a member the caller's object
    does not have. *)
Record OptionsArg := {
  arg_console : option optval;
  arg_request : option optval;
  arg_navigation : option optval;
  arg_api : option optval;
  arg_lifecycle : option optval;
  arg_unhandleError : option optval;
  arg_realtimeLog : option optval;
  arg_filterApis : option optval
}.

Definition no_options : OptionsArg :=
  Build_OptionsArg None None None None None None None None.

Section Program.
Context (host : Host).

(** ** src/env.ts *)

Definition getMinaContext : value := minaContext host.

Definition getMinaApiList : M (list string) :=
  keys <- Object_keys (minaContext host) ;;
  filterM (fun api =>
             v <- get_member (minaContext host) api ;;
             gets (fun st => is_function (heap st) v)) keys.

Definition supportRequest : M bool :=
  v <- get (minaContext host) "request" ;;
  ret (truthy v).

Definition supportNavigations : M (option (list string)) :=
  list <- filterM (fun api => v <- get (minaContext host) api ;; ret (truthy v))
            ["navigateBack"; "navigateTo"; "redirectTo"; "reLaunch"; "switchTab"] ;;
  ret (if (0 <? length list)%nat then Some list else None).

Definition getCurrentPage : M value :=
  try_catch
    (match getCurrentPages host with
     | Some r =>
         pages <- lift r ;;
         get (index pages (Z.of_nat (length pages) - 1)) "route"
     | None =>
         logger_warn "getCurrentPages is not function in global" ;;
         ret (VString "unknow")
     end)
    (fun _ => ret (VString "unknow")).

(** [Number(delta)] as the subtraction [pages.length - 1 - delta] takes it:
    an integer, or [None] for [NaN], an infinity or a fraction, none of which
    names an element of an array.  An object converts through its string
    conversion; mixing a BigInt into the subtraction throws. *)
Definition to_index (h : list object) (v : value) : result (option Z) :=
  match v with
  | VUndefined => Ok None
  | VNull => Ok (Some 0%Z)
  | VBool b => Ok (Some (if b then 1 else 0)%Z)
  | VNumber n => Ok (Some n)
  | VBigInt _ => Throw TypeError
  | VString s => Ok (string_to_number host s)
  | VRef _ =>
      match to_string host h v with
      | Ok s => Ok (string_to_number host s)
      | Throw e => Throw e
      | Diverge => Diverge
      end
  end.

Definition getPrevPage (delta : value) : M value :=
  try_catch
    (match getCurrentPages host with
     | Some r =>
         pages <- lift r ;;
         let delta := if negb (truthy delta) then VNumber 1 else delta in
         d <- (fun st => (to_index (heap st) delta, st)) ;;
         match d with
         | Some d => get (index pages (Z.of_nat (length pages) - 1 - d)) "route"
         | None => get VUndefined "route"
         end
     | None =>
         logger_warn "getCurrentPages is not function in global" ;;
         ret (VString "unknow")
     end)
    (fun _ => ret (VString "unknow")).

(** ** src/integrations/breadcrumbs.ts *)

(** The [try] block of [fill]. *)
Definition install (source : value) (name : string) (replacement : value -> M value)
  : M unit :=
  present <- has_property source name ;;
  marked <- (if negb present then ret true
             else current <- get source name ;;
                  mark <- get current "__sentry__" ;;
                  ret (truthy mark)) ;;
  if marked then ret tt
  else
    original <- get source name ;;
    wrapped <- replacement original ;;
    set wrapped "__sentry__" (VBool true) ;;
    set wrapped "__sentry_original__" original ;;
    set wrapped "__sentry_wrapped__" wrapped ;;
    if object_reflect host
    then
      desp <- getOwnPropertyDescriptor source name ;;
      match desp with
      | None => throw TypeError
      | Some d =>
          if negb (p_configurable d) then throw (Error "unable to config")
          else defineProperties source name wrapped
      end
    else set source name wrapped.

Definition fill (source : value) (name : string) (replacement : value -> M value)
  : M unit :=
  try_catch (install source name replacement)
    (fun _ => logger_warn ("fail to reset property " ++ name)).

(** [Breadcrumbs.addBreadcrumb] *)
Definition addBreadcrumb (b : breadcrumb) (h : option hint) : M unit :=
  emit (EEmit b h) ;;
  when (hub_integration host) (emit (EHubBreadcrumb b h)).

Definition addSentryBreadcrumb (serializedData : value) : M unit :=
  try_catch
    (text <- (fun st => (to_string host (heap st) serializedData, st)) ;;
     event <- match JSON_parse host text with
              | Some j => ret j
              | None => throw SyntaxError
              end ;;
     event_id <- lift (json_get event "event_id") ;;
     level <- lift (json_get event "level") ;;
     addBreadcrumb
       (BSentry event_id
          (match level with
           | Some l => if json_truthy level then l
                       else JString (Severity_fromString host "error")
           | None => JString (Severity_fromString host "error")
           end)
          (getEventDescription host event))
       (Some (HSentry event)))
    (fun _ => logger_error "Error while adding sentry type breadcrumb").

Definition filterHeaders_of (request : optval) : list string :=
  match request with
  | OObject (Some names) => names
  | _ => []
  end.

(** *** The closures, parametric in how a function value is called *)

Section Closures.
Variable call : value -> value -> list value -> M value.

(** [function (x = {})]: an [undefined] argument becomes a fresh object. *)
Definition default_object (v : value) : M value :=
  match v with
  | VUndefined => alloc (Object [] (Some (object_prototype host)) true KPlain)
  | _ => ret v
  end.

(** [obj.hasOwnProperty(key)]: the method is the one the lookup on [obj]
    finds, a primitive finding that of [Object.prototype] behind the
    prototype of its wrapper; it is called on [obj], and the caller tests
    what it answers. *)
Definition hasOwnProperty (obj : value) (key : string) : M bool :=
  method <- match obj with
            | VUndefined | VNull | VRef _ => get obj "hasOwnProperty"
            | _ => get (VRef (object_prototype host)) "hasOwnProperty"
            end ;;
  own <- call method obj [VString key] ;;
  ret (truthy own).

(** [Object.create(null)] gives the copy no prototype. *)
Definition fillKeys (obj : value) (keys : list string) : M value :=
  match keys with
  | [] => ret obj
  | _ =>
      objCopy <- alloc (Object [] None true KPlain) ;;
      h <- gets heap ;;
      forEach (for_in_keys h obj) (fun objKey =>
        own <- hasOwnProperty obj objKey ;;
        if own && negb (bool_decide (objKey ∈ keys))
        then v <- get_member obj objKey ;; set objCopy objKey v
        else ret tt) ;;
      ret objCopy
  end.

(** The wrapper [instrumentConsole] installs for [level] is four statements
    in a row; each is a definition here. *)

(** [if (consoleFilterFunctions.indexOf(level) > -1) { ... }] *)
Definition console_breadcrumb (level : string) (consoleFilterFunctions : list string)
    (args : list value) : M unit :=
  when (bool_decide (level ∈ consoleFilterFunctions))
    (arguments <- JSON_stringify args ;;
     message <- gets (fun st => safeJoin host (heap st) args " ") ;;
     breadcrumbData <-
       (if String.eqb level "assert"
        then
          match args with
          | VBool false :: rest =>
              joined <- gets (fun st => safeJoin host (heap st) rest " ") ;;
              arguments' <- JSON_stringify rest ;;
              ret (BConsole arguments' level (Severity_fromString host level)
                     ("Assertion failed: "
                      ++ (if String.eqb joined "" then "console.assert" else joined)))
          | _ => ret (BConsole arguments level (Severity_fromString host level) message)
          end
        else ret (BConsole arguments level (Severity_fromString host level) message)) ;;
     addBreadcrumb breadcrumbData (Some (HConsole args level))).

(** [if (realtimeLogFilterFunctions.indexOf(level) > -1 && realtimeLogManager) { ... }] *)
Definition console_realtime_log (level : string) (realtimeLogFilterFunctions : list string)
    (realtimeLogManager : value) (args : list value) : M unit :=
  when (bool_decide (level ∈ realtimeLogFilterFunctions) && truthy realtimeLogManager)
    (let _level := if String.eqb level "log" then "info" else level in
     method <- get realtimeLogManager _level ;;
     if truthy method
     then call method realtimeLogManager args ;; ret tt
     else ret tt).

(** [if ((level === 'warn' || level === 'error') && captureUnhandleError) { ... }] *)
Definition console_capture (level : string) (captureUnhandleError : optval)
    (args : list value) : M unit :=
  when ((String.eqb level "warn" || String.eqb level "error")
        && opt_truthy captureUnhandleError)
    (isErr <- gets (fun st => isError (heap st) (nth 1 args VUndefined)) ;;
     if isWxUnhandledPromiseError (nth 0 args VUndefined) && isErr
     then emit (ECapture (nth 1 args VUndefined))
     else ret tt).

(** [if (originalConsoleLevel) { try { Function.prototype.apply.call(..) }
                                 catch (e) { originalConsoleLevel.apply(..) } }] *)
Definition console_original (originalConsoleLevel : value) (args : list value) : M unit :=
  when (truthy originalConsoleLevel)
    (try_catch
       (call originalConsoleLevel (VRef (console host)) args ;; ret tt)
       (fun _ => call originalConsoleLevel (VRef (console host)) args ;; ret tt)).

Definition console_wrapper (level : string) (originalConsoleLevel : value)
    (consoleFilterFunctions realtimeLogFilterFunctions : list string)
    (captureUnhandleError : optval) (realtimeLogManager : value)
    (args : list value) : M value :=
  console_breadcrumb level consoleFilterFunctions args ;;
  console_realtime_log level realtimeLogFilterFunctions realtimeLogManager args ;;
  console_capture level captureUnhandleError args ;;
  console_original originalConsoleLevel args ;;
  ret VUndefined.

(** The wrapper [instrumentMinaApi] installs for [api]. *)
Definition mina_api_wrapper (api : string) (originalRequest ctx : value)
    (args : list value) : M value :=
  addBreadcrumb (BMinaApi args api) None ;;
  call originalRequest ctx args.

(** [fetchData.status_code = statusCode] *)
Definition record_status (statusCode : value) (fd : fetch_data) : fetch_data :=
  FetchData (fd_method fd) (fd_url fd) (fd_header fd) (fd_dataType fd) statusCode
    (fd_requestData fd).

(** [requestOptions.success] as [instrumentRequest] replaces it. *)
Definition success_wrapper (fetchData : nat) (originSuccess : value) (request : optval)
    (args : list value) : M value :=
  let res := nth 0 args VUndefined in
  statusCode <- get res "statusCode" ;;
  modify (fun st =>
    State (heap st) (alter (record_status statusCode) fetchData (fetches st)) (trace st)) ;;
  data <- (if truthy res
           then
             d <- get res "data" ;;
             ret (match d with
                  | VString s =>
                      if (128 <? String.length s)%nat
                      then VString (substr0 128 s ++ "...")
                      else VString s
                  | _ => VNull
                  end)
           else ret VNull) ;;
  snapshot <- gets (fun st => fetches st !! fetchData) ;;
  responseHeader <- get res "header" ;;
  header <- fillKeys responseHeader (filterHeaders_of request) ;;
  match snapshot with
  | Some fd => addBreadcrumb (BRequest fd header data) None
  | None => throw TypeError
  end ;;
  when (truthy originSuccess) (call originSuccess VUndefined [res] ;; ret tt) ;;
  ret VUndefined.

(** [requestOptions.fail] as [instrumentRequest] replaces it. *)
Definition fail_wrapper (fetchData : nat) (originFail : value) (args : list value)
  : M value :=
  let error := nth 0 args VUndefined in
  addBreadcrumb (BRequestError fetchData "error") None ;;
  when (truthy originFail) (call originFail VUndefined [error] ;; ret tt) ;;
  ret VUndefined.

(** The wrapper [instrumentRequest] installs on [ctx.request]. *)
Definition request_wrapper (originalRequest ctx : value) (request : optval)
    (args : list value) : M value :=
  requestOptions <- default_object (nth 0 args VUndefined) ;;
  m <- get requestOptions "method" ;;
  method <- (if truthy m then toUpperCase m else ret (VString "GET")) ;;
  url <- get requestOptions "url" ;;
  let ordinary : M value :=
    requestHeader <- get requestOptions "header" ;;
    header <- fillKeys requestHeader (filterHeaders_of request) ;;
    dataType <- get requestOptions "dataType" ;;
    requestData <- get requestOptions "data" ;;
    fetchData <- (fun st =>
      (Ok (length (fetches st)),
       State (heap st)
         (fetches st ++ [FetchData method url header dataType (VNumber 0) requestData])
         (trace st))) ;;
    originSuccess <- get requestOptions "success" ;;
    originFail <- get requestOptions "fail" ;;
    success <- closure (SuccessWrapper fetchData originSuccess request) ;;
    set requestOptions "success" success ;;
    fail <- closure (FailWrapper fetchData originFail) ;;
    set requestOptions "fail" fail ;;
    call originalRequest ctx [requestOptions] in
  match client_dsn host with
  | Some dsn =>
      let filterUrl := getStoreEndpoint host dsn in
      if negb (String.eqb filterUrl "") && isMatchingPattern host url filterUrl
      then
        data <- get requestOptions "data" ;;
        when (bool_decide (method = VString "POST") && truthy data)
          (addSentryBreadcrumb data) ;;
        call originalRequest ctx [requestOptions]
      else ordinary
  | None => ordinary
  end.

(** [historyReplacementFunction(originalHistoryFunction)] *)
Definition history_wrapper (originalHistoryFunction this : value) (args : list value)
  : M value :=
  options <- default_object (nth 0 args VUndefined) ;;
  url <- get options "url" ;;
  delta <- (if negb (truthy url) then get options "delta" else ret VUndefined) ;;
  to <- (if negb (truthy url) && truthy delta then getPrevPage delta else ret url) ;;
  when (truthy to)
    (from <- getCurrentPage ;;
     addBreadcrumb (BNavigation from to) None) ;;
  call originalHistoryFunction this [options].

(** The listener [instrumentLifeCycle] registers for [key]. *)
Definition lifecycle_listener (key : string) (args : list value) : M value :=
  addBreadcrumb (BLifeCycle key (nth 0 args VUndefined)) None ;;
  ret VUndefined.

(** What running the function [f], whose code is [c], does. *)
Definition run (f : value) (c : code) (this : value) (args : list value) : M value :=
  match c with
  | Native name =>
      emit (ECall f this args) ;;
      lift (native host name this args)
  | HasOwnProperty =>
      key <- (fun st => (to_string host (heap st) (nth 0 args VUndefined), st)) ;;
      own <- Object_prototype_hasOwnProperty this key ;;
      ret (VBool own)
  | ConsoleWrapper level original cff rlff capture manager =>
      console_wrapper level original cff rlff capture manager args
  | MinaApiWrapper api original ctx => mina_api_wrapper api original ctx args
  | RequestWrapper original ctx request => request_wrapper original ctx request args
  | SuccessWrapper fetchData originSuccess request =>
      success_wrapper fetchData originSuccess request args
  | FailWrapper fetchData originFail => fail_wrapper fetchData originFail args
  | HistoryWrapper original => history_wrapper original this args
  | LifeCycleListener key => lifecycle_listener key args
  end.

End Closures.

(** Calling a value: a [TypeError] unless it is a function; a host function is
    recorded and answers as the host says; a closure of the integration runs
    its body.  [fuel] bounds the depth of nested calls. *)
Fixpoint call (fuel : nat) (f this : value) (args : list value) : M value :=
  c <- gets (fun st => code_at (heap st) f) ;;
  match c with
  | None => throw TypeError
  | Some c =>
      match fuel with
      | O => diverge
      | S fuel' => run (call fuel') f c this args
      end
  end.

(** *** The class [Breadcrumbs] *)

Definition merge (default : optval) (explicit : option optval) : optval :=
  match explicit with
  | Some v => v
  | None => default
  end.

(** [{ console: true, navigation: true, api: true, lifecycle: true,
       unhandleError: true, realtimeLog: true, ...options }] *)
Definition merged_options (options : OptionsArg) : IntegrationOptions :=
  {| opt_console := merge (OBool true) (arg_console options);
     opt_request := merge OUndefined (arg_request options);
     opt_navigation := merge (OBool true) (arg_navigation options);
     opt_api := merge (OBool true) (arg_api options);
     opt_lifecycle := merge (OBool true) (arg_lifecycle options);
     opt_unhandleError := merge (OBool true) (arg_unhandleError options);
     opt_realtimeLog := merge (OBool true) (arg_realtimeLog options);
     opt_filterApis := merge OUndefined (arg_filterApis options) |}.

Definition constructor (fuel : nat) (options : OptionsArg) : M Breadcrumbs :=
  let ctx := getMinaContext in
  probe <- get ctx "getRealtimeLogManager" ;;
  manager <- (if truthy probe
              then method <- get ctx "getRealtimeLogManager" ;;
                   call fuel method ctx []
              else ret VUndefined) ;;
  ret {| this_name := "Breadcrumbs";
         this_ctx := ctx;
         this_realtimeLogManager := manager;
         this_options := merged_options options |}.

Definition watchFunctions : list string := ["info"; "warn"; "error"; "log"; "debug"].

Definition instrumentConsole (this : Breadcrumbs) : M unit :=
  let consoleFilterFunctions :=
    match opt_console (this_options this) with
    | OList names => names
    | o => if opt_truthy o then watchFunctions else []
    end in
  let realtimeLogFilterFunctions :=
    match opt_realtimeLog (this_options this) with
    | OList names => names
    | o => if opt_truthy o then ["warn"; "error"; "info"] else []
    end in
  let captureUnhandleError := opt_unhandleError (this_options this) in
  let realtimeLogManager := this_realtimeLogManager this in
  forEach watchFunctions (fun level =>
    present <- has_property (VRef (console host)) level ;;
    if negb present then ret tt
    else
      fill (VRef (console host)) level (fun originalConsoleLevel =>
        closure (ConsoleWrapper level originalConsoleLevel consoleFilterFunctions
                   realtimeLogFilterFunctions captureUnhandleError realtimeLogManager))).

Definition instrumentMinaApi (this : Breadcrumbs) : M unit :=
  discovered <- getMinaApiList ;;
  let apiList :=
    match opt_api (this_options this) with
    | OList names => names
    | o => if opt_truthy o then discovered else []
    end in
  forEach apiList (fun api =>
    filtered <- match opt_filterApis (this_options this) with
                | OUndefined | OBool false => ret false
                | OList names => ret (bool_decide (api ∈ names))
                | _ => throw TypeError
                end ;;
    if filtered then ret tt
    else
      member <- get_member (this_ctx this) api ;;
      callable <- gets (fun st => is_function (heap st) member) ;;
      if truthy member && callable
      then fill (this_ctx this) api (fun originalRequest =>
             closure (MinaApiWrapper api originalRequest (this_ctx this)))
      else ret tt).

Definition instrumentRequest (this : Breadcrumbs) : M unit :=
  supported <- supportRequest ;;
  if negb supported then ret tt
  else
    fill (this_ctx this) "request" (fun originalRequest =>
      closure (RequestWrapper originalRequest (this_ctx this)
                 (opt_request (this_options this)))).

Definition instrumentNavigation (this : Breadcrumbs) : M unit :=
  supportList <- supportNavigations ;;
  match supportList with
  | None => ret tt
  | Some list =>
      forEach list (fun api =>
        fill (this_ctx this) api (fun originalHistoryFunction =>
          closure (HistoryWrapper originalHistoryFunction)))
  end.

Definition instrumentLifeCycle (fuel : nat) (this : Breadcrumbs) : M unit :=
  let ctx := this_ctx this in
  forEach MINA_APP_LIFE_CYCLE (fun key =>
    probe <- get ctx key ;;
    if truthy probe
    then register <- get ctx key ;;
         listener <- closure (LifeCycleListener key) ;;
         call fuel register ctx [listener] ;;
         ret tt
    else ret tt).

Definition setupOnce (fuel : nat) (this : Breadcrumbs) : M unit :=
  let options := this_options this in
  when (opt_truthy (opt_console options)
        || (opt_truthy (opt_realtimeLog options) && truthy (this_realtimeLogManager this)))
    (instrumentConsole this) ;;
  when (opt_truthy (opt_navigation options)) (instrumentNavigation this) ;;
  when (opt_truthy (opt_request options)) (instrumentRequest this) ;;
  when (opt_truthy (opt_api options)) (instrumentMinaApi this) ;;
  when (opt_truthy (opt_lifecycle options)) (instrumentLifeCycle fuel this).

End Program.

(** The older copy of the integration (the second breadcrumbs module of the
    repository): its constructor lists [request] among the defaults. *)
Module Legacy.

Definition merged_options (options : OptionsArg) : IntegrationOptions :=
  {| opt_console := merge (OBool true) (arg_console options);
     opt_request := merge (OBool true) (arg_request options);
     opt_navigation := merge (OBool true) (arg_navigation options);
     opt_api := merge (OBool true) (arg_api options);
     opt_lifecycle := merge (OBool true) (arg_lifecycle options);
     opt_unhandleError := merge (OBool true) (arg_unhandleError options);
     opt_realtimeLog := merge (OBool true) (arg_realtimeLog options);
     opt_filterApis := merge OUndefined (arg_filterApis options) |}.

Definition constructor (host : Host) (fuel : nat) (options : OptionsArg) : M Breadcrumbs :=
  let ctx := getMinaContext host in
  probe <- get ctx "getRealtimeLogManager" ;;
  manager <- (if truthy probe
              then method <- get ctx "getRealtimeLogManager" ;;
                   call host fuel method ctx []
              else ret VUndefined) ;;
  ret {| this_name := "Breadcrumbs";
         this_ctx := ctx;
         this_realtimeLogManager := manager;
         this_options := merged_options options |}.

End Legacy.

(** ** A concrete mini-program, used by the examples

    A [console] whose [log] and [error] are ordinary own properties, whose
    [debug] is a non-configurable own property, whose [warn] is inherited from
    its prototype and which has no [info]; a context [wx] with [request],
    [navigateTo] and [onAppShow]; some request options, a response and a
    cyclic object; [Object.prototype] with its [hasOwnProperty], two header
    mappings that do not reach it, and a response with such a header. *)
Module Demo.

Definition host_function (name : string) : object :=
  Object [] None true (KFunction (Native name)).

(** An object as an object literal makes it; 17 is [Object.prototype]. *)
Definition plain (fields : list (string * value)) : object :=
  Object (map (fun kv => (fst kv, data_property (snd kv))) fields) (Some 17) true KPlain.

Definition endpoint : string := "https://sentry.example/api/1/store/".

Definition envelope : string :=
  "{" ++ dquote ++ "event_id" ++ dquote ++ ":" ++ dquote ++ "X" ++ dquote ++ ","
      ++ dquote ++ "level" ++ dquote ++ ":" ++ dquote ++ "error" ++ dquote ++ "}".

Fixpoint replicate_string (n : nat) (c : ascii) : string :=
  match n with
  | O => EmptyString
  | S n' => String c (replicate_string n' c)
  end.

Definition long_body : string := replicate_string 130 "a"%char.

Definition heap0 : list object :=
  [ (* 0: console *)
    Object [("log", data_property (VRef 1));
            ("error", data_property (VRef 2));
            ("debug", Property (VRef 3) true true false)] (Some 4) true KPlain;
    (* 1, 2, 3: the host's log, error and debug *)
    host_function "log"; host_function "error"; host_function "debug";
    (* 4: the prototype of console *)
    plain [("warn", VRef 16)];
    (* 5: wx *)
    plain [("request", VRef 6); ("navigateTo", VRef 7); ("onAppShow", VRef 8)];
    (* 6, 7, 8: the host's request, navigateTo and onAppShow *)
    host_function "request"; host_function "navigateTo"; host_function "onAppShow";
    (* 9: the options of the client's own delivery request *)
    plain [("url", VString endpoint); ("method", VString "POST");
           ("data", VString envelope)];
    (* 10: the options of an ordinary request *)
    plain [("url", VString "https://api.example/items"); ("header", VRef 12);
           ("success", VRef 11)];
    (* 11: the caller's success callback *)
    host_function "onSuccess";
    (* 12: a header mapping *)
    plain [("Authorization", VString "x"); ("Content-Type", VString "json")];
    (* 13: a response *)
    plain [("statusCode", VNumber 200); ("data", VString long_body); ("header", VRef 12)];
    (* 14: an object that refers to itself *)
    plain [("self", VRef 14)];
    (* 15: a delivery request whose body is not JSON *)
    plain [("url", VString endpoint); ("method", VString "POST");
           ("data", VString "not json")];
    (* 16: the host's warn *)
    host_function "warn";
    (* 17: Object.prototype *)
    Object [("hasOwnProperty", Property (VRef 18) true false true)] None true KPlain;
    (* 18: the built-in Object.prototype.hasOwnProperty *)
    Object [] None true (KFunction HasOwnProperty);
    (* 19: a header mapping without prototype *)
    Object [("Content-Type", data_property (VString "json"))] None true KPlain;
    (* 20: a header mapping with an entry named hasOwnProperty *)
    plain [("hasOwnProperty", VString "x"); ("Authorization", VString "s")];
    (* 21: a response whose header is the mapping without prototype *)
    plain [("statusCode", VNumber 200); ("data", VString long_body); ("header", VRef 19)] ].

(** [Number(s)] on decimal numerals, which is all the examples convert. *)
Definition decimal (s : string) : option Z :=
  option_map Z.of_int (NilZero.int_of_string s).

(** [isMatchingPattern] with a string pattern: the value is a string that
    contains it. *)
Definition contains (pattern s : string) : bool :=
  match String.index 0 pattern s with
  | Some _ => true
  | None => false
  end.

Definition host : Host := {|
  object_reflect := true;
  object_prototype := 17;
  object_toString := fun _ => Some "[object Object]";
  string_to_number := decimal;
  native := fun _ _ _ => Ok VUndefined;
  JSON_parse := fun text =>
    if String.eqb text envelope
    then Some (JObject [("event_id", JString "X"); ("level", JString "error")])
    else None;
  console := 0;
  minaContext := VRef 5;
  getCurrentPages := None;
  hub_integration := true;
  client_dsn := Some "https://key@sentry.example/1";
  getStoreEndpoint := fun _ => endpoint;
  isMatchingPattern := fun v pattern =>
    match v with
    | VString s => contains pattern s
    | _ => false
    end;
  Severity_fromString := fun level =>
    if String.eqb level "warn" then "warning"
    else if String.eqb level "debug" || String.eqb level "info"
            || String.eqb level "warning" || String.eqb level "error"
            || String.eqb level "fatal" || String.eqb level "critical"
    then level
    else "log";
  getEventDescription := fun event =>
    match json_get event "message", json_get event "event_id" with
    | Ok (Some (JString m)), _ => m
    | _, Ok (Some (JString id)) => id
    | _, _ => "<unknown>"
    end
|}.

(** The same host with a page-stack query that throws. *)
Definition host_throwing_pages : Host := {|
  object_reflect := object_reflect host;
  object_prototype := object_prototype host;
  object_toString := object_toString host;
  string_to_number := string_to_number host;
  native := native host;
  JSON_parse := JSON_parse host;
  console := console host;
  minaContext := minaContext host;
  getCurrentPages := Some (Throw (Error "page stack unavailable"));
  hub_integration := hub_integration host;
  client_dsn := client_dsn host;
  getStoreEndpoint := getStoreEndpoint host;
  isMatchingPattern := isMatchingPattern host;
  Severity_fromString := Severity_fromString host;
  getEventDescription := getEventDescription host
|}.

(** The same host on an engine that lacks [Object.defineProperties] or
    [Object.getOwnPropertyDescriptor]. *)
Definition host_without_reflection : Host := {|
  object_reflect := false;
  object_prototype := object_prototype host;
  object_toString := object_toString host;
  string_to_number := string_to_number host;
  native := native host;
  JSON_parse := JSON_parse host;
  console := console host;
  minaContext := minaContext host;
  getCurrentPages := getCurrentPages host;
  hub_integration := hub_integration host;
  client_dsn := client_dsn host;
  getStoreEndpoint := getStoreEndpoint host;
  isMatchingPattern := isMatchingPattern host;
  Severity_fromString := Severity_fromString host;
  getEventDescription := getEventDescription host
|}.

Definition st0 : state := State heap0 [] [].

(** [new Breadcrumbs()] on this host: [wx] has no [getRealtimeLogManager]. *)
Definition this0 : Breadcrumbs := {|
  this_name := "Breadcrumbs";
  this_ctx := VRef 5;
  this_realtimeLogManager := VUndefined;
  this_options := merged_options no_options
|}.

(** [new Breadcrumbs({request: {filterHeaders: ['Authorization']}})] *)
Definition this_request : Breadcrumbs := {|
  this_name := "Breadcrumbs";
  this_ctx := VRef 5;
  this_realtimeLogManager := VUndefined;
  this_options :=
    merged_options
      (Build_OptionsArg None (Some (OObject (Some ["Authorization"])))
         None None None None None None)
|}.

(** The wrapper factory [instrumentConsole] passes to [fill]. *)
Definition console_code (level : string) (original : value) : code :=
  ConsoleWrapper level original watchFunctions ["warn"; "error"; "info"]
    (OBool true) VUndefined.

End Demo.

(** ** The properties, as predicates on runs *)

(** The wrapper factories of the integration: a function expression around
    the original. *)
Definition replacement (mk : value -> code) : value -> M value :=
  fun original => closure (mk original).

(** The value carries a truthy [__sentry__]. *)
Definition is_marked (h : list object) (v : value) : bool :=
  match v with
  | VRef l =>
      match find_property h l "__sentry__" with
      | Some p => truthy (p_value p)
      | None => false
      end
  | _ => false
  end.

Definition own_value (h : list object) (l : loc) (name : string) : option value :=
  p_value <$> own_property h l name.

(** Two calls of [fill] on [(l, name)] install exactly one wrapper: after the
    first the property holds a marked wrapper of the original, which the
    wrapper refers back to, and the second changes nothing. *)
Definition installs_one_wrapper (host : Host) (l : loc) (name : string)
    (mk : value -> code) (st : state) : Prop :=
  let st1 := (fill host (VRef l) name (replacement mk) st).2 in
  let st2 := (fill host (VRef l) name (replacement mk) st1).2 in
  ∃ (p : property) (w : loc),
    find_property (heap st) l name = Some p
    ∧ own_value (heap st1) l name = Some (VRef w)
    ∧ code_at (heap st1) (VRef w) = Some (mk (p_value p))
    ∧ own_value (heap st1) w "__sentry__" = Some (VBool true)
    ∧ own_value (heap st1) w "__sentry_original__" = Some (p_value p)
    ∧ st2 = st1
    ∧ length (heap st2) = S (length (heap st)).

(** The message [fill] logs when it gives up. *)
Definition fill_warning (name : string) : event :=
  EWarn ("fail to reset property " ++ name).

(** [fill] gave up the way the specification words it: nothing thrown, the
    warning logged, every object as it was. *)
Definition fails_soft (host : Host) (source : value) (name : string)
    (mk : value -> code) (st : state) : Prop :=
  let r := fill host source name (replacement mk) st in
  r.1 = Ok tt
  ∧ trace r.2 = (trace st ++ [fill_warning name])%list
  ∧ ∃ extra, heap r.2 = (heap st ++ extra)%list.

(** What [Breadcrumbs.addBreadcrumb] adds to the trace. *)
Definition emitted (host : Host) (b : breadcrumb) (h : option hint) : list event :=
  EEmit b h :: (if hub_integration host then [EHubBreadcrumb b h] else []).

(** The messages of the "console" breadcrumbs handed to the emitter. *)
Definition console_messages (tr : list event) : list string :=
  omap (fun e => match e with
                 | EEmit (BConsole _ _ _ message) _ => Some message
                 | _ => None
                 end) tr.

(** The argument snapshots of the "console" breadcrumbs handed to the emitter. *)
Definition console_snapshots (tr : list event) : list string :=
  omap (fun e => match e with
                 | EEmit (BConsole arguments _ _ _) _ => Some arguments
                 | _ => None
                 end) tr.

(** The categories of the breadcrumbs handed to the emitter, in order. *)
Definition emitted_categories (tr : list event) : list string :=
  omap (fun e => match e with
                 | EEmit b _ => Some (category b)
                 | _ => None
                 end) tr.

(** The host functions that ran, with [this] and the arguments. *)
Definition host_calls (tr : list event) : list (value * value * list value) :=
  omap (fun e => match e with
                 | ECall callee this args => Some (callee, this, args)
                 | _ => None
                 end) tr.

(** [fill] replaced the value of the property by a wrapper of [original] and
    logged nothing. *)
Definition patches (host : Host) (l : loc) (name : string) (mk : value -> code)
    (st : state) (original : value) : Prop :=
  let r := fill host (VRef l) name (replacement mk) st in
  r.1 = Ok tt
  /\ trace r.2 = trace st
  /\ own_value (heap r.2) l name = Some (VRef (length (heap st)))
  /\ code_at (heap r.2) (VRef (length (heap st))) = Some (mk original).

(** The lookup of [hasOwnProperty] on the object at [l] finds the built-in. *)
Definition finds_builtin_hasOwnProperty (h : list object) (l : loc) : Prop :=
  exists p, find_property h l "hasOwnProperty" = Some p
            /\ code_at h (p_value p) = Some HasOwnProperty.

(** A value [fillKeys] can filter: nothing to enumerate, or an object on
    which the lookup of [hasOwnProperty] finds the built-in. *)
Definition filterable (h : list object) (v : value) : Prop :=
  v = VUndefined \/ v = VNull
  \/ exists l, v = VRef l /\ finds_builtin_hasOwnProperty h l.

(** The page-stack query is missing from the global scope, or throws. *)
Definition page_stack_unavailable (host : Host) : Prop :=
  getCurrentPages host = None ∨ ∃ e, getCurrentPages host = Some (Throw e).

(** ** Definitions the statements use *)

(** The wrapper of [original] as [fill] leaves it on the heap, at address [w]. *)
Definition marked_wrapper (mk : value -> code) (original : value) (w : loc) : object :=
  Object [("__sentry__", data_property (VBool true));
          ("__sentry_original__", data_property original);
          ("__sentry_wrapped__", data_property (VRef w))]
         None true (KFunction (mk original)).

(** What one round of the loop of [fillKeys] does to the properties of the
    copy, and the whole loop. *)
Definition copy_step (o : object) (keys : list string)
    (ps : list (string * property)) (k : string) : list (string * property) :=
  match assoc k (o_props o) with
  | Some p =>
      if negb (bool_decide (k ∈ keys)) then assoc_set k (data_property (p_value p)) ps
      else ps
  | None => ps
  end.

Definition copy_loop (o : object) (keys L : list string)
    (ps : list (string * property)) : list (string * property) :=
  fold_left (copy_step o keys) L ps.

(** Every entry was written by plain assignment. *)
Definition all_data (ps : list (string * property)) : Prop :=
  forall k p, assoc k ps = Some p -> p = data_property (p_value p).

(** The method the wrapper records: upper-cased when given, else GET. *)
Definition request_method (m : value) : value :=
  match m with
  | VString s => if String.eqb s "" then VString "GET" else VString (map_string upper_char s)
  | _ => VString "GET"
  end.

(** The call is the telemetry client's own delivery. *)
Definition own_delivery (host : Host) (url : value) : bool :=
  match client_dsn host with
  | Some dsn =>
      negb (String.eqb (getStoreEndpoint host dsn) "")
      && isMatchingPattern host url (getStoreEndpoint host dsn)
  | None => false
  end.

(** The instrumentation modules, in the order the specification fixes. *)
Inductive module := Console | Navigation | Network | GenericApi | Lifecycle.

Definition module_order : list module :=
  [Console; Navigation; Network; GenericApi; Lifecycle].

Definition enabled (this : Breadcrumbs) (m : module) : bool :=
  let options := this_options this in
  match m with
  | Console =>
      opt_truthy (opt_console options)
      || (opt_truthy (opt_realtimeLog options) && truthy (this_realtimeLogManager this))
  | Navigation => opt_truthy (opt_navigation options)
  | Network => opt_truthy (opt_request options)
  | GenericApi => opt_truthy (opt_api options)
  | Lifecycle => opt_truthy (opt_lifecycle options)
  end.

Definition activate (host : Host) (fuel : nat) (this : Breadcrumbs) (m : module) : M unit :=
  match m with
  | Console => instrumentConsole host this
  | Navigation => instrumentNavigation host this
  | Network => instrumentRequest host this
  | GenericApi => instrumentMinaApi host this
  | Lifecycle => instrumentLifeCycle host fuel this
  end.

(** The orchestrator as the specification words it: the enabled modules, one
    after the other, in the fixed order. *)
Definition setupOnce_in_order (host : Host) (fuel : nat) (this : Breadcrumbs) : M unit :=
  forEach (filter (fun m => enabled this m = true) module_order) (activate host fuel this).

(** ** More of src/env.ts *)

Definition MINA_SYSTEMINFO_TAGS : list string :=
  ["brand"; "model"; "language"; "version"; "system"; "platform"; "SDKVersion"].

(** [getSystemInfo].  The module variable [systemInfo] is passed in and handed
    back beside the result. *)
Definition getSystemInfo (host : Host) (fuel : nat) (systemInfo : value)
  : M (value * value) :=
  try_catch
    (if truthy systemInfo then ret (systemInfo, systemInfo)
     else
       method <- get (minaContext host) "getSystemInfoSync" ;;
       info <- call host fuel method (minaContext host) [] ;;
       ret (info, info))
    (fun _ =>
       logger_warn "getSystemInfoSync is undefined in minaContext" ;;
       rtn <- alloc (Object [] (Some (object_prototype host)) true KPlain) ;;
       forEach MINA_SYSTEMINFO_TAGS (fun tag => set rtn tag (VString "unknow")) ;;
       ret (rtn, systemInfo)).

(** ** Definitions the further statements use *)

(** The warning a page query logs when [getCurrentPages] is no function. *)
Definition page_warning (host : Host) : list event :=
  match getCurrentPages host with
  | None => [EWarn "getCurrentPages is not function in global"]
  | Some _ => []
  end.

(** The prototype chain of [l] ends within [n] objects of the heap.  In a
    heap of JavaScript every chain is finite and without repetition, so it
    ends within as many objects as the heap has. *)
Fixpoint ends_within (n : nat) (h : list object) (l : loc) : bool :=
  match n with
  | O => false
  | S n' =>
      match h !! l with
      | None => false
      | Some o =>
          match o_proto o with
          | None => true
          | Some l' => ends_within n' h l'
          end
      end
  end.

Definition grounded (h : list object) (l : loc) : Prop :=
  ends_within (length h) h l = true.



(** What installing wrappers may do to a state: objects are added and
    properties of existing objects rewritten, while every existing object
    keeps its prototype, its extensibility and its kind (so every function
    stays the function it was); the request snapshots stay; and the trace
    grows by warnings of patches that failed, by nothing else. *)
Definition patched (st st' : state) : Prop :=
  fetches st' = fetches st
  /\ (exists names, trace st' = (trace st ++ map fill_warning names)%list)
  /\ forall l o, heap st !! l = Some o ->
       exists o', heap st' !! l = Some o'
                  /\ o_proto o' = o_proto o
                  /\ o_extensible o' = o_extensible o
                  /\ o_kind o' = o_kind o.

(** The value is neither [undefined] nor [null]. *)
Definition not_nullish (v : value) : Prop := v <> VUndefined /\ v <> VNull.

(** The heap [h'] has every object of [h], with the same prototype and the
    same own entry for [name]: what reading [name] finds is the same. *)
Definition agree_on (name : string) (h h' : list object) : Prop :=
  forall l o, h !! l = Some o ->
    exists o', h' !! l = Some o'
               /\ o_proto o' = o_proto o
               /\ o_extensible o' = o_extensible o
               /\ assoc name (o_props o') = assoc name (o_props o).


(** The values handed to [captureException]. *)
Definition captures (tr : list event) : list value :=
  omap (fun e => match e with
                 | ECapture v => Some v
                 | _ => None
                 end) tr.

(** A value that is no function, however the heap grows: a primitive, or an
    object of another kind. *)
Definition not_callable (h : list object) (v : value) : Prop :=
  match v with
  | VRef l => exists o, h !! l = Some o /\ forall c, o_kind o <> KFunction c
  | _ => True
  end.

(** The hooks among [keys] that the context at [c] has, each with the
    function registered under it and the address its listener gets when the
    heap holds [n] objects. *)
Fixpoint hooks (h : list object) (c : loc) (n : nat) (keys : list string)
  : list (string * value * loc) :=
  match keys with
  | [] => []
  | key :: rest =>
      if truthy (field h c key)
      then (key, field h c key, n) :: hooks h c (S n) rest
      else hooks h c n rest
  end.

Definition hook_listener (hook : string * value * loc) : object :=
  Object [] None true (KFunction (LifeCycleListener hook.1.1)).

Definition hook_call (c : loc) (hook : string * value * loc) : event :=
  ECall hook.1.2 (VRef c) [VRef hook.2].

(** The value a console wrapper hands to [captureException], if any. *)
Definition unhandled_rejection (h : list object) (level : string)
    (captureUnhandleError : optval) (args : list value) : option value :=
  if (String.eqb level "warn" || String.eqb level "error")
     && opt_truthy captureUnhandleError
     && isWxUnhandledPromiseError (nth 0 args VUndefined)
     && isError h (nth 1 args VUndefined)
  then Some (nth 1 args VUndefined)
  else None.

(** The calls of the original a console wrapper makes: one, and a second one
    when the first throws. *)
Definition original_calls (host : Host) (original : value) (name : string)
    (args : list value) : list event :=
  ECall original (VRef (console host)) args
  :: match native host name (VRef (console host)) args with
     | Throw _ => [ECall original (VRef (console host)) args]
     | _ => []
     end.

(** The breadcrumb of a console wrapper at a level other than "assert", when
    the level is among the breadcrumb levels. *)
Definition console_crumb (host : Host) (level : string) (cff : list string)
    (h : list object) (args : list value) (arguments : string) : list event :=
  if bool_decide (level ∈ cff)
  then emitted host
         (BConsole arguments level (Severity_fromString host level) (safeJoin host h args " "))
         (Some (HConsole args level))
  else [].

(** The name under which a level is mirrored to the realtime log. *)
Definition mirrored_level (level : string) : string :=
  if String.eqb level "log" then "info" else level.

(** What a host function's answer becomes for the caller of a wrapper that
    discards it. *)
Definition discard (r : result value) : result value :=
  match r with
  | Ok _ => Ok VUndefined
  | Throw e => Throw e
  | Diverge => Diverge
  end.

(** ** Further examples *)
Module Cases.

(** The example heap with a stack of three pages behind it (22, 23, 24), a
    realtime-log manager (25) with its [error] (26), an error object (27), a
    context (28) whose [getSystemInfoSync] (29) and [onAppHide] (30) are
    host functions, the options of a back navigation (31), a context
    whose [onAppShow] is a string (32) and a short response (33). *)
Definition heap1 : list object :=
  (Demo.heap0
   ++ [ Demo.plain [("route", VString "pages/index")];
        Demo.plain [("route", VString "pages/list")];
        Demo.plain [("route", VString "pages/detail")];
        Demo.plain [("error", VRef 26)];
        Demo.host_function "manager.error";
        Object [] None true KError;
        Demo.plain [("getSystemInfoSync", VRef 29); ("onAppHide", VRef 30);
                    ("version", VString "8.0")];
        Demo.host_function "getSystemInfoSync";
        Demo.host_function "onAppHide";
        Demo.plain [("delta", VNumber 1)];
        Demo.plain [("onAppShow", VString "soon")];
        Demo.plain [("statusCode", VNumber 404); ("data", VString "not found");
                    ("header", VRef 12)] ])%list.

Definition st1 : state := State heap1 [] [].

(** The same heap with the options of a status query sent to the store
    endpoint (34): a GET without body. *)
Definition heap2 : list object :=
  (heap1 ++ [ Demo.plain [("url", VString Demo.endpoint); ("method", VString "get")] ])%list.

Definition st2 : state := State heap2 [] [].

(** A host whose page stack holds the three pages and whose context is the
    object at 28; [getSystemInfoSync] answers with the first page object. *)
Definition host_with_pages : Host := {|
  object_reflect := true;
  object_prototype := object_prototype Demo.host;
  object_toString := object_toString Demo.host;
  string_to_number := string_to_number Demo.host;
  native := fun name _ _ =>
    if String.eqb name "getSystemInfoSync" then Ok (VRef 22) else Ok VUndefined;
  JSON_parse := JSON_parse Demo.host;
  console := console Demo.host;
  minaContext := VRef 28;
  getCurrentPages := Some (Ok [VRef 22; VRef 23; VRef 24]);
  hub_integration := true;
  client_dsn := client_dsn Demo.host;
  getStoreEndpoint := getStoreEndpoint Demo.host;
  isMatchingPattern := isMatchingPattern Demo.host;
  Severity_fromString := Severity_fromString Demo.host;
  getEventDescription := getEventDescription Demo.host
|}.

(** [new Breadcrumbs({console: ['error']})] *)
Definition this_errors_only : Breadcrumbs := {|
  this_name := "Breadcrumbs";
  this_ctx := VRef 5;
  this_realtimeLogManager := VUndefined;
  this_options :=
    merged_options
      (Build_OptionsArg (Some (OList ["error"])) None None None None None None None)
|}.

(** [new Breadcrumbs({filterApis: ['request']})] *)
Definition this_filtered : Breadcrumbs := {|
  this_name := "Breadcrumbs";
  this_ctx := VRef 5;
  this_realtimeLogManager := VUndefined;
  this_options :=
    merged_options
      (Build_OptionsArg None None None None None None None (Some (OList ["request"])))
|}.

(** [new Breadcrumbs()] where the context handed out the realtime-log manager
    at 25. *)
Definition this_mirror : Breadcrumbs := {|
  this_name := "Breadcrumbs";
  this_ctx := VRef 5;
  this_realtimeLogManager := VRef 25;
  this_options := merged_options no_options
|}.

End Cases.

(** * Proofs *)

(** ** The monad *)

Lemma bind_ok {A B} (m : M A) (k : A -> M B) st a st' :
  m st = (Ok a, st') -> bind m k st = k a st'.
Proof. intros H. unfold bind. by rewrite H. Qed.

Lemma bind_throw {A B} (m : M A) (k : A -> M B) st e st' :
  m st = (Throw e, st') -> bind m k st = (Throw e, st').
Proof. intros H. unfold bind. by rewrite H. Qed.

(** ** Lists used as heaps, association lists *)

Lemma lookup_snoc_new {A} (h : list A) (x : A) : (h ++ [x])%list !! length h = Some x.
Proof. by rewrite list_lookup_middle. Qed.

Lemma lookup_snoc_old {A} (h : list A) (x : A) (l : nat) (y : A) :
  h !! l = Some y -> (h ++ [x])%list !! l = Some y.
Proof. intros H. by rewrite lookup_app_l_Some with (x := y). Qed.

Lemma insert_snoc_new {A} (h : list A) (x y : A) :
  <[length h := y]> (h ++ [x])%list = (h ++ [y])%list.
Proof. rewrite insert_app_r_alt by lia. by rewrite Nat.sub_diag. Qed.

Lemma insert_snoc_old {A} (h : list A) (x y z : A) (l : nat) :
  h !! l = Some z -> <[l := y]> (h ++ [x])%list = (<[l := y]> h ++ [x])%list.
Proof. intros H. apply insert_app_l. by eapply lookup_lt_Some. Qed.

Lemma assoc_set_eq {A} (k : string) (a : A) (l : list (string * A)) :
  assoc k (assoc_set k a l) = Some a.
Proof.
  induction l as [|[k' a'] l IH]; simpl.
  - by rewrite String.eqb_refl.
  - destruct (String.eqb k k') eqn:E; simpl.
    + by rewrite String.eqb_refl.
    + by rewrite E.
Qed.

Lemma assoc_set_ne {A} (k k' : string) (a : A) (l : list (string * A)) :
  k <> k' -> assoc k' (assoc_set k a l) = assoc k' l.
Proof.
  intros Hne. induction l as [|[k0 a0] l IH]; simpl.
  - destruct (String.eqb_spec k' k); congruence.
  - destruct (String.eqb_spec k k0) as [->|Hk]; simpl.
    + destruct (String.eqb_spec k' k0); congruence.
    + destruct (String.eqb_spec k' k0); congruence.
Qed.

#[global] Arguments get : simpl never.
#[global] Arguments set : simpl never.
#[global] Arguments has_property : simpl never.
#[global] Arguments getOwnPropertyDescriptor : simpl never.
#[global] Arguments defineProperties : simpl never.
#[global] Arguments closure : simpl never.
#[global] Arguments alloc : simpl never.
#[global] Arguments logger_warn : simpl never.
#[global] Arguments logger_error : simpl never.
#[global] Arguments emit : simpl never.
#[global] Arguments bind : simpl never.
#[global] Arguments find_property : simpl never.

Lemma chain_property_own fuel h l name o p :
  h !! l = Some o -> assoc name (o_props o) = Some p ->
  chain_property (S fuel) h l name = Some p.
Proof. intros Hl Hp. simpl. by rewrite Hl, Hp. Qed.

Lemma find_property_own h l name p :
  own_property h l name = Some p -> find_property h l name = Some p.
Proof.
  unfold own_property, find_property. destruct (h !! l) as [o|] eqn:Hl; [|done].
  intros Hp. destruct h as [|o0 h]; [done|].
  by apply chain_property_own with (o := o).
Qed.

Lemma find_property_fresh h l name o :
  h !! l = Some o -> assoc name (o_props o) = None -> o_proto o = None ->
  find_property h l name = None.
Proof.
  intros Hl Hp Hproto. unfold find_property.
  destruct (length h); simpl; [done|]. by rewrite Hl, Hp, Hproto.
Qed.

Lemma is_Some_true {A} (x : A) : bool_decide (is_Some (Some x)) = true.
Proof. by apply bool_decide_eq_true_2. Qed.

Lemma is_Some_false {A} : bool_decide (is_Some (@None A)) = false.
Proof. apply bool_decide_eq_false_2. by intros [? ?]. Qed.

Lemma get_mark_run h fs tr v :
  is_function h v = true ->
  exists m, get v "__sentry__" (State h fs tr) = (Ok m, State h fs tr)
            /\ truthy m = is_marked h v.
Proof.
  intros Hf. destruct v; try done. unfold get, gets, is_marked, field. simpl.
  eexists. split; [reflexivity|]. by destruct (find_property h l "__sentry__").
Qed.

Lemma set_new_run h fs tr l o name x :
  h !! l = Some o -> assoc name (o_props o) = None ->
  find_property h l name = None -> o_extensible o = true ->
  set (VRef l) name x (State h fs tr)
  = (Ok tt, State (<[l := with_props o (assoc_set name (data_property x) (o_props o))]> h)
              fs tr).
Proof.
  intros Hl Hp Hfind Hext. unfold set, bind, gets. simpl.
  by rewrite Hl, Hp, Hfind, Hext.
Qed.

(** An assignment of a new property to the object allocated last. *)
Lemma set_last_run h fs tr o name x :
  assoc name (o_props o) = None -> o_proto o = None -> o_extensible o = true ->
  set (VRef (length h)) name x (State (h ++ [o]) fs tr)
  = (Ok tt, State (h ++ [with_props o (assoc_set name (data_property x) (o_props o))])
              fs tr).
Proof.
  intros Hp Hproto Hext.
  erewrite set_new_run; [|apply lookup_snoc_new|done| |done].
  - by rewrite insert_snoc_new.
  - eapply find_property_fresh; [apply lookup_snoc_new|done|done].
Qed.

Lemma has_property_run h fs tr l name :
  has_property (VRef l) name (State h fs tr)
  = (Ok (bool_decide (is_Some (find_property h l name))), State h fs tr).
Proof. reflexivity. Qed.

Lemma get_ref_run h fs tr l name :
  get (VRef l) name (State h fs tr)
  = (Ok (field h l name), State h fs tr).
Proof. reflexivity. Qed.

Lemma getOwnPropertyDescriptor_run h fs tr l name :
  getOwnPropertyDescriptor (VRef l) name (State h fs tr)
  = (Ok (own_property h l name), State h fs tr).
Proof. reflexivity. Qed.

Lemma defineProperties_run h fs tr l o name p x :
  h !! l = Some o -> assoc name (o_props o) = Some p ->
  p_configurable p || p_writable p = true ->
  defineProperties (VRef l) name x (State h fs tr)
  = (Ok tt,
     State (<[l := with_props o
                      (assoc_set name
                         (Property x (p_writable p) (p_enumerable p) (p_configurable p))
                         (o_props o))]> h) fs tr).
Proof.
  intros Hl Hp Hc. unfold defineProperties, bind, gets. simpl.
  by rewrite Hl, Hp, Hc.
Qed.

Lemma closure_run h fs tr c :
  closure c (State h fs tr)
  = (Ok (VRef (length h)), State (h ++ [Object [] None true (KFunction c)]) fs tr).
Proof. reflexivity. Qed.

Lemma fill_first_run host l name mk h fs tr o p :
  object_reflect host = true ->
  h !! l = Some o ->
  assoc name (o_props o) = Some p ->
  p_configurable p = true ->
  is_function h (p_value p) = true ->
  is_marked h (p_value p) = false ->
  fill host (VRef l) name (replacement mk) (State h fs tr)
  = (Ok tt,
     State (<[l := with_props o
                      (assoc_set name
                         (Property (VRef (length h)) (p_writable p) (p_enumerable p)
                            (p_configurable p)) (o_props o))]> h
            ++ [marked_wrapper mk (p_value p) (length h)]) fs tr).
Proof.
  intros Hreflect Hl Hp Hconf Hfun Hmark.
  assert (Hown : own_property h l name = Some p).
  { unfold own_property. by rewrite Hl. }
  assert (Hfind : find_property h l name = Some p) by by apply find_property_own.
  destruct (get_mark_run h fs tr (p_value p) Hfun) as (m & Hget & Hm).
  unfold fill, try_catch, install.
  erewrite bind_ok by apply has_property_run. rewrite Hfind, is_Some_true. simpl.
  erewrite bind_ok.
  2:{ erewrite bind_ok by apply get_ref_run. unfold field. rewrite Hfind.
      erewrite bind_ok by apply Hget. reflexivity. }
  rewrite Hm, Hmark.
  erewrite bind_ok by apply get_ref_run. unfold field. rewrite Hfind.
  erewrite bind_ok by apply closure_run.
  erewrite bind_ok by (by apply set_last_run).
  erewrite bind_ok by (by apply set_last_run).
  erewrite bind_ok by (by apply set_last_run).
  rewrite Hreflect.
  erewrite bind_ok by apply getOwnPropertyDescriptor_run.
  unfold own_property. erewrite lookup_snoc_old by done. rewrite Hp, Hconf. cbn [negb].
  erewrite defineProperties_run; [|by apply lookup_snoc_old|done|by rewrite Hconf].
  erewrite insert_snoc_old by done. by rewrite Hconf.
Qed.

Lemma find_property_Some_lookup h l name p :
  find_property h l name = Some p -> is_Some (h !! l).
Proof.
  unfold find_property. destruct (length h); simpl; [done|].
  destruct (h !! l); [eauto|done].
Qed.

(** Reading the marker of a value that is neither [undefined] nor [null]. *)
Lemma get_mark_run' h fs tr v :
  v <> VUndefined -> v <> VNull ->
  exists m, get v "__sentry__" (State h fs tr) = (Ok m, State h fs tr)
            /\ truthy m = is_marked h v.
Proof.
  intros Hu Hn. destruct v; try done; unfold get, gets, is_marked, field; simpl;
    try (eexists; split; [reflexivity|done]).
  eexists. split; [reflexivity|]. by destruct (find_property h l "__sentry__").
Qed.

(** A property whose value carries the marker: nothing to install. *)
Lemma install_marked host l name repl st p :
  find_property (heap st) l name = Some p ->
  is_marked (heap st) (p_value p) = true ->
  install host (VRef l) name repl st = (Ok tt, st).
Proof.
  destruct st as [h fs tr]. simpl. intros Hfind Hmark.
  assert (Hu : p_value p <> VUndefined) by (intros E; by rewrite E in Hmark).
  assert (Hn : p_value p <> VNull) by (intros E; by rewrite E in Hmark).
  destruct (get_mark_run' h fs tr (p_value p) Hu Hn) as (m & Hget & Hm).
  unfold install.
  erewrite bind_ok by apply has_property_run. rewrite Hfind, is_Some_true. simpl.
  erewrite bind_ok.
  2:{ erewrite bind_ok by apply get_ref_run. unfold field. rewrite Hfind.
      erewrite bind_ok by apply Hget. reflexivity. }
  by rewrite Hm, Hmark.
Qed.

Lemma fill_marked_noop host l name repl st p :
  find_property (heap st) l name = Some p ->
  is_marked (heap st) (p_value p) = true ->
  fill host (VRef l) name repl st = (Ok tt, st).
Proof.
  intros Hfind Hmark. unfold fill, try_catch.
  by rewrite (install_marked host l name repl st p Hfind Hmark).
Qed.

(** A property that is absent: nothing to install, and nothing is logged. *)
Lemma install_absent host l name repl st :
  find_property (heap st) l name = None ->
  install host (VRef l) name repl st = (Ok tt, st).
Proof.
  destruct st as [h fs tr]. simpl. intros Hfind. unfold install.
  erewrite bind_ok by apply has_property_run. rewrite Hfind, is_Some_false.
  reflexivity.
Qed.

Lemma fill_absent_noop host l name repl st :
  find_property (heap st) l name = None ->
  fill host (VRef l) name repl st = (Ok tt, st).
Proof.
  intros Hfind. unfold fill, try_catch.
  by rewrite (install_absent host l name repl st Hfind).
Qed.

(** Up to the installation itself: the wrapper is created and marked. *)
Lemma install_prefix host l name mk h fs tr p :
  find_property h l name = Some p ->
  p_value p <> VUndefined -> p_value p <> VNull ->
  is_marked h (p_value p) = false ->
  install host (VRef l) name (replacement mk) (State h fs tr)
  = (if object_reflect host
     then
       desp <- getOwnPropertyDescriptor (VRef l) name ;;
       match desp with
       | None => throw TypeError
       | Some d =>
           if negb (p_configurable d) then throw (Error "unable to config")
           else defineProperties (VRef l) name (VRef (length h))
       end
     else set (VRef l) name (VRef (length h)))
      (State (h ++ [marked_wrapper mk (p_value p) (length h)]) fs tr).
Proof.
  intros Hfind Hu Hn Hmark.
  destruct (get_mark_run' h fs tr (p_value p) Hu Hn) as (m & Hget & Hm).
  unfold install.
  erewrite bind_ok by apply has_property_run. rewrite Hfind, is_Some_true. simpl.
  erewrite bind_ok.
  2:{ erewrite bind_ok by apply get_ref_run. unfold field. rewrite Hfind.
      erewrite bind_ok by apply Hget. reflexivity. }
  rewrite Hm, Hmark.
  erewrite bind_ok by apply get_ref_run. unfold field. rewrite Hfind.
  erewrite bind_ok by apply closure_run.
  erewrite bind_ok by (by apply set_last_run).
  erewrite bind_ok by (by apply set_last_run).
  erewrite bind_ok by (by apply set_last_run).
  reflexivity.
Qed.

(** However [install] ends, it ends: with nothing thrown, or with an exception
    and a heap that has at most grown. *)
Lemma install_outcome host source name mk st :
  (exists st', install host source name (replacement mk) st = (Ok tt, st'))
  \/ (exists e extra,
        install host source name (replacement mk) st
        = (Throw e, State (heap st ++ extra) (fetches st) (trace st))).
Proof.
  destruct st as [h fs tr]. simpl.
  assert (Hnil : State (h ++ []) fs tr = State h fs tr) by by rewrite app_nil_r.
  destruct source as [| | | | | |l];
    try (right; exists TypeError, []; rewrite Hnil; reflexivity).
  destruct (find_property h l name) as [p|] eqn:Hfind.
  2:{ left. eexists. by apply install_absent. }
  destruct (decide (p_value p = VUndefined)) as [Hu|Hu].
  { right. exists TypeError, []. rewrite Hnil. unfold install.
    erewrite bind_ok by apply has_property_run. rewrite Hfind, is_Some_true. simpl.
    erewrite bind_throw; [done|].
    erewrite bind_ok by apply get_ref_run. unfold field. rewrite Hfind, Hu. reflexivity. }
  destruct (decide (p_value p = VNull)) as [Hn|Hn].
  { right. exists TypeError, []. rewrite Hnil. unfold install.
    erewrite bind_ok by apply has_property_run. rewrite Hfind, is_Some_true. simpl.
    erewrite bind_throw; [done|].
    erewrite bind_ok by apply get_ref_run. unfold field. rewrite Hfind, Hn. reflexivity. }
  destruct (is_marked h (p_value p)) eqn:Hmark.
  { left. eexists. by eapply install_marked. }
  rewrite (install_prefix host l name mk h fs tr p Hfind Hu Hn Hmark).
  destruct (find_property_Some_lookup _ _ _ _ Hfind) as [o Hl].
  set (w := marked_wrapper mk (p_value p) (length h)).
  destruct (object_reflect host).
  - erewrite bind_ok by apply getOwnPropertyDescriptor_run.
    unfold own_property. erewrite lookup_snoc_old by done.
    destruct (assoc name (o_props o)) as [d|] eqn:Hd.
    + destruct (p_configurable d) eqn:Hc; cbn [negb].
      * left. eexists.
        erewrite defineProperties_run; [done|by apply lookup_snoc_old|done|by rewrite Hc].
      * right. by exists (Error "unable to config"), [w].
    + right. by exists TypeError, [w].
  - unfold set, bind, gets. simpl. erewrite lookup_snoc_old by done.
    destruct (assoc name (o_props o)) as [d|] eqn:Hd.
    + destruct (p_writable d).
      * left. by eexists.
      * right. by exists TypeError, [w].
    + match goal with |- context [if ?b then _ else _] => destruct b end.
      * right. by exists TypeError, [w].
      * left. by eexists.
Qed.

Lemma is_function_not_nullish h v :
  is_function h v = true -> v <> VUndefined /\ v <> VNull.
Proof. by destruct v. Qed.

(** C1, amended.  For a target object and an own, configurable property whose
    value is a function that does not carry the marker yet, on an engine that
    has [Object.defineProperties] and [Object.getOwnPropertyDescriptor], two
    calls of [fill] install exactly one wrapper: after the first the property
    holds a fresh wrapper marked [__sentry__] whose [__sentry_original__] is
    the original function, and the second call leaves the state, and with it
    the identity of the wrapper, as it is. *)
Theorem fill_installs_one_wrapper host l name mk st p :
  object_reflect host = true ->
  own_property (heap st) l name = Some p ->
  p_configurable p = true ->
  is_function (heap st) (p_value p) = true ->
  is_marked (heap st) (p_value p) = false ->
  installs_one_wrapper host l name mk st.
Proof.
  destruct st as [h fs tr]. simpl. intros Hreflect Hown Hconf Hfun Hmark.
  pose proof Hown as Hown'. unfold own_property in Hown'.
  destruct (h !! l) as [o|] eqn:Hl; [|done].
  unfold installs_one_wrapper.
  rewrite (fill_first_run host l name mk h fs tr o p) by done. simpl.
  set (o' := with_props o _). set (w := marked_wrapper mk (p_value p) (length h)).
  assert (Hl' : (<[l:=o']> h ++ [w])%list !! l = Some o').
  { apply lookup_snoc_old, list_lookup_insert_eq. by eapply lookup_lt_Some. }
  assert (Hw : (<[l:=o']> h ++ [w])%list !! length h = Some w).
  { pose proof (lookup_snoc_new (<[l:=o']> h) w) as H. by rewrite length_insert in H. }
  assert (Hown1 : own_property (<[l:=o']> h ++ [w]) l name
                  = Some (Property (VRef (length h)) (p_writable p) (p_enumerable p)
                            (p_configurable p))).
  { unfold own_property. rewrite Hl'. apply assoc_set_eq. }
  assert (Hmarked : own_property (<[l:=o']> h ++ [w]) (length h) "__sentry__"
                    = Some (data_property (VBool true))).
  { unfold own_property. by rewrite Hw. }
  rewrite (fill_marked_noop host l name (replacement mk)
             (State (<[l:=o']> h ++ [w]) fs tr) _ (find_property_own _ _ _ _ Hown1)).
  2:{ simpl. by rewrite (find_property_own _ _ _ _ Hmarked). }
  exists p, (length h). simpl. repeat split.
  - by apply find_property_own.
  - unfold own_value. by rewrite Hown1.
  - unfold code_at. by rewrite Hw.
  - unfold own_value. by rewrite Hmarked.
  - unfold own_value, own_property. by rewrite Hw.
  - rewrite length_app, length_insert. simpl. lia.
Qed.

Lemma fill_installs_one_wrapper_witness :
  object_reflect Demo.host = true
  /\ own_property (heap Demo.st0) 0 "log" = Some (data_property (VRef 1))
  /\ installs_one_wrapper Demo.host 0 "log" (Demo.console_code "log") Demo.st0.
Proof.
  split; [reflexivity|]. split; [reflexivity|].
  apply (fill_installs_one_wrapper Demo.host 0 "log" (Demo.console_code "log") Demo.st0
           (data_property (VRef 1))); reflexivity.
Defined.

(** C1 as it is stated, for every property whose value is a function, fails:
    [console.debug] of the example holds a function but is not configurable;
    after [fill] the property still holds the host function, which is no
    wrapper. *)
Lemma fill_nonconfigurable_installs_nothing :
  (exists p, find_property (heap Demo.st0) 0 "debug" = Some p
             /\ is_function (heap Demo.st0) (p_value p) = true)
  /\ ~ installs_one_wrapper Demo.host 0 "debug" (Demo.console_code "debug") Demo.st0.
Proof.
  split.
  - eexists. split; reflexivity.
  - intros (p & w & Hfind & Hvalue & Hcode & _).
    vm_compute in Hfind. injection Hfind as <-.
    vm_compute in Hvalue. injection Hvalue as <-.
    vm_compute in Hcode. discriminate Hcode.
Qed.

Lemma chain_property_mono n m h extra l name p :
  chain_property n h l name = Some p ->
  chain_property (n + m) (h ++ extra) l name = Some p.
Proof.
  revert l. induction n as [|n IH]; intros l; simpl; [done|].
  destruct (h !! l) as [o|] eqn:Hl; [|done].
  erewrite lookup_app_l_Some by done.
  destruct (assoc name (o_props o)); [done|].
  destruct (o_proto o); [apply IH|done].
Qed.

(** What the lookup found keeps being found when the heap grows. *)
Lemma find_property_extend h extra l name p :
  find_property h l name = Some p -> find_property (h ++ extra) l name = Some p.
Proof.
  unfold find_property. rewrite length_app. apply chain_property_mono.
Qed.

(** The branch of [fill] for an engine without the two reflection functions:
    the assignment [source[name] = wrapped]. *)
Lemma fill_assign_run host l name mk st o p :
  object_reflect host = false ->
  heap st !! l = Some o ->
  find_property (heap st) l name = Some p ->
  p_writable p = true ->
  (assoc name (o_props o) = None -> o_extensible o = true) ->
  is_function (heap st) (p_value p) = true ->
  is_marked (heap st) (p_value p) = false ->
  patches host l name mk st (p_value p).
Proof.
  destruct st as [h fs tr]. unfold patches. cbn [heap fetches trace].
  intros Hreflect Hl Hfind Hw Hext Hfun Hmark.
  destruct (is_function_not_nullish _ _ Hfun) as [Hu Hn].
  set (w := marked_wrapper mk (p_value p) (length h)).
  assert (Hset : exists prop,
            p_value prop = VRef (length h)
            /\ set (VRef l) name (VRef (length h)) (State (h ++ [w]) fs tr)
               = (Ok tt,
                  State (<[l := with_props o (assoc_set name prop (o_props o))]> h ++ [w])
                    fs tr)).
  { unfold set, bind, gets. cbn [heap]. erewrite lookup_snoc_old by done.
    destruct (assoc name (o_props o)) as [d|] eqn:Hd.
    - assert (d = p) as ->.
      { assert (Hown : find_property h l name = Some d).
        { apply find_property_own. unfold own_property. by rewrite Hl. }
        congruence. }
      rewrite Hw. eexists. split; [|unfold update_object, modify, set_heap;
                                    cbn [heap fetches trace];
                                    by erewrite insert_snoc_old by done].
      reflexivity.
    - rewrite (find_property_extend h [w] l name p Hfind), Hw, (Hext eq_refl).
      cbn [negb orb]. eexists. split; [|unfold update_object, modify, set_heap;
                                        cbn [heap fetches trace];
                                        by erewrite insert_snoc_old by done].
      reflexivity. }
  destruct Hset as (prop & Hprop & Hset).
  assert (Hrun : fill host (VRef l) name (replacement mk) (State h fs tr)
                 = (Ok tt,
                    State (<[l := with_props o (assoc_set name prop (o_props o))]> h ++ [w])
                      fs tr)).
  { unfold fill, try_catch.
    rewrite (install_prefix host l name mk h fs tr p Hfind Hu Hn Hmark), Hreflect.
    cbv iota. fold w. by rewrite Hset. }
  rewrite Hrun. cbn [fst snd heap fetches trace].
  assert (Hwl : (<[l := with_props o (assoc_set name prop (o_props o))]> h ++ [w])%list
                !! length h = Some w).
  { pose proof (lookup_snoc_new (<[l := with_props o (assoc_set name prop (o_props o))]> h) w)
      as H. by rewrite length_insert in H. }
  split; [done|]. split; [done|]. split.
  - unfold own_value, own_property.
    erewrite lookup_snoc_old
      by (apply list_lookup_insert_eq; by eapply lookup_lt_Some).
    cbn [o_props with_props]. by rewrite assoc_set_eq, <- Hprop.
  - unfold code_at. by rewrite Hwl.
Qed.

(** C3, amended.  [fill] never throws to its caller.  When the named property
    is absent it returns at once, without a warning and without a change.
    On an engine that has [Object.defineProperties] and
    [Object.getOwnPropertyDescriptor], when the own descriptor is not
    configurable (and the value not marked yet), it returns normally, logs
    the warning and leaves every object that existed as it was.  On an engine
    without them it assigns instead, whatever the configurable attribute: an
    own property that holds an unmarked function is replaced by the wrapper,
    with nothing logged, when it is writable, and is left as it was, with
    the warning, when it is not.  Whenever the [try] block throws, [fill]
    returns normally, logs the warning and leaves every object that existed
    as it was: the property keeps its value and no other member is touched. *)
Theorem fill_fails_soft host source name mk st :
  (fill host source name (replacement mk) st).1 = Ok tt
  /\ (forall l, source = VRef l -> find_property (heap st) l name = None ->
        fill host source name (replacement mk) st = (Ok tt, st))
  /\ (forall l p, object_reflect host = true -> source = VRef l ->
        own_property (heap st) l name = Some p -> p_configurable p = false ->
        is_marked (heap st) (p_value p) = false ->
        fails_soft host source name mk st)
  /\ (forall l p, object_reflect host = false -> source = VRef l ->
        own_property (heap st) l name = Some p ->
        is_function (heap st) (p_value p) = true ->
        is_marked (heap st) (p_value p) = false ->
        if p_writable p then patches host l name mk st (p_value p)
        else fails_soft host source name mk st)
  /\ (forall e st', install host source name (replacement mk) st = (Throw e, st') ->
        fails_soft host source name mk st).
Proof.
  assert (Hthrow : forall e st',
            install host source name (replacement mk) st = (Throw e, st') ->
            fails_soft host source name mk st).
  { intros e st' Hrun. unfold fails_soft, fill, try_catch. rewrite Hrun.
    destruct (install_outcome host source name mk st) as [[st1 H1]|(e1 & extra & H1)];
      rewrite H1 in Hrun; [done|].
    injection Hrun as _ <-. simpl. eauto. }
  split; [|split; [|split; [|split]]]; [| | | |exact Hthrow].
  - unfold fill, try_catch.
    destruct (install_outcome host source name mk st) as [[st1 H1]|(e1 & extra & H1)];
      by rewrite H1.
  - intros l -> Hfind. by apply fill_absent_noop.
  - intros l p Hreflect -> Hown Hconf Hmark.
    destruct st as [h fs tr]. simpl in *.
    pose proof (find_property_own _ _ _ _ Hown) as Hfind.
    destruct (decide (p_value p = VUndefined)) as [Hu|Hu];
      [|destruct (decide (p_value p = VNull)) as [Hn|Hn]].
    + apply (Hthrow TypeError (State h fs tr)). unfold install.
      erewrite bind_ok by apply has_property_run. rewrite Hfind, is_Some_true. simpl.
      erewrite bind_throw; [done|].
      erewrite bind_ok by apply get_ref_run. unfold field. rewrite Hfind, Hu. reflexivity.
    + apply (Hthrow TypeError (State h fs tr)). unfold install.
      erewrite bind_ok by apply has_property_run. rewrite Hfind, is_Some_true. simpl.
      erewrite bind_throw; [done|].
      erewrite bind_ok by apply get_ref_run. unfold field. rewrite Hfind, Hn. reflexivity.
    + eapply (Hthrow (Error "unable to config")).
      rewrite (install_prefix host l name mk h fs tr p Hfind Hu Hn Hmark), Hreflect.
      erewrite bind_ok by apply getOwnPropertyDescriptor_run.
      unfold own_property in *. destruct (h !! l) as [o|] eqn:Hl; [|done].
      erewrite lookup_snoc_old by done. rewrite Hown, Hconf. reflexivity.
  - intros l p Hreflect -> Hown Hfun Hmark.
    pose proof (find_property_own _ _ _ _ Hown) as Hfind.
    pose proof Hown as Hown'. unfold own_property in Hown'.
    destruct (heap st !! l) as [o|] eqn:Hl; [|done].
    destruct (p_writable p) eqn:Hw.
    + apply (fill_assign_run host l name mk st o p); try done.
      intros Hnone. by rewrite Hnone in Hown'.
    + destruct st as [h fs tr]. cbn [heap] in *.
      destruct (is_function_not_nullish _ _ Hfun) as [Hu Hn].
      eapply (Hthrow TypeError).
      rewrite (install_prefix host l name mk h fs tr p Hfind Hu Hn Hmark), Hreflect.
      unfold set, bind, gets. cbn [heap]. erewrite lookup_snoc_old by done.
      rewrite Hown', Hw. reflexivity.
Qed.

Lemma fill_fails_soft_witness :
  own_property (heap Demo.st0) 0 "debug" = Some (Property (VRef 3) true true false)
  /\ fails_soft Demo.host (VRef 0) "debug" (Demo.console_code "debug") Demo.st0
  /\ patches Demo.host_without_reflection 0 "debug" (Demo.console_code "debug") Demo.st0
       (VRef 3).
Proof.
  split; [reflexivity|]. split.
  - apply (proj1 (proj2 (proj2 (fill_fails_soft Demo.host (VRef 0) "debug"
                                  (Demo.console_code "debug") Demo.st0)))
             0 (Property (VRef 3) true true false)); reflexivity.
  - apply (proj1 (proj2 (proj2 (proj2 (fill_fails_soft Demo.host_without_reflection (VRef 0)
                                         "debug" (Demo.console_code "debug") Demo.st0))))
             0 (Property (VRef 3) true true false)); reflexivity.
Defined.

(** C3 as it is stated fails for an absent property: [console.info] does not
    exist in the example, and [fill] returns without logging the warning. *)
Lemma fill_absent_logs_nothing :
  find_property (heap Demo.st0) 0 "info" = None
  /\ ~ fails_soft Demo.host (VRef 0) "info" (Demo.console_code "info") Demo.st0.
Proof.
  split; [reflexivity|].
  intros (_ & Htrace & _). vm_compute in Htrace. discriminate Htrace.
Qed.

(** C10, amended.  On an engine that has [Object.getOwnPropertyDescriptor]
    and [Object.defineProperties], when the property is found on the
    prototype chain only (the [in] test succeeds, the target has no own
    descriptor for the name) and holds a function, [fill] installs nothing:
    it returns normally, every object that existed is unchanged and the
    target still has no own property of that name.  When the inherited
    function does not carry the marker yet, the exception raised by reading
    [configurable] on [undefined] is caught and the warning is logged; when
    it carries the marker, [fill] returns before that and logs nothing. *)
Theorem fill_skips_inherited host l name mk st p :
  object_reflect host = true ->
  own_property (heap st) l name = None ->
  find_property (heap st) l name = Some p ->
  is_function (heap st) (p_value p) = true ->
  exists extra,
    fill host (VRef l) name (replacement mk) st
    = (Ok tt,
       State (heap st ++ extra) (fetches st)
         (trace st ++ (if is_marked (heap st) (p_value p) then [] else [fill_warning name])))
    /\ own_property (heap st ++ extra) l name = None
    /\ (heap st ++ extra)%list !! l = heap st !! l.
Proof.
  destruct st as [h fs tr]. simpl. intros Hreflect Hown Hfind Hfun.
  destruct (is_function_not_nullish _ _ Hfun) as [Hu Hn].
  destruct (find_property_Some_lookup _ _ _ _ Hfind) as [o Hl].
  destruct (is_marked h (p_value p)) eqn:Hmark.
  - exists []. rewrite !app_nil_r. split; [|done].
    by apply (fill_marked_noop host l name (replacement mk) (State h fs tr) p).
  - exists [marked_wrapper mk (p_value p) (length h)]. split; [|split].
    + unfold fill, try_catch.
      rewrite (install_prefix host l name mk h fs tr p Hfind Hu Hn Hmark), Hreflect.
      erewrite bind_ok by apply getOwnPropertyDescriptor_run.
      unfold own_property in *. erewrite lookup_snoc_old by done.
      rewrite Hl in Hown. rewrite Hown. reflexivity.
    + unfold own_property in *. erewrite lookup_snoc_old by done. by rewrite Hl in Hown.
    + rewrite Hl. by apply lookup_snoc_old.
Qed.

Lemma fill_skips_inherited_witness :
  own_property (heap Demo.st0) 0 "warn" = None
  /\ find_property (heap Demo.st0) 0 "warn" = Some (data_property (VRef 16))
  /\ exists extra,
       fill Demo.host (VRef 0) "warn" (replacement (Demo.console_code "warn")) Demo.st0
       = (Ok tt,
          State (heap Demo.st0 ++ extra) (fetches Demo.st0)
            (trace Demo.st0
             ++ (if is_marked (heap Demo.st0) (p_value (data_property (VRef 16)))
                 then [] else [fill_warning "warn"])))
       /\ own_property (heap Demo.st0 ++ extra) 0 "warn" = None
       /\ (heap Demo.st0 ++ extra)%list !! 0 = heap Demo.st0 !! 0.
Proof.
  split; [reflexivity|]. split; [reflexivity|].
  apply (fill_skips_inherited Demo.host 0 "warn" (Demo.console_code "warn") Demo.st0
           (data_property (VRef 16))); reflexivity.
Defined.

(** C10 as it is stated fails for an inherited function that carries the
    marker: once the prototype of [console] has had its [warn] wrapped,
    [fill] on [console] itself finds the marker through the chain and
    returns at once; no exception, no warning. *)
Lemma fill_marked_inherited_logs_nothing :
  let st := (fill Demo.host (VRef 4) "warn" (replacement (Demo.console_code "warn"))
               Demo.st0).2 in
  own_property (heap st) 0 "warn" = None
  /\ (exists p, find_property (heap st) 0 "warn" = Some p
                /\ is_function (heap st) (p_value p) = true)
  /\ fill Demo.host (VRef 0) "warn" (replacement (Demo.console_code "warn")) st = (Ok tt, st)
  /\ trace st = [].
Proof.
  split; [reflexivity|]. split; [eexists; split; reflexivity|]. split; reflexivity.
Qed.

(** ** The page-stack queries of env.ts *)

(** C9, amended.  Whenever [getCurrentPages] is not a function of the global
    scope, or throws, [getCurrentPage] and [getPrevPage] return normally with
    the sentinel string "unknow"; the heap is untouched, and the missing
    function is reported by one warning. *)
Theorem page_queries_fail_soft host st delta :
  page_stack_unavailable host ->
  let after :=
    State (heap st) (fetches st)
      (trace st ++ match getCurrentPages host with
                   | None => [EWarn "getCurrentPages is not function in global"]
                   | Some _ => []
                   end) in
  getCurrentPage host st = (Ok (VString "unknow"), after)
  /\ getPrevPage host delta st = (Ok (VString "unknow"), after).
Proof.
  destruct st as [h fs tr]. unfold getCurrentPage, getPrevPage, try_catch.
  intros [Hnone|[e Hthrow]]; simpl.
  - by rewrite Hnone.
  - rewrite Hthrow. simpl. by rewrite app_nil_r.
Qed.

Lemma page_queries_fail_soft_witness :
  page_stack_unavailable Demo.host_throwing_pages
  /\ getCurrentPage Demo.host_throwing_pages Demo.st0 = (Ok (VString "unknow"), Demo.st0)
  /\ getPrevPage Demo.host_throwing_pages (VNumber 2) Demo.st0
     = (Ok (VString "unknow"), Demo.st0).
Proof.
  assert (H : page_stack_unavailable Demo.host_throwing_pages).
  { right. by eexists. }
  split; [exact H|].
  exact (page_queries_fail_soft Demo.host_throwing_pages Demo.st0 (VNumber 2) H).
Defined.

(** C9 as it is stated fails on the spelling of the sentinel: with no
    [getCurrentPages] in the global scope neither query returns "unknown". *)
Lemma getCurrentPage_sentinel_is_not_unknown :
  page_stack_unavailable Demo.host
  /\ (getCurrentPage Demo.host Demo.st0).1 <> Ok (VString "unknown")
  /\ (getPrevPage Demo.host (VNumber 1) Demo.st0).1 <> Ok (VString "unknown").
Proof.
  split; [by left|]. split; vm_compute; discriminate.
Qed.

(** ** Calls *)

Lemma call_run host fuel f c this args st :
  code_at (heap st) f = Some c ->
  call host (S fuel) f this args st = run host (call host fuel) f c this args st.
Proof. intros Hc. simpl. unfold bind at 1, gets at 1. by rewrite Hc. Qed.

Lemma get_run l name st : get (VRef l) name st = (Ok (field (heap st) l name), st).
Proof. reflexivity. Qed.

(** Calling a host function: the call is recorded, the host answers. *)
Lemma call_native host fuel f name this args st :
  code_at (heap st) f = Some (Native name) ->
  call host (S fuel) f this args st
  = (native host name this args,
     State (heap st) (fetches st) (trace st ++ [ECall f this args])).
Proof.
  intros Hc. rewrite (call_run _ _ _ _ _ _ _ Hc). unfold run, bind, emit, modify, lift.
  simpl. by destruct (native host name this args).
Qed.

Lemma code_at_extend h extra v c :
  code_at h v = Some c -> code_at (h ++ extra) v = Some c.
Proof.
  destruct v; try done. simpl. destruct (h !! l) as [o|] eqn:Hl; [|done].
  by erewrite lookup_app_l_Some.
Qed.

(** ** Header filtering *)

Lemma copy_loop_cons o keys k L ps :
  copy_loop o keys (k :: L) ps = copy_loop o keys L (copy_step o keys ps k).
Proof. reflexivity. Qed.

Lemma all_data_set k v ps : all_data ps -> all_data (assoc_set k (data_property v) ps).
Proof.
  intros Hall k' p. destruct (decide (k = k')) as [<-|Hne].
  - rewrite assoc_set_eq. by intros [= <-].
  - rewrite assoc_set_ne by done. apply Hall.
Qed.

(** Assigning to a property of the copy, which sits last on the heap. *)
Lemma set_copy_run h fs tr ps k v :
  all_data ps ->
  set (VRef (length h)) k v (State (h ++ [Object ps None true KPlain]) fs tr)
  = (Ok tt, State (h ++ [Object (assoc_set k (data_property v) ps) None true KPlain]) fs tr).
Proof.
  intros Hall. destruct (assoc k ps) as [p|] eqn:Hk.
  - unfold set, bind, gets. simpl. rewrite lookup_snoc_new. simpl. rewrite Hk.
    rewrite (Hall k p Hk). simpl. unfold update_object, modify, set_heap. simpl.
    by rewrite insert_snoc_new.
  - by rewrite set_last_run.
Qed.

(** [obj.hasOwnProperty(key)] where the lookup finds the built-in: the test
    for an own property, also after the heap has grown. *)
Lemma hasOwnProperty_builtin_run host fuel h extra fs tr l k :
  finds_builtin_hasOwnProperty h l ->
  hasOwnProperty host (call host (S fuel)) (VRef l) k (State (h ++ extra) fs tr)
  = (Ok (bool_decide (is_Some (own_property (h ++ extra) l k))), State (h ++ extra) fs tr).
Proof.
  intros (p & Hfind & Hcode). unfold hasOwnProperty.
  erewrite bind_ok by apply get_run. cbn [heap]. unfold field.
  rewrite (find_property_extend h extra l _ p Hfind).
  erewrite bind_ok.
  2:{ rewrite (call_run host fuel (p_value p) HasOwnProperty)
        by (by apply code_at_extend).
      unfold run. erewrite bind_ok by reflexivity.
      erewrite bind_ok by reflexivity. reflexivity. }
  unfold ret. cbn [truthy heap]. reflexivity.
Qed.

Lemma fillKeys_loop host fuel h fs tr l o keys L ps :
  h !! l = Some o -> finds_builtin_hasOwnProperty h l -> all_data ps ->
  forEach L (fun objKey =>
      own <- hasOwnProperty host (call host (S fuel)) (VRef l) objKey ;;
      if own && negb (bool_decide (objKey ∈ keys))
      then v <- get_member (VRef l) objKey ;; set (VRef (length h)) objKey v
      else ret tt)
    (State (h ++ [Object ps None true KPlain]) fs tr)
  = (Ok tt, State (h ++ [Object (copy_loop o keys L ps) None true KPlain]) fs tr).
Proof.
  intros Hl Hbuiltin. revert ps. induction L as [|k L IH]; intros ps Hall; [done|].
  cbn [forEach]. rewrite copy_loop_cons.
  assert (Hown : own_property (h ++ [Object ps None true KPlain]) l k
                 = assoc k (o_props o)).
  { unfold own_property. by erewrite lookup_snoc_old. }
  erewrite bind_ok; [apply IH|].
  - unfold copy_step. destruct (assoc k (o_props o)); [|done].
    destruct (negb _); [|done]. by apply all_data_set.
  - erewrite bind_ok by by apply hasOwnProperty_builtin_run.
    rewrite Hown. unfold copy_step.
    destruct (assoc k (o_props o)) as [p|] eqn:Hk.
    + rewrite is_Some_true. simpl. destruct (negb (bool_decide (k ∈ keys))); [|done].
      erewrite bind_ok.
      2:{ unfold get_member. rewrite get_ref_run. unfold field.
          erewrite find_property_own; [reflexivity|]. by rewrite Hown. }
      by apply set_copy_run.
    + by rewrite (@is_Some_false property).
Qed.

Lemma assoc_copy_loop o keys L : forall ps k,
  assoc k (copy_loop o keys L ps)
  = match assoc k (o_props o) with
    | Some p =>
        if bool_decide (k ∈ L) && negb (bool_decide (k ∈ keys))
        then Some (data_property (p_value p))
        else assoc k ps
    | None => assoc k ps
    end.
Proof.
  induction L as [|k0 L IH]; intros ps k.
  - simpl. by destruct (assoc k (o_props o)).
  - rewrite copy_loop_cons, IH.
    destruct (assoc k (o_props o)) as [p|] eqn:Hk.
    + destruct (decide (k = k0)) as [<-|Hne].
      * rewrite (bool_decide_eq_true_2 (k ∈ k :: L)) by apply list_elem_of_here.
        unfold copy_step. rewrite Hk. simpl.
        destruct (negb (bool_decide (k ∈ keys))) eqn:Hkeys.
        -- rewrite assoc_set_eq. by rewrite andb_true_r; destruct (bool_decide (k ∈ L)).
        -- by rewrite !andb_false_r.
      * assert (Hin : bool_decide (k ∈ k0 :: L) = bool_decide (k ∈ L)).
        { apply bool_decide_ext. rewrite elem_of_cons. split; [by intros [?|?]|by right]. }
        rewrite Hin. destruct (bool_decide (k ∈ L) && _); [done|].
        unfold copy_step. destruct (assoc k0 (o_props o)); [|done].
        destruct (negb _); [|done]. by rewrite assoc_set_ne.
    + unfold copy_step. destruct (assoc k0 (o_props o)) eqn:Hk0; [|done].
      destruct (negb _); [|done]. rewrite assoc_set_ne; [done|]. congruence.
Qed.

Lemma assoc_Some_elem_of {A} (k : string) (a : A) (l : list (string * A)) :
  assoc k l = Some a -> k ∈ map fst l.
Proof.
  induction l as [|[k' a'] l IH]; simpl; [done|].
  destruct (String.eqb_spec k k') as [->|Hne].
  - intros _. apply list_elem_of_here.
  - intros H. apply list_elem_of_further. by apply IH.
Qed.

Lemma for_in_chain_not_seen fuel h : forall l seen k,
  k ∈ for_in_chain fuel h l seen -> k ∉ seen.
Proof.
  induction fuel as [|fuel IH]; intros l seen k; simpl.
  - by intros ?%elem_of_nil.
  - destruct (h !! l) as [o|]; [|by intros ?%elem_of_nil].
    rewrite elem_of_app. intros [Hk|Hk].
    + apply list_elem_of_filter in Hk as [Hk _]. by apply bool_decide_unpack in Hk.
    + destruct (o_proto o) as [l'|]; [|by apply elem_of_nil in Hk].
      apply IH in Hk. intros Hin. apply Hk. apply elem_of_app. by left.
Qed.

(** Among the own properties, [for .. in] visits exactly the enumerable ones. *)
Lemma for_in_keys_own h l o k p :
  h !! l = Some o -> assoc k (o_props o) = Some p ->
  bool_decide (k ∈ for_in_keys h (VRef l)) = p_enumerable p.
Proof.
  intros Hl Hk. unfold for_in_keys.
  destruct h as [|o0 h']; [done|]. simpl length. simpl for_in_chain. rewrite Hl.
  destruct (p_enumerable p) eqn:He.
  - apply bool_decide_eq_true_2. apply elem_of_app. left.
    apply list_elem_of_filter. split.
    + done.
    + unfold own_enumerable_keys. apply list_elem_of_filter. split.
      * unfold enumerable_key. by rewrite Hk.
      * by eapply assoc_Some_elem_of.
  - apply bool_decide_eq_false_2. rewrite elem_of_app. intros [Hin|Hin].
    + apply list_elem_of_filter in Hin as [_ Hin].
      unfold own_enumerable_keys in Hin. apply list_elem_of_filter in Hin as [Hin _].
      unfold enumerable_key in Hin. rewrite Hk in Hin. congruence.
    + destruct (o_proto o); [|by apply elem_of_nil in Hin].
      apply for_in_chain_not_seen in Hin. apply Hin. simpl.
      by eapply assoc_Some_elem_of.
Qed.

(** C7, amended.  For a header mapping and an exclusion list, [fillKeys]
    returns the mapping itself, not a copy, when the list is empty (which is
    also what an absent list defaults to); when the list is not empty and
    the lookup of [hasOwnProperty] on the mapping finds the built-in, it
    returns a fresh object without prototype whose entries are exactly the
    own enumerable entries of the mapping whose names are not in the list,
    each with its value. *)
Theorem fillKeys_excludes_exactly host fuel l o keys st :
  heap st !! l = Some o ->
  (keys = [] -> fillKeys host (call host fuel) (VRef l) keys st = (Ok (VRef l), st))
  /\ (keys <> [] -> finds_builtin_hasOwnProperty (heap st) l ->
      exists copy,
        fillKeys host (call host (S fuel)) (VRef l) keys st
        = (Ok (VRef (length (heap st))),
           State (heap st ++ [copy]) (fetches st) (trace st))
        /\ o_proto copy = None
        /\ forall k,
             assoc k (o_props copy)
             = if bool_decide (k ∈ keys) then None
               else match assoc k (o_props o) with
                    | Some p =>
                        if p_enumerable p then Some (data_property (p_value p)) else None
                    | None => None
                    end).
Proof.
  destruct st as [h fs tr]. simpl. intros Hl. split.
  - by intros ->.
  - intros Hkeys Hbuiltin. destruct keys as [|k0 keys]; [done|].
    set (h1 := (h ++ [Object [] None true KPlain])%list).
    exists (Object (copy_loop o (k0 :: keys) (for_in_keys h1 (VRef l)) []) None true KPlain).
    split; [|split; [done|]].
    + unfold fillKeys.
      erewrite bind_ok by reflexivity.
      erewrite bind_ok by reflexivity.
      erewrite bind_ok.
      2:{ simpl heap. apply (fillKeys_loop host fuel h fs tr l o (k0 :: keys)); [done|done|].
          by intros k p. }
      reflexivity.
    + intros k. cbn [o_props]. rewrite assoc_copy_loop.
      destruct (assoc k (o_props o)) as [p|] eqn:Hk.
      * rewrite (for_in_keys_own h1 l o k p); [|by apply lookup_snoc_old|done].
        destruct (bool_decide (k ∈ k0 :: keys)); simpl.
        -- by rewrite andb_false_r.
        -- by rewrite andb_true_r.
      * by destruct (bool_decide (k ∈ k0 :: keys)).
Qed.

Lemma fillKeys_excludes_exactly_witness :
  heap Demo.st0 !! 12
  = Some (Demo.plain [("Authorization", VString "x"); ("Content-Type", VString "json")])
  /\ finds_builtin_hasOwnProperty (heap Demo.st0) 12
  /\ fillKeys Demo.host (call Demo.host 1) (VRef 12) [] Demo.st0 = (Ok (VRef 12), Demo.st0)
  /\ exists copy,
       fillKeys Demo.host (call Demo.host 1) (VRef 12) ["Authorization"] Demo.st0
       = (Ok (VRef (length (heap Demo.st0))),
          State (heap Demo.st0 ++ [copy]) (fetches Demo.st0) (trace Demo.st0))
       /\ assoc "Authorization" (o_props copy) = None
       /\ assoc "Content-Type" (o_props copy) = Some (data_property (VString "json")).
Proof.
  assert (Hbuiltin : finds_builtin_hasOwnProperty (heap Demo.st0) 12).
  { eexists. split; reflexivity. }
  pose proof (fillKeys_excludes_exactly Demo.host 0 12
                (Demo.plain [("Authorization", VString "x"); ("Content-Type", VString "json")])
                ["Authorization"] Demo.st0 eq_refl) as [_ Hsome].
  pose proof (fillKeys_excludes_exactly Demo.host 1 12
                (Demo.plain [("Authorization", VString "x"); ("Content-Type", VString "json")])
                [] Demo.st0 eq_refl) as [Hnone _].
  split; [reflexivity|]. split; [exact Hbuiltin|]. split; [by apply Hnone|].
  destruct Hsome as (copy & Hrun & _ & Hprops); [done|exact Hbuiltin|].
  exists copy. split; [exact Hrun|]. split.
  - exact (Hprops "Authorization").
  - exact (Hprops "Content-Type").
Defined.

(** The example of the specification, computed. *)
Example fillKeys_authorization :
  fillKeys Demo.host (call Demo.host 1) (VRef 12) ["Authorization"] Demo.st0
  = (Ok (VRef 22),
     State (heap Demo.st0
            ++ [Object [("Content-Type", data_property (VString "json"))] None true KPlain])
       [] []).
Proof. reflexivity. Qed.

(** C7 as it is stated fails twice.  With an empty exclusion list the result
    is the mapping itself: the same address, and no object is created, so
    there is no copy.  And not every mapping can be filtered: the method is
    looked up on the mapping, so for a mapping without prototype, or with an
    entry of its own named hasOwnProperty, the call throws a [TypeError]. *)
Lemma fillKeys_returns_argument_or_throws :
  fillKeys Demo.host (call Demo.host 1) (VRef 12) [] Demo.st0 = (Ok (VRef 12), Demo.st0)
  /\ heap Demo.st0 !! 19
     = Some (Object [("Content-Type", data_property (VString "json"))] None true KPlain)
  /\ (fillKeys Demo.host (call Demo.host 1) (VRef 19) ["Authorization"] Demo.st0).1
     = Throw TypeError
  /\ heap Demo.st0 !! 20
     = Some (Demo.plain [("hasOwnProperty", VString "x"); ("Authorization", VString "s")])
  /\ (fillKeys Demo.host (call Demo.host 1) (VRef 20) ["Authorization"] Demo.st0).1
     = Throw TypeError.
Proof. repeat split. Qed.

(** ** The console wrapper *)

(** *** [JSON.stringify] always ends *)

(** Distinct addresses of a heap are no more than the heap has objects. *)
Lemma distinct_locations_bound (h : list object) (stack : list nat) :
  NoDup stack -> (forall l, l ∈ stack -> is_Some (h !! l)) -> length stack <= length h.
Proof.
  intros Hnodup Hvalid.
  replace (length h) with (length (seq 0 (length h))) by apply length_seq.
  apply submseteq_length.
  apply NoDup_submseteq; [done|].
  intros l Hl. apply elem_of_seq. apply Hvalid, lookup_lt_is_Some in Hl. lia.
Qed.

Lemma serialize_ends h : forall fuel stack v,
  NoDup stack -> (forall l, l ∈ stack -> is_Some (h !! l)) ->
  length h <= fuel + length stack ->
  serialize fuel h stack v <> Diverge.
Proof.
  induction fuel as [|fuel IH]; intros stack v Hnodup Hvalid Hfuel.
  - destruct v; simpl; try done.
    destruct (h !! l) as [o|] eqn:Hl; [|done].
    destruct (o_kind o); try done;
      case_bool_decide as Hin; try done; exfalso;
      (assert (length (l :: stack) <= length h);
       [apply distinct_locations_bound;
        [by apply NoDup_cons|intros l' [->|?]%elem_of_cons; eauto]
       |simpl in *; lia]).
  - destruct v; simpl; try done.
    destruct (h !! l) as [o|] eqn:Hl; [|done].
    assert (Hmembers : forall ps,
      (fix members (ps : list (string * property)) : result (list string) :=
         match ps with
         | [] => Ok []
         | (k, p) :: rest =>
             if p_enumerable p
             then
               match serialize fuel h (l :: stack) (p_value p) with
               | Ok (Some s) =>
                   match members rest with
                   | Ok ms => Ok ((quote k ++ ":" ++ s) :: ms)
                   | r => r
                   end
               | Ok None => members rest
               | Throw e => Throw e
               | Diverge => Diverge
               end
             else members rest
         end) ps <> Diverge \/ l ∈ stack).
    { destruct (decide (l ∈ stack)) as [Hin|Hin]; [by right|]. left.
      assert (Hsub : forall v', serialize fuel h (l :: stack) v' <> Diverge).
      { intros v'. apply IH.
        - by apply NoDup_cons.
        - intros l' [->|?]%elem_of_cons; eauto.
        - simpl. lia. }
      induction ps as [|[k p] ps IHps]; [done|].
      destruct (p_enumerable p); [|exact IHps].
      specialize (Hsub (p_value p)).
      destruct (serialize fuel h (l :: stack) (p_value p)) as [[s|]| |]; try done.
      match goal with |- context [match ?m with _ => _ end] => destruct m end; done. }
    destruct (o_kind o); try done; case_bool_decide as Hin; try done;
      (destruct (Hmembers (o_props o)) as [Hm|?]; [|done]);
      match goal with |- context [match ?m with _ => _ end] => destruct m end; done.
Qed.

(** [JSON.stringify(args)] returns a string or throws. *)
Lemma JSON_stringify_ends args st : (JSON_stringify args st).1 <> Diverge.
Proof.
  unfold JSON_stringify.
  assert (H : serialize_elements (heap st) args <> Diverge).
  { induction args as [|v args IH]; simpl; [done|].
    pose proof (serialize_ends (heap st) (length (heap st)) [] v (NoDup_nil_2)
                  ltac:(by intros l ?%elem_of_nil) ltac:(lia)) as Hv.
    destruct (serialize (length (heap st)) (heap st) [] v); try done.
    by destruct (serialize_elements (heap st) args). }
  by destruct (serialize_elements (heap st) args).
Qed.

Lemma addBreadcrumb_run host b h st :
  addBreadcrumb host b h st
  = (Ok tt, State (heap st) (fetches st) (trace st ++ emitted host b h)).
Proof.
  destruct st as [hp fs tr]. unfold addBreadcrumb, emitted, bind, emit, modify, when. simpl.
  destruct (hub_integration host); simpl; [|done].
  by rewrite <- app_assoc.
Qed.

Lemma emitted_categories_app tr1 tr2 :
  emitted_categories (tr1 ++ tr2) = (emitted_categories tr1 ++ emitted_categories tr2)%list.
Proof. apply omap_app. Qed.

Lemma emitted_categories_emitted host b h :
  emitted_categories (emitted host b h) = [category b].
Proof. unfold emitted. by destruct (hub_integration host). Qed.

Lemma JSON_stringify_state args st : (JSON_stringify args st).2 = st.
Proof. unfold JSON_stringify. by destruct (serialize_elements (heap st) args). Qed.

Lemma JSON_stringify_ok args st s :
  (JSON_stringify args st).1 = Ok s -> JSON_stringify args st = (Ok s, st).
Proof.
  intros H. rewrite <- (JSON_stringify_state args st) at 2. rewrite <- H.
  by destruct (JSON_stringify args st).
Qed.

(** The breadcrumb statement at a level other than "assert". *)
Lemma console_breadcrumb_plain_run host level cff args st arguments :
  level ∈ cff ->
  level <> "assert" ->
  (JSON_stringify args st).1 = Ok arguments ->
  console_breadcrumb host level cff args st
  = (Ok tt,
     State (heap st) (fetches st)
       (trace st
        ++ emitted host
             (BConsole arguments level (Severity_fromString host level)
                (safeJoin host (heap st) args " "))
             (Some (HConsole args level)))).
Proof.
  intros Hin Hne Hargs. apply JSON_stringify_ok in Hargs. apply String.eqb_neq in Hne.
  unfold console_breadcrumb. rewrite (bool_decide_eq_true_2 _ Hin). unfold when.
  erewrite bind_ok by apply Hargs.
  erewrite bind_ok by reflexivity.
  rewrite Hne.
  erewrite bind_ok by reflexivity.
  apply addBreadcrumb_run.
Qed.

(** The breadcrumb statement at the level "assert", first argument [false]. *)
Lemma console_breadcrumb_assert_run host cff rest st arguments arguments' :
  "assert" ∈ cff ->
  (JSON_stringify (VBool false :: rest) st).1 = Ok arguments ->
  (JSON_stringify rest st).1 = Ok arguments' ->
  console_breadcrumb host "assert" cff (VBool false :: rest) st
  = (Ok tt,
     State (heap st) (fetches st)
       (trace st
        ++ emitted host
             (BConsole arguments' "assert" (Severity_fromString host "assert")
                ("Assertion failed: "
                 ++ (if String.eqb (safeJoin host (heap st) rest " ") ""
                     then "console.assert"
                     else safeJoin host (heap st) rest " ")))
             (Some (HConsole (VBool false :: rest) "assert")))).
Proof.
  intros Hin Hargs Hrest.
  apply JSON_stringify_ok in Hargs. apply JSON_stringify_ok in Hrest.
  unfold console_breadcrumb. rewrite (bool_decide_eq_true_2 _ Hin). unfold when.
  erewrite bind_ok by apply Hargs.
  erewrite bind_ok by reflexivity.
  cbn [String.eqb Ascii.eqb Bool.eqb andb].
  erewrite bind_ok.
  2:{ erewrite bind_ok by reflexivity. erewrite bind_ok by apply Hrest. reflexivity. }
  apply addBreadcrumb_run.
Qed.

(** C5, amended.  For a level among the breadcrumb levels whose argument
    list serializes: at a level other than "assert" the "console" breadcrumb
    carries the space-joined full argument list as message and the
    serialization of all arguments as snapshot; at the level "assert" with a
    first argument that is literally [false] the message is
    "Assertion failed: " followed by the space-joined remaining arguments, or
    by "console.assert" when that is empty, and the snapshot is the
    serialization of the remaining arguments. *)
Theorem console_breadcrumb_message host level cff args st arguments :
  level ∈ cff ->
  (JSON_stringify args st).1 = Ok arguments ->
  (level <> "assert" ->
     console_breadcrumb host level cff args st
     = (Ok tt,
        State (heap st) (fetches st)
          (trace st
           ++ emitted host
                (BConsole arguments level (Severity_fromString host level)
                   (safeJoin host (heap st) args " "))
                (Some (HConsole args level)))))
  /\ (forall rest arguments',
        level = "assert" -> args = VBool false :: rest ->
        (JSON_stringify rest st).1 = Ok arguments' ->
        console_breadcrumb host level cff args st
        = (Ok tt,
           State (heap st) (fetches st)
             (trace st
              ++ emitted host
                   (BConsole arguments' "assert" (Severity_fromString host "assert")
                      ("Assertion failed: "
                       ++ (if String.eqb (safeJoin host (heap st) rest " ") ""
                           then "console.assert"
                           else safeJoin host (heap st) rest " ")))
                   (Some (HConsole args "assert")))))
  /\ (level = "assert" -> args = [VBool false] ->
        console_breadcrumb host level cff args st
        = (Ok tt,
           State (heap st) (fetches st)
             (trace st
              ++ emitted host
                   (BConsole "[]" "assert" (Severity_fromString host "assert")
                      "Assertion failed: console.assert")
                   (Some (HConsole args "assert"))))).
Proof.
  intros Hin Hargs. split; [|split].
  - intros Hne. by apply console_breadcrumb_plain_run.
  - intros rest arguments' -> -> Hrest.
    by apply console_breadcrumb_assert_run with (arguments := arguments).
  - intros -> ->.
    by rewrite (console_breadcrumb_assert_run host cff [] st arguments "[]").
Qed.

Lemma console_breadcrumb_message_witness :
  "error" ∈ watchFunctions
  /\ console_breadcrumb Demo.host "error" watchFunctions
       [VBool false; VString "must hold"] Demo.st0
     = (Ok tt,
        State (heap Demo.st0) (fetches Demo.st0)
          (trace Demo.st0
           ++ emitted Demo.host
                (BConsole ("[false," ++ dquote ++ "must hold" ++ dquote ++ "]") "error"
                   "error" "false must hold")
                (Some (HConsole [VBool false; VString "must hold"] "error"))))
  /\ console_breadcrumb Demo.host "assert" ["assert"]
       [VBool false; VString "must hold"] Demo.st0
     = (Ok tt,
        State (heap Demo.st0) (fetches Demo.st0)
          (trace Demo.st0
           ++ emitted Demo.host
                (BConsole ("[" ++ dquote ++ "must hold" ++ dquote ++ "]") "assert"
                   "log" "Assertion failed: must hold")
                (Some (HConsole [VBool false; VString "must hold"] "assert")))).
Proof.
  assert (Herror : "error" ∈ watchFunctions) by (do 2 apply list_elem_of_further; apply list_elem_of_here).
  assert (Hassert : "assert" ∈ ["assert"]) by apply list_elem_of_here.
  split; [exact Herror|]. split.
  - apply (proj1 (console_breadcrumb_message Demo.host "error" watchFunctions
                    [VBool false; VString "must hold"] Demo.st0
                    ("[false," ++ dquote ++ "must hold" ++ dquote ++ "]")
                    Herror eq_refl)).
    discriminate.
  - apply (proj1 (proj2 (console_breadcrumb_message Demo.host "assert" ["assert"]
                           [VBool false; VString "must hold"] Demo.st0
                           ("[false," ++ dquote ++ "must hold" ++ dquote ++ "]")
                           Hassert eq_refl))
             [VString "must hold"] ("[" ++ dquote ++ "must hold" ++ dquote ++ "]"));
      reflexivity.
Defined.

(** C5 as it is stated fails at its own example: the wrapper installed on
    [console.error], called with [false] and "must hold", reports the message
    "false must hold" and keeps [false] in the snapshot. *)
Lemma console_error_false_is_no_assertion :
  let st := (instrumentConsole Demo.host Demo.this0 Demo.st0).2 in
  let r := call Demo.host 2 (VRef 23) (VRef 0) [VBool false; VString "must hold"] st in
  own_value (heap st) 0 "error" = Some (VRef 23)
  /\ console_messages (trace r.2) = ["false must hold"]
  /\ console_messages (trace r.2) <> ["Assertion failed: must hold"]
  /\ console_snapshots (trace r.2) = ["[false," ++ dquote ++ "must hold" ++ dquote ++ "]"].
Proof. vm_compute. repeat split. discriminate. Qed.

(** The last statement of the wrapper, for an original that is a host
    function: one call with [console] as [this] and the arguments as they
    came; a second, identical one when the first throws. *)
Lemma console_original_native_run host fuel original name args st :
  code_at (heap st) original = Some (Native name) ->
  let called := State (heap st) (fetches st)
                  (trace st ++ [ECall original (VRef (console host)) args]) in
  let again := State (heap st) (fetches st)
                 (trace st ++ [ECall original (VRef (console host)) args;
                               ECall original (VRef (console host)) args]) in
  console_original host (call host (S fuel)) original args st
  = match native host name (VRef (console host)) args with
    | Ok _ => (Ok tt, called)
    | Throw e => (Throw e, again)
    | Diverge => (Diverge, called)
    end.
Proof.
  destruct st as [h fs tr]. simpl. intros Hcode.
  assert (Htruthy : truthy original = true) by by destruct original.
  unfold console_original, when, try_catch. rewrite Htruthy.
  unfold bind at 1. unfold call at 1. unfold bind at 1, gets at 1. simpl. rewrite Hcode.
  unfold run, bind, emit, modify, lift. simpl.
  destruct (native host name (VRef (console host)) args) eqn:Hn; try done.
  unfold gets. simpl. rewrite Hcode. simpl. rewrite Hn. by rewrite <- app_assoc.
Qed.

(** For an argument list that serializes, with no realtime-log mirror in the
    way, the wrapper reaches the original: whatever the breadcrumb and the
    unhandled-error settings, the host function behind it is called with
    [console] as [this] and the arguments as they came, after breadcrumbs and
    captures that call no host function. *)
Lemma console_wrapper_invokes_original host fuel wrapper level original cff rlff capture
    manager this name args st arguments :
  code_at (heap st) wrapper
  = Some (ConsoleWrapper level original cff rlff capture manager) ->
  code_at (heap st) original = Some (Native name) ->
  (JSON_stringify args st).1 = Ok arguments ->
  level <> "assert" ->
  bool_decide (level ∈ rlff) && truthy manager = false ->
  exists pre,
    host_calls pre = []
    /\ call host (S (S fuel)) wrapper this args st
       = (match native host name (VRef (console host)) args with
          | Ok _ => Ok VUndefined
          | Throw e => Throw e
          | Diverge => Diverge
          end,
          State (heap st) (fetches st)
            (trace st ++ pre
             ++ ECall original (VRef (console host)) args
                :: match native host name (VRef (console host)) args with
                   | Throw _ => [ECall original (VRef (console host)) args]
                   | _ => []
                   end)).
Proof.
  intros Hw Ho Hargs Hne Hmirror.
  set (crumb := BConsole arguments level (Severity_fromString host level)
                  (safeJoin host (heap st) args " ")).
  set (pre1 := if bool_decide (level ∈ cff)
               then emitted host crumb (Some (HConsole args level)) else []).
  set (captured := (String.eqb level "warn" || String.eqb level "error")
                   && opt_truthy capture
                   && isWxUnhandledPromiseError (nth 0 args VUndefined)
                   && isError (heap st) (nth 1 args VUndefined)).
  set (pre2 := if captured then [ECapture (nth 1 args VUndefined)] else []).
  exists (pre1 ++ pre2)%list. split.
  { unfold host_calls. rewrite omap_app. unfold pre1, pre2, emitted.
    destruct (bool_decide (level ∈ cff)), (hub_integration host), captured; reflexivity. }
  rewrite (call_run _ _ _ _ _ _ _ Hw). unfold run, console_wrapper.
  erewrite bind_ok.
  2:{ instantiate (1 := State (heap st) (fetches st) (trace st ++ pre1)).
      instantiate (1 := tt). unfold pre1.
      destruct (bool_decide (level ∈ cff)) eqn:Hin.
      - apply bool_decide_eq_true_1 in Hin. by apply console_breadcrumb_plain_run.
      - unfold console_breadcrumb. rewrite Hin. rewrite app_nil_r. by destruct st. }
  erewrite bind_ok.
  2:{ unfold console_realtime_log. rewrite Hmirror. reflexivity. }
  erewrite bind_ok.
  2:{ instantiate (1 := State (heap st) (fetches st) ((trace st ++ pre1) ++ pre2)).
      instantiate (1 := tt). unfold console_capture, pre2, captured.
      destruct ((String.eqb level "warn" || String.eqb level "error") && opt_truthy capture);
        cbn [when andb]; [|by rewrite app_nil_r].
      erewrite bind_ok by reflexivity. cbn [heap].
      destruct (isWxUnhandledPromiseError (nth 0 args VUndefined)
                && isError (heap st) (nth 1 args VUndefined)); [reflexivity|].
      by rewrite app_nil_r. }
  pose proof (console_original_native_run host fuel original name args
                (State (heap st) (fetches st) ((trace st ++ pre1) ++ pre2)) Ho) as Horig.
  cbv zeta in Horig. cbn [heap fetches trace] in Horig.
  unfold bind at 1. rewrite Horig.
  destruct (native host name (VRef (console host)) args);
    rewrite <- ?app_assoc; reflexivity.
Qed.

(** C2, evaluated where the code departs from it.  With the default options
    the wrapper installed on [console.log] hands ["a", "b"] to the host's
    [log] with [console] as [this]; called with a BigInt, or with an object
    that refers to itself, it throws the [TypeError] of [JSON.stringify]
    before any host function has run. *)
Theorem console_wrapper_unserializable_argument :
  let st := (instrumentConsole Demo.host Demo.this0 Demo.st0).2 in
  let log := call Demo.host 2 (VRef 24) (VRef 0) in
  own_value (heap st) 0 "log" = Some (VRef 24)
  /\ code_at (heap st) (VRef 24) = Some (Demo.console_code "log" (VRef 1))
  /\ host_calls (trace st) = []
  /\ (log [VString "a"; VString "b"] st).1 = Ok VUndefined
  /\ host_calls (trace (log [VString "a"; VString "b"] st).2)
     = [(VRef 1, VRef 0, [VString "a"; VString "b"])]
  /\ log [VBigInt 1] st = (Throw TypeError, st)
  /\ log [VRef 14] st = (Throw TypeError, st).
Proof. vm_compute. repeat split. Qed.

(** ** The request wrapper *)

Lemma addSentryBreadcrumb_event host body fields st :
  JSON_parse host body = Some (JObject fields) ->
  addSentryBreadcrumb host (VString body) st
  = addBreadcrumb host
      (BSentry (assoc "event_id" fields)
         (match assoc "level" fields with
          | Some l => if json_truthy (assoc "level" fields) then l
                      else JString (Severity_fromString host "error")
          | None => JString (Severity_fromString host "error")
          end)
         (getEventDescription host (JObject fields)))
      (Some (HSentry (JObject fields))) st.
Proof.
  intros Hparse. unfold addSentryBreadcrumb, try_catch.
  erewrite bind_ok by reflexivity. rewrite Hparse.
  erewrite bind_ok by reflexivity.
  erewrite bind_ok by reflexivity.
  erewrite bind_ok by reflexivity.
  by rewrite addBreadcrumb_run.
Qed.

Lemma addSentryBreadcrumb_malformed host body st :
  JSON_parse host body = None ->
  addSentryBreadcrumb host (VString body) st
  = (Ok tt,
     State (heap st) (fetches st)
       (trace st ++ [EError "Error while adding sentry type breadcrumb"])).
Proof.
  intros Hparse. unfold addSentryBreadcrumb, try_catch.
  erewrite bind_ok by reflexivity. rewrite Hparse.
  by erewrite bind_throw by reflexivity.
Qed.

(** The branch of the request wrapper for the client's own delivery call. *)
Lemma request_wrapper_own_delivery host fuel wrapper original ctx request this ro st
    name m dsn body :
  code_at (heap st) wrapper = Some (RequestWrapper original ctx request) ->
  code_at (heap st) original = Some (Native name) ->
  field (heap st) ro "method" = VString m ->
  map_string upper_char m = "POST" ->
  client_dsn host = Some dsn ->
  getStoreEndpoint host dsn <> "" ->
  isMatchingPattern host (field (heap st) ro "url") (getStoreEndpoint host dsn) = true ->
  field (heap st) ro "data" = VString body ->
  body <> "" ->
  call host (S (S fuel)) wrapper this [VRef ro] st
  = (addSentryBreadcrumb host (VString body) ;;
     call host (S fuel) original ctx [VRef ro]) st.
Proof.
  intros Hw Ho Hm Hpost Hdsn Hend Hmatch Hdata Hbody.
  rewrite (call_run _ _ _ _ _ _ _ Hw). unfold run, request_wrapper.
  simpl nth. unfold default_object.
  erewrite bind_ok by reflexivity.
  erewrite bind_ok by apply get_run. rewrite Hm.
  assert (Htruthy : truthy (VString m) = true).
  { destruct m; [done|]. reflexivity. }
  rewrite Htruthy.
  erewrite bind_ok by reflexivity.
  erewrite bind_ok by apply get_run.
  rewrite Hdsn. apply String.eqb_neq in Hend. rewrite Hend, Hmatch. cbn [negb andb].
  erewrite bind_ok by apply get_run. rewrite Hdata.
  rewrite Hpost. apply String.eqb_neq in Hbody.
  replace (truthy (VString body)) with true by (simpl; by rewrite Hbody).
  rewrite bool_decide_eq_true_2 by done.
  reflexivity.
Qed.

(** C4.  A call through the wrapped request primitive whose URL matches the
    store endpoint derived from the client's DSN, whose method upper-cases to
    POST and whose body is present: when the body parses to
    [{event_id: X, level: "error"}], exactly one breadcrumb, of category
    "sentry" with that id and level, is handed to the emitter (and passed on
    to the hub when the integration is active), no "request" breadcrumb is,
    and the original primitive is called with the same options object on an
    unchanged heap; when the body does not parse, an error is logged, no
    breadcrumb is emitted and the original primitive is called all the same. *)
Theorem own_delivery_gets_one_sentry_breadcrumb host fuel wrapper original ctx request
    this ro st name m dsn body X :
  code_at (heap st) wrapper = Some (RequestWrapper original ctx request) ->
  code_at (heap st) original = Some (Native name) ->
  field (heap st) ro "method" = VString m ->
  map_string upper_char m = "POST" ->
  client_dsn host = Some dsn ->
  getStoreEndpoint host dsn <> "" ->
  isMatchingPattern host (field (heap st) ro "url") (getStoreEndpoint host dsn) = true ->
  field (heap st) ro "data" = VString body ->
  body <> "" ->
  let event := JObject [("event_id", JString X); ("level", JString "error")] in
  let r := call host (S (S fuel)) wrapper this [VRef ro] st in
  (JSON_parse host body = Some event ->
     r = (native host name ctx [VRef ro],
          State (heap st) (fetches st)
            (trace st
             ++ emitted host
                  (BSentry (Some (JString X)) (JString "error")
                     (getEventDescription host event))
                  (Some (HSentry event))
             ++ [ECall original ctx [VRef ro]]))
     /\ emitted_categories (trace r.2)
        = (emitted_categories (trace st) ++ ["sentry"])%list)
  /\ (JSON_parse host body = None ->
        r = (native host name ctx [VRef ro],
             State (heap st) (fetches st)
               (trace st
                ++ [EError "Error while adding sentry type breadcrumb";
                    ECall original ctx [VRef ro]]))
        /\ emitted_categories (trace r.2) = emitted_categories (trace st)).
Proof.
  intros Hw Ho Hm Hpost Hdsn Hend Hmatch Hdata Hbody event r. unfold r.
  rewrite (request_wrapper_own_delivery host fuel wrapper original ctx request this ro st
             name m dsn body) by done.
  split; intros Hparse.
  - erewrite bind_ok.
    2:{ rewrite (addSentryBreadcrumb_event host body _ st Hparse). apply addBreadcrumb_run. }
    rewrite call_native with (name := name) by done. cbn [heap fetches trace].
    rewrite <- app_assoc. split; [reflexivity|]. cbn [snd trace].
    rewrite !emitted_categories_app, emitted_categories_emitted. simpl.
    by rewrite ?app_nil_r.
  - erewrite bind_ok by by apply addSentryBreadcrumb_malformed.
    rewrite call_native with (name := name) by done. cbn [heap fetches trace].
    rewrite <- app_assoc. split; [reflexivity|]. cbn [snd trace].
    rewrite emitted_categories_app. simpl. by rewrite ?app_nil_r.
Qed.

Lemma own_delivery_gets_one_sentry_breadcrumb_witness :
  let st := (instrumentRequest Demo.host Demo.this_request Demo.st0).2 in
  let event := JObject [("event_id", JString "X"); ("level", JString "error")] in
  code_at (heap st) (VRef 22)
  = Some (RequestWrapper (VRef 6) (VRef 5) (OObject (Some ["Authorization"])))
  /\ field (heap st) 9 "data" = VString Demo.envelope
  /\ JSON_parse Demo.host Demo.envelope = Some event
  /\ call Demo.host 2 (VRef 22) (VRef 5) [VRef 9] st
     = (Ok VUndefined,
        State (heap st) (fetches st)
          (trace st
           ++ emitted Demo.host (BSentry (Some (JString "X")) (JString "error") "X")
                (Some (HSentry event))
           ++ [ECall (VRef 6) (VRef 5) [VRef 9]]))
  /\ JSON_parse Demo.host "not json" = None
  /\ call Demo.host 2 (VRef 22) (VRef 5) [VRef 15] st
     = (Ok VUndefined,
        State (heap st) (fetches st)
          (trace st
           ++ [EError "Error while adding sentry type breadcrumb";
               ECall (VRef 6) (VRef 5) [VRef 15]])).
Proof.
  intros st event.
  split; [reflexivity|]. split; [reflexivity|]. split; [reflexivity|]. split; [|split].
  - apply (proj1 (own_delivery_gets_one_sentry_breadcrumb Demo.host 0 (VRef 22) (VRef 6)
                    (VRef 5) (OObject (Some ["Authorization"])) (VRef 5) 9 st
                    "request" "POST" "https://key@sentry.example/1" Demo.envelope "X"
                    eq_refl eq_refl eq_refl eq_refl eq_refl
                    ltac:(discriminate) eq_refl eq_refl ltac:(discriminate))).
    reflexivity.
  - reflexivity.
  - apply (proj2 (own_delivery_gets_one_sentry_breadcrumb Demo.host 0 (VRef 22) (VRef 6)
                    (VRef 5) (OObject (Some ["Authorization"])) (VRef 5) 15 st
                    "request" "POST" "https://key@sentry.example/1" "not json" "X"
                    eq_refl eq_refl eq_refl eq_refl eq_refl
                    ltac:(discriminate) eq_refl eq_refl ltac:(discriminate))).
    reflexivity.
Defined.

(** *** [fillKeys] on a value it can filter *)

(** Header filtering of a filterable value returns a value, logs nothing and
    leaves every object in place. *)
Lemma fillKeys_returns host fuel obj keys st :
  filterable (heap st) obj ->
  exists v extra,
    fillKeys host (call host (S fuel)) obj keys st
    = (Ok v, State (heap st ++ extra) (fetches st) (trace st)).
Proof.
  destruct st as [h fs tr]. cbn [heap fetches trace]. intros Hobj.
  destruct keys as [|k0 keys].
  - exists obj, []. by rewrite app_nil_r.
  - destruct Hobj as [->|[->|(l & -> & Hbuiltin)]].
    + by exists (VRef (length h)), [Object [] None true KPlain].
    + by exists (VRef (length h)), [Object [] None true KPlain].
    + pose proof Hbuiltin as (p & Hfind & _).
      destruct (find_property_Some_lookup _ _ _ _ Hfind) as [o Hl].
      eexists (VRef (length h)), [_]. unfold fillKeys.
      erewrite bind_ok by reflexivity.
      erewrite bind_ok by reflexivity.
      erewrite bind_ok.
      2:{ cbn [heap]. apply (fillKeys_loop host fuel h fs tr l o (k0 :: keys)); [done|done|].
          by intros k q. }
      reflexivity.
Qed.

(** *** The success callback *)

Lemma substr0_prefix n s : String.prefix (substr0 n s) s = true.
Proof.
  unfold substr0. revert s. induction n as [|n IH]; intros s.
  - by destruct s.
  - destruct s as [|c s]; simpl; [done|].
    rewrite IH. by destruct (ascii_dec c c).
Qed.

Lemma substr0_length n s :
  (n <= String.length s)%nat -> String.length (substr0 n s) = n.
Proof.
  unfold substr0. revert s. induction n as [|n IH]; intros s Hn.
  - by destruct s.
  - destruct s as [|c s]; simpl in *; [lia|]. rewrite IH; [done|lia].
Qed.

(** The success callback the request wrapper installs: for a response whose
    header can be filtered and whose [data] is a string of more than 128
    characters it records the status code, emits the "request" breadcrumb
    with the data cut to its first 128 characters and "..." appended, then
    calls the caller's callback. *)
Lemma success_wrapper_reports_response host fuel sw fetchData originSuccess request
    callback this st fd r s :
  code_at (heap st) sw = Some (SuccessWrapper fetchData originSuccess request) ->
  fetches st !! fetchData = Some fd ->
  code_at (heap st) originSuccess = Some (Native callback) ->
  filterable (heap st) (field (heap st) r "header") ->
  field (heap st) r "data" = VString s ->
  (128 < String.length s)%nat ->
  let recorded := record_status (field (heap st) r "statusCode") fd in
  let fetches' := alter (record_status (field (heap st) r "statusCode")) fetchData
                    (fetches st) in
  exists header extra,
    fillKeys host (call host (S fuel)) (field (heap st) r "header") (filterHeaders_of request)
      (State (heap st) fetches' (trace st))
    = (Ok header, State (heap st ++ extra) fetches' (trace st))
    /\ fetches' !! fetchData = Some recorded
    /\ String.length (substr0 128 s) = 128
    /\ String.prefix (substr0 128 s) s = true
    /\ call host (S (S fuel)) sw this [VRef r] st
       = (match native host callback VUndefined [VRef r] with
          | Ok _ => Ok VUndefined
          | Throw e => Throw e
          | Diverge => Diverge
          end,
          State (heap st ++ extra) fetches'
            (trace st
             ++ emitted host
                  (BRequest recorded header (VString (substr0 128 s ++ "..."))) None
             ++ [ECall originSuccess VUndefined [VRef r]])).
Proof.
  intros Hsw Hfd Horigin Hheader Hdata Hlong recorded fetches'.
  destruct (fillKeys_returns host fuel (field (heap st) r "header") (filterHeaders_of request)
              (State (heap st) fetches' (trace st)) Hheader) as (header & extra & Hfill).
  simpl in Hfill.
  assert (Hrec : fetches' !! fetchData = Some recorded).
  { unfold fetches'. by rewrite list_lookup_alter_eq, Hfd. }
  exists header, extra. split; [exact Hfill|]. split; [exact Hrec|].
  split; [apply substr0_length; lia|]. split; [apply substr0_prefix|].
  rewrite (call_run _ _ _ _ _ _ _ Hsw). unfold run, success_wrapper. simpl nth.
  erewrite bind_ok by apply get_run.
  erewrite bind_ok by reflexivity.
  cbn [truthy heap].
  erewrite bind_ok.
  2:{ erewrite bind_ok by apply get_run. cbn [heap]. rewrite Hdata. reflexivity. }
  apply Nat.ltb_lt in Hlong. rewrite Hlong.
  erewrite bind_ok by reflexivity. cbn [fetches]. fold fetches'. rewrite Hrec.
  erewrite bind_ok by apply get_run. cbn [heap].
  erewrite bind_ok by exact Hfill.
  erewrite bind_ok by apply addBreadcrumb_run. cbn [heap fetches trace].
  assert (Htruthy : truthy originSuccess = true) by by destruct originSuccess.
  rewrite Htruthy. unfold when.
  unfold bind at 1. unfold bind at 1.
  rewrite call_native with (name := callback) by (by apply code_at_extend).
  cbn [heap fetches trace]. rewrite <- app_assoc.
  by destruct (native host callback VUndefined [VRef r]).
Qed.

(** C8, evaluated where the code departs from it.  The client is set up with
    [filterHeaders].  An ordinary request with a success callback goes
    through the wrapped primitive, which replaces the callback.  Handed a
    response with an ordinary header and 130 characters of data, the
    replacement records the status code, emits one "request" breadcrumb of
    type "http" whose response data is the first 128 characters and "...",
    and calls the caller's callback with that response.  Handed the same
    response with a header that has no prototype, it throws the [TypeError]
    of the lookup of [hasOwnProperty]: no breadcrumb is emitted and the
    caller's callback is never called. *)
Theorem success_wrapper_unfilterable_header :
  let st := (instrumentRequest Demo.host Demo.this_request Demo.st0).2 in
  let st1 := (call Demo.host 3 (VRef 22) (VRef 5) [VRef 10] st).2 in
  let success := field (heap st1) 10 "success" in
  let served := call Demo.host 3 success VUndefined [VRef 13] st1 in
  let failed := call Demo.host 3 success VUndefined [VRef 21] st1 in
  field (heap st) 5 "request" = VRef 22
  /\ code_at (heap st1) success
     = Some (SuccessWrapper 0 (VRef 11) (OObject (Some ["Authorization"])))
  /\ field (heap st1) 13 "data" = VString Demo.long_body
  /\ field (heap st1) 21 "data" = VString Demo.long_body
  /\ served.1 = Ok VUndefined
  /\ trace served.2
     = (trace st1
        ++ emitted Demo.host
             (BRequest
                (FetchData (VString "GET") (VString "https://api.example/items") (VRef 23)
                   VUndefined (VNumber 200) VUndefined)
                (VRef 26) (VString (substr0 128 Demo.long_body ++ "...")))
             None
        ++ [ECall (VRef 11) VUndefined [VRef 13]])%list
  /\ heap served.2 !! 26
     = Some (Object [("Content-Type", data_property (VString "json"))] None true KPlain)
  /\ failed.1 = Throw TypeError
  /\ trace failed.2 = trace st1.
Proof. vm_compute. repeat split. Qed.

(** ** The constructor and [setupOnce] *)

Lemma bind_ret_unit (m : M unit) st : (m ;; ret tt) st = m st.
Proof. unfold bind, ret. by destruct (m st) as [[[]| |] st']. Qed.

Lemma bind_ret_l {A B} (a : A) (k : A -> M B) st : bind (ret a) k st = k a st.
Proof. reflexivity. Qed.

Lemma bind_ext {A B} (m : M A) (k1 k2 : A -> M B) st :
  (forall a st', k1 a st' = k2 a st') -> bind m k1 st = bind m k2 st.
Proof. intros H. unfold bind. destruct (m st) as [[a| |] st']; [apply H|done|done]. Qed.

Lemma setupOnce_order host fuel this st :
  setupOnce host fuel this st = setupOnce_in_order host fuel this st.
Proof.
  unfold setupOnce, setupOnce_in_order, module_order.
  rewrite !filter_cons, filter_nil. unfold enabled. cbv zeta.
  destruct (opt_truthy (opt_console (this_options this))
            || opt_truthy (opt_realtimeLog (this_options this))
               && truthy (this_realtimeLogManager this));
    destruct (opt_truthy (opt_navigation (this_options this)));
    destruct (opt_truthy (opt_request (this_options this)));
    destruct (opt_truthy (opt_api (this_options this)));
    destruct (opt_truthy (opt_lifecycle (this_options this)));
    cbn [decide_rel decide bool_eq_dec]; simpl forEach; unfold when, activate;
    repeat first [ reflexivity
                 | symmetry; apply bind_ret_unit
                 | rewrite bind_ret_l
                 | apply bind_ext; intros ? ? ].
Qed.

(** C6, evaluated where the code departs from it.  The defaults of the
    constructor do not list [request] (those of the older copy do): with no
    options given, [setupOnce] runs console, navigation, generic API and
    lifecycle, in this order, and never the network instrumentation.  On the
    example the request primitive ends up behind the generic API wrapper,
    where the older defaults put the request wrapper. *)
Theorem default_options_leave_request_out :
  let run (constructed : M Breadcrumbs) :=
    (this <- constructed ;; setupOnce Demo.host 2 this) Demo.st0 in
  let modern := run (constructor Demo.host 2 no_options) in
  let legacy := run (Legacy.constructor Demo.host 2 no_options) in
  opt_request (merged_options no_options) = OUndefined
  /\ opt_request (Legacy.merged_options no_options) = OBool true
  /\ (forall host fuel name ctx manager st,
        let this := {| this_name := name; this_ctx := ctx;
                       this_realtimeLogManager := manager;
                       this_options := merged_options no_options |} in
        setupOnce host fuel this st
        = (instrumentConsole host this ;;
           instrumentNavigation host this ;;
           instrumentMinaApi host this ;;
           instrumentLifeCycle host fuel this) st)
  /\ modern.1 = Ok tt
  /\ code_at (heap modern.2) (field (heap modern.2) 5 "request")
     = Some (MinaApiWrapper "request" (VRef 6) (VRef 5))
  /\ legacy.1 = Ok tt
  /\ code_at (heap legacy.2) (field (heap legacy.2) 5 "request")
     = Some (RequestWrapper (VRef 6) (VRef 5) (OBool true)).
Proof.
  cbv zeta. split; [reflexivity|]. split; [reflexivity|]. split.
  - intros host fuel name ctx manager st. reflexivity.
  - vm_compute. repeat split.
Qed.

(** * Further properties of the code *)

(** ** The patch primitive *)

Lemma assoc_set_keys {A} (k : string) (a b : A) (l : list (string * A)) :
  assoc k l = Some a -> map fst (assoc_set k b l) = map fst l.
Proof.
  induction l as [|[k' a'] l IH]; simpl; [done|].
  destruct (String.eqb_spec k k') as [->|Hne]; simpl; [done|].
  intros H. by rewrite IH.
Qed.

Lemma own_property_insert_ne h l o name name' :
  h !! l = Some o ->
  forall prop, name' <> name ->
  own_property (<[l := with_props o (assoc_set name prop (o_props o))]> h) l name'
  = own_property h l name'.
Proof.
  intros Hl prop Hne. unfold own_property.
  rewrite list_lookup_insert_eq by by eapply lookup_lt_Some.
  rewrite Hl. simpl. by apply assoc_set_ne.
Qed.

(** X1.  On an engine with the two reflection functions, patching an own,
    configurable property whose value is an unmarked function returns
    normally and changes that one value and nothing else: the property now
    holds the wrapper just allocated and keeps its writable, enumerable and
    configurable attributes; the other properties of the target, the order
    of its keys, its prototype, extensibility and kind, every other object
    that existed before, the request snapshots and the trace (so no warning)
    are as they were. *)
Theorem fill_changes_one_value host l name mk st o p :
  object_reflect host = true ->
  heap st !! l = Some o ->
  assoc name (o_props o) = Some p ->
  p_configurable p = true ->
  is_function (heap st) (p_value p) = true ->
  is_marked (heap st) (p_value p) = false ->
  exists st' o',
    fill host (VRef l) name (replacement mk) st = (Ok tt, st')
    /\ heap st' !! l = Some o'
    /\ assoc name (o_props o')
       = Some (Property (VRef (length (heap st))) (p_writable p) (p_enumerable p)
                 (p_configurable p))
    /\ (forall name', name' <> name -> assoc name' (o_props o') = assoc name' (o_props o))
    /\ map fst (o_props o') = map fst (o_props o)
    /\ o_proto o' = o_proto o /\ o_extensible o' = o_extensible o /\ o_kind o' = o_kind o
    /\ (forall l', l' <> l -> (l' < length (heap st))%nat -> heap st' !! l' = heap st !! l')
    /\ fetches st' = fetches st
    /\ trace st' = trace st.
Proof.
  destruct st as [h fs tr]. cbn [heap fetches trace].
  intros Hreflect Hl Hp Hconf Hfun Hmark.
  eexists _, _. split; [by apply (fill_first_run host l name mk h fs tr o p)|].
  cbn [heap fetches trace].
  split.
  { apply lookup_app_l_Some. apply list_lookup_insert_eq. by eapply lookup_lt_Some. }
  cbn [o_props with_props o_proto o_extensible o_kind].
  split; [apply assoc_set_eq|].
  split; [intros name' Hne; by apply assoc_set_ne|].
  split; [by eapply assoc_set_keys|].
  repeat split.
  intros l' Hne Hlt. rewrite lookup_app_l by by rewrite length_insert.
  by rewrite list_lookup_insert_ne.
Qed.


Lemma fill_changes_one_value_witness :
  exists st' o',
    fill Demo.host (VRef 0) "log" (replacement (Demo.console_code "log")) Demo.st0
    = (Ok tt, st')
    /\ heap st' !! 0 = Some o'
    /\ assoc "log" (o_props o') = Some (data_property (VRef 22))
    /\ assoc "error" (o_props o') = Some (data_property (VRef 2))
    /\ map fst (o_props o') = ["log"; "error"; "debug"].
Proof.
  destruct (fill_changes_one_value Demo.host 0 "log" (Demo.console_code "log") Demo.st0
              (Object [("log", data_property (VRef 1));
                       ("error", data_property (VRef 2));
                       ("debug", Property (VRef 3) true true false)] (Some 4) true KPlain)
              (data_property (VRef 1)) eq_refl eq_refl eq_refl eq_refl eq_refl eq_refl)
    as (st' & o' & Hrun & Hl & Hlog & Hother & Hkeys & _).
  exists st', o'. split; [exact Hrun|]. split; [exact Hl|]. split; [exact Hlog|].
  split; [|exact Hkeys].
  by rewrite Hother.
Defined.

(** What a call of [fill] can do to the state: it returns normally, logs at
    most its warning, and either only allocates or, besides, rewrites the one
    property of the target. *)
Lemma fill_effect host source name mk st :
  exists st',
    fill host source name (replacement mk) st = (Ok tt, st')
    /\ fetches st' = fetches st
    /\ (trace st' = trace st \/ trace st' = (trace st ++ [fill_warning name])%list)
    /\ ((exists extra, heap st' = (heap st ++ extra)%list)
        \/ (exists l o prop extra,
              source = VRef l /\ heap st !! l = Some o
              /\ heap st'
                 = (<[l := with_props o (assoc_set name prop (o_props o))]> (heap st)
                    ++ extra)%list)).
Proof.
  destruct st as [h fs tr]. cbn [heap fetches trace].
  assert (Hfail : forall e extra,
            install host source name (replacement mk) (State h fs tr)
            = (Throw e, State (h ++ extra) fs tr) ->
            exists st',
              fill host source name (replacement mk) (State h fs tr) = (Ok tt, st')
              /\ fetches st' = fs
              /\ (trace st' = tr \/ trace st' = (tr ++ [fill_warning name])%list)
              /\ ((exists extra, heap st' = (h ++ extra)%list)
                  \/ (exists l o prop extra,
                        source = VRef l /\ h !! l = Some o
                        /\ heap st'
                           = (<[l := with_props o (assoc_set name prop (o_props o))]> h
                              ++ extra)%list))).
  { intros e extra Hrun. eexists. unfold fill, try_catch. rewrite Hrun.
    split; [reflexivity|]. cbn [heap fetches trace].
    split; [done|]. split; [by right|]. left. by eexists. }
  assert (Hsame : install host source name (replacement mk) (State h fs tr)
                  = (Ok tt, State h fs tr) ->
            exists st',
              fill host source name (replacement mk) (State h fs tr) = (Ok tt, st')
              /\ fetches st' = fs
              /\ (trace st' = tr \/ trace st' = (tr ++ [fill_warning name])%list)
              /\ ((exists extra, heap st' = (h ++ extra)%list)
                  \/ (exists l o prop extra,
                        source = VRef l /\ h !! l = Some o
                        /\ heap st'
                           = (<[l := with_props o (assoc_set name prop (o_props o))]> h
                              ++ extra)%list))).
  { intros Hrun. eexists. unfold fill, try_catch. rewrite Hrun.
    split; [reflexivity|]. cbn [heap fetches trace].
    split; [done|]. split; [by left|]. left. exists []. by rewrite app_nil_r. }
  assert (Hnil : State (h ++ []) fs tr = State h fs tr) by by rewrite app_nil_r.
  destruct source as [| | | | | |l];
    try (apply (Hfail TypeError []); rewrite Hnil; reflexivity).
  destruct (find_property h l name) as [p|] eqn:Hfind.
  2:{ apply Hsame. by apply (install_absent host l name _ (State h fs tr)). }
  destruct (decide (p_value p = VUndefined)) as [Hu|Hu].
  { apply (Hfail TypeError []). rewrite Hnil. unfold install.
    erewrite bind_ok by apply has_property_run. rewrite Hfind, is_Some_true. simpl.
    erewrite bind_throw; [done|].
    erewrite bind_ok by apply get_ref_run. unfold field. rewrite Hfind, Hu. reflexivity. }
  destruct (decide (p_value p = VNull)) as [Hn|Hn].
  { apply (Hfail TypeError []). rewrite Hnil. unfold install.
    erewrite bind_ok by apply has_property_run. rewrite Hfind, is_Some_true. simpl.
    erewrite bind_throw; [done|].
    erewrite bind_ok by apply get_ref_run. unfold field. rewrite Hfind, Hn. reflexivity. }
  destruct (is_marked h (p_value p)) eqn:Hmark.
  { apply Hsame. by apply (install_marked host l name _ (State h fs tr) p). }
  pose proof (install_prefix host l name mk h fs tr p Hfind Hu Hn Hmark) as Hprefix.
  destruct (find_property_Some_lookup _ _ _ _ Hfind) as [o Hl].
  set (w := marked_wrapper mk (p_value p) (length h)) in *.
  assert (Hdone : forall prop,
            install host (VRef l) name (replacement mk) (State h fs tr)
            = (Ok tt,
               State (<[l := with_props o (assoc_set name prop (o_props o))]> (h ++ [w])%list)
                 fs tr) ->
            exists st',
              fill host (VRef l) name (replacement mk) (State h fs tr) = (Ok tt, st')
              /\ fetches st' = fs
              /\ (trace st' = tr \/ trace st' = (tr ++ [fill_warning name])%list)
              /\ ((exists extra, heap st' = (h ++ extra)%list)
                  \/ (exists l0 o0 prop0 extra,
                        VRef l = VRef l0 /\ h !! l0 = Some o0
                        /\ heap st'
                           = (<[l0 := with_props o0 (assoc_set name prop0 (o_props o0))]> h
                              ++ extra)%list))).
  { intros prop Hrun. eexists. unfold fill, try_catch. rewrite Hrun.
    split; [reflexivity|]. cbn [heap fetches trace].
    split; [done|]. split; [by left|]. right. exists l, o, prop, [w].
    split; [done|]. split; [done|]. by erewrite insert_snoc_old by done. }
  destruct (object_reflect host).
  - erewrite bind_ok in Hprefix by apply getOwnPropertyDescriptor_run.
    unfold own_property in Hprefix. erewrite lookup_snoc_old in Hprefix by done.
    destruct (assoc name (o_props o)) as [d|] eqn:Hd.
    + destruct (p_configurable d) eqn:Hc; cbn [negb] in Hprefix.
      * erewrite defineProperties_run in Hprefix;
          [|by apply lookup_snoc_old|done|by rewrite Hc].
        exact (Hdone _ Hprefix).
      * by apply (Hfail (Error "unable to config") [w]).
    + by apply (Hfail TypeError [w]).
  - unfold set, bind, gets in Hprefix. cbn [heap] in Hprefix.
    erewrite lookup_snoc_old in Hprefix by done.
    destruct (assoc name (o_props o)) as [d|] eqn:Hd.
    + destruct (p_writable d).
      * exact (Hdone _ Hprefix).
      * by apply (Hfail TypeError [w]).
    + match type of Hprefix with context [if ?b then _ else _] => destruct b end.
      * by apply (Hfail TypeError [w]).
      * exact (Hdone _ Hprefix).
Qed.

(** [fill] leaves every other property, and every other object, as it was. *)
Lemma fill_frame host source name mk st l o name' :
  heap st !! l = Some o ->
  source <> VRef l \/ name' <> name ->
  own_property (heap (fill host source name (replacement mk) st).2) l name'
  = own_property (heap st) l name'.
Proof.
  intros Hl Hother.
  destruct (fill_effect host source name mk st)
    as (st' & Hrun & _ & _ & [[extra Hheap]|(l0 & o0 & prop & extra & -> & Hl0 & Hheap)]);
    rewrite Hrun; cbn [snd]; rewrite Hheap; unfold own_property.
  - by rewrite (lookup_app_l_Some _ _ _ _ Hl), Hl.
  - destruct (decide (l0 = l)) as [->|Hne].
    + erewrite lookup_app_l_Some by (apply list_lookup_insert_eq; by eapply lookup_lt_Some).
      rewrite Hl. rewrite Hl in Hl0. injection Hl0 as ->.
      cbn [o_props with_props]. apply assoc_set_ne.
      destruct Hother as [H|H]; [done|]. congruence.
    + rewrite lookup_app_l by (rewrite length_insert; by eapply lookup_lt_Some).
      rewrite list_lookup_insert_ne by done. by rewrite Hl.
Qed.


(** What the lookup on a grounded chain gives does not change when the heap
    grows. *)
Lemma chain_property_grounded n h extra name : forall fuel l,
  ends_within n h l = true -> (n <= fuel)%nat ->
  chain_property fuel (h ++ extra) l name = chain_property n h l name.
Proof.
  induction n as [|n IH]; intros fuel l Hends Hfuel; [done|].
  destruct fuel as [|fuel]; [lia|]. simpl in *.
  destruct (h !! l) as [o|] eqn:Hl; [|done].
  erewrite lookup_app_l_Some by done.
  destruct (assoc name (o_props o)); [done|].
  destruct (o_proto o); [|done]. apply IH; [done|lia].
Qed.

Lemma find_property_grounded h extra l name :
  grounded h l -> find_property (h ++ extra) l name = find_property h l name.
Proof.
  intros Hg. unfold find_property.
  apply chain_property_grounded; [exact Hg|]. rewrite length_app. lia.
Qed.

Lemma field_grounded h extra l name :
  grounded h l -> field (h ++ extra) l name = field h l name.
Proof. intros Hg. unfold field. by rewrite find_property_grounded. Qed.

(** ** The page queries of env.ts, on a page stack *)

Lemma get_nullish v name st :
  v = VUndefined \/ v = VNull -> get v name st = (Throw TypeError, st).
Proof. by intros [-> | ->]. Qed.

Lemma get_total v name st :
  (exists w, get v name st = (Ok w, st)) \/ get v name st = (Throw TypeError, st).
Proof. destruct v; try (by right); left; by eexists. Qed.


Lemma index_in_range (a : list value) (i : Z) v :
  (0 <= i)%Z -> a !! Z.to_nat i = Some v -> index a i = v.
Proof.
  intros Hi Hv. unfold index. destruct (Z.ltb_spec i 0); [lia|].
  by apply nth_lookup_Some with (d := VUndefined) in Hv.
Qed.

(** X2.  When [getCurrentPages] answers with a page stack, [getCurrentPage]
    returns what reading [route] on the last page gives and leaves the state
    as it was; on an empty stack it returns "unknow". *)
Theorem getCurrentPage_last_route host st pages :
  getCurrentPages host = Some (Ok pages) ->
  (forall l, last pages = Some (VRef l) ->
     getCurrentPage host st = (Ok (field (heap st) l "route"), st))
  /\ (pages = [] -> getCurrentPage host st = (Ok (VString "unknow"), st)).
Proof.
  intros Hpages. unfold getCurrentPage, try_catch. rewrite Hpages. split.
  - intros l Hlast. erewrite bind_ok by reflexivity.
    rewrite last_lookup in Hlast.
    assert (Hlen : (0 < length pages)%nat) by (destruct pages; [done|simpl; lia]).
    rewrite (index_in_range pages _ (VRef l)); [by destruct st|lia|].
    rewrite <- Hlast. f_equal. lia.
  - intros ->. by destruct st.
Qed.

Lemma getCurrentPage_last_route_witness :
  getCurrentPage Cases.host_with_pages Cases.st1 = (Ok (VString "pages/detail"), Cases.st1).
Proof.
  exact (proj1 (getCurrentPage_last_route Cases.host_with_pages Cases.st1
                  [VRef 22; VRef 23; VRef 24] eq_refl) 24 eq_refl).
Defined.



Lemma getCurrentPage_total host st :
  getCurrentPages host <> Some Diverge ->
  exists v,
    getCurrentPage host st
    = (Ok v, State (heap st) (fetches st) (trace st ++ page_warning host)).
Proof.
  intros Hd. unfold getCurrentPage, try_catch, page_warning.
  destruct (getCurrentPages host) as [[pages|e|]|]; [| |done|].
  - erewrite bind_ok by reflexivity. rewrite app_nil_r.
    destruct (get_total (index pages (Z.of_nat (length pages) - 1)) "route" st)
      as [[w Hw]|Hw]; rewrite Hw; destruct st; by eexists.
  - rewrite app_nil_r. destruct st. by eexists.
  - by eexists.
Qed.

Lemma getPrevPage_total host delta st :
  getCurrentPages host <> Some Diverge ->
  exists v,
    getPrevPage host delta st
    = (Ok v, State (heap st) (fetches st) (trace st ++ page_warning host)).
Proof.
  intros Hd. unfold getPrevPage, try_catch, page_warning.
  destruct (getCurrentPages host) as [[pages|e|]|]; [| |done|].
  - erewrite bind_ok by reflexivity. rewrite app_nil_r.
    unfold bind at 1.
    destruct (to_index host (heap st) (if negb (truthy delta) then VNumber 1 else delta))
      as [[d|]|e|] eqn:Hindex.
    + destruct (get_total (index pages (Z.of_nat (length pages) - 1 - d)) "route" st)
        as [[w Hw]|Hw]; rewrite Hw; destruct st; by eexists.
    + destruct st. by eexists.
    + destruct st. by eexists.
    + exfalso. revert Hindex. unfold to_index.
      destruct (if negb (truthy delta) then VNumber 1 else delta); try done.
      unfold to_string. destruct (heap st !! l); [|done].
      by destruct (object_toString host o).
  - rewrite app_nil_r. destruct st. by eexists.
  - by eexists.
Qed.

(** X4.  Whatever the page stack holds and whatever [delta] is, as long as
    the host's [getCurrentPages] terminates, [getCurrentPage] and
    [getPrevPage] return a value: they never throw, they leave the heap and
    the request snapshots as they were, and they log the one warning exactly
    when [getCurrentPages] is no function. *)
Theorem page_queries_never_throw host st delta :
  getCurrentPages host <> Some Diverge ->
  let after := State (heap st) (fetches st) (trace st ++ page_warning host) in
  (exists v, getCurrentPage host st = (Ok v, after))
  /\ (exists v, getPrevPage host delta st = (Ok v, after)).
Proof.
  intros Hd. split; [by apply getCurrentPage_total|by apply getPrevPage_total].
Qed.

Lemma page_queries_never_throw_witness :
  (exists v, getCurrentPage Cases.host_with_pages Cases.st1 = (Ok v, Cases.st1))
  /\ (exists v, getPrevPage Cases.host_with_pages (VString "x") Cases.st1
                = (Ok v, Cases.st1)).
Proof.
  exact (page_queries_never_throw Cases.host_with_pages Cases.st1 (VString "x")
           ltac:(discriminate)).
Defined.

(** ** The probes of env.ts *)

(** A filter whose test reads the state without changing it. *)
Lemma filterM_pure {A} (f : A -> M bool) (g : A -> bool) (l : list A) st :
  (forall x, f x st = (Ok (g x), st)) ->
  filterM f l st = (Ok (filter (fun x => g x = true) l), st).
Proof.
  intros Hf. induction l as [|x l IH]; [done|].
  simpl filterM. erewrite bind_ok by apply Hf. erewrite bind_ok by apply IH.
  rewrite filter_cons. by destruct (g x).
Qed.

(** X5.  When the context is an object, [supportNavigations] returns the
    navigation functions whose member of the context is truthy, in the fixed
    order navigateBack, navigateTo, redirectTo, reLaunch, switchTab, and
    [null] instead of an empty list; the state is unchanged. *)
Theorem supportNavigations_lists_present host c st :
  minaContext host = VRef c ->
  let present :=
    filter (fun api => truthy (field (heap st) c api) = true)
      ["navigateBack"; "navigateTo"; "redirectTo"; "reLaunch"; "switchTab"] in
  supportNavigations host st
  = (Ok (match present with [] => None | _ => Some present end), st).
Proof.
  intros Hctx present. unfold supportNavigations. rewrite Hctx.
  erewrite bind_ok.
  2:{ apply (filterM_pure _ (fun api => truthy (field (heap st) c api))).
      intros api. by destruct st. }
  fold present. unfold ret. by destruct present.
Qed.

Lemma supportNavigations_lists_present_witness :
  supportNavigations Demo.host Demo.st0 = (Ok (Some ["navigateTo"]), Demo.st0)
  /\ supportNavigations Cases.host_with_pages Cases.st1 = (Ok None, Cases.st1).
Proof.
  split.
  - exact (supportNavigations_lists_present Demo.host 5 Demo.st0 eq_refl).
  - exact (supportNavigations_lists_present Cases.host_with_pages 28 Cases.st1 eq_refl).
Defined.

(** X6.  When the context is an object, [getMinaApiList] returns, in the
    order of the context's keys and without any effect, the own enumerable
    properties whose value is a function: a name is in the list exactly when
    the context owns an enumerable property of that name holding a
    function. *)
Theorem getMinaApiList_own_functions host c o st :
  minaContext host = VRef c ->
  heap st !! c = Some o ->
  exists list,
    getMinaApiList host st = (Ok list, st)
    /\ list = filter (fun api => is_function (heap st) (field (heap st) c api) = true)
                (own_enumerable_keys o)
    /\ forall api,
         api ∈ list
         <-> exists p, assoc api (o_props o) = Some p
                       /\ p_enumerable p = true
                       /\ is_function (heap st) (p_value p) = true.
Proof.
  intros Hctx Hc. eexists. split; [|split; [reflexivity|]].
  - unfold getMinaApiList. rewrite Hctx.
    erewrite bind_ok by (unfold Object_keys, gets; by rewrite Hc).
    apply (filterM_pure _ (fun api => is_function (heap st) (field (heap st) c api))).
    intros api. by destruct st.
  - intros api. rewrite list_elem_of_filter. unfold own_enumerable_keys, enumerable_key.
    rewrite list_elem_of_filter.
    assert (Hfield : forall p, assoc api (o_props o) = Some p ->
                               field (heap st) c api = p_value p).
    { intros p Hp. unfold field. erewrite find_property_own; [done|].
      unfold own_property. by rewrite Hc. }
    split.
    + intros (Hfun & Hen & _). destruct (assoc api (o_props o)) as [p|] eqn:Hp; [|done].
      exists p. rewrite <- (Hfield p eq_refl). done.
    + intros (p & Hp & Hen & Hfun). rewrite (Hfield p Hp), Hp. repeat split; try done.
      by eapply assoc_Some_elem_of.
Qed.

Lemma getMinaApiList_own_functions_witness :
  getMinaApiList Demo.host Demo.st0
  = (Ok ["request"; "navigateTo"; "onAppShow"], Demo.st0)
  /\ getMinaApiList Cases.host_with_pages Cases.st1
     = (Ok ["getSystemInfoSync"; "onAppHide"], Cases.st1).
Proof.
  split.
  - destruct (getMinaApiList_own_functions Demo.host 5
                (Demo.plain [("request", VRef 6); ("navigateTo", VRef 7);
                             ("onAppShow", VRef 8)]) Demo.st0 eq_refl eq_refl)
      as (list & Hrun & -> & _).
    exact Hrun.
  - destruct (getMinaApiList_own_functions Cases.host_with_pages 28
                (Demo.plain [("getSystemInfoSync", VRef 29); ("onAppHide", VRef 30);
                             ("version", VString "8.0")]) Cases.st1 eq_refl eq_refl)
      as (list & Hrun & -> & _).
    exact Hrun.
Defined.

(** ** [getSystemInfo] *)

Lemma call_not_function host fuel f this args st :
  code_at (heap st) f = None ->
  call host fuel f this args st = (Throw TypeError, st).
Proof.
  intros Hc. destruct fuel; simpl; unfold bind at 1, gets at 1; by rewrite Hc.
Qed.






(** X8.  With nothing cached and a host [getSystemInfoSync] that answers,
    [getSystemInfo] calls it once on the context without arguments, returns
    the answer and caches it.  A truthy cached value is returned from then
    on without any call or other effect; a falsy answer is cached too, but
    does not stop the next call from asking the host again. *)
Theorem getSystemInfo_caches host fuel c st name info systemInfo :
  minaContext host = VRef c ->
  truthy systemInfo = false ->
  code_at (heap st) (field (heap st) c "getSystemInfoSync") = Some (Native name) ->
  native host name (VRef c) [] = Ok info ->
  let asked st :=
    State (heap st) (fetches st)
      (trace st ++ [ECall (field (heap st) c "getSystemInfoSync") (VRef c) []]) in
  getSystemInfo host (S fuel) systemInfo st = (Ok (info, info), asked st)
  /\ (truthy info = true ->
        forall fuel' st', getSystemInfo host fuel' info st' = (Ok (info, info), st'))
  /\ (truthy info = false ->
        getSystemInfo host (S fuel) info (asked st) = (Ok (info, info), asked (asked st))).
Proof.
  intros Hctx Hfalsy Hcode Hanswer asked.
  assert (Hask : forall cached st0,
            truthy cached = false ->
            code_at (heap st0) (field (heap st0) c "getSystemInfoSync") = Some (Native name) ->
            getSystemInfo host (S fuel) cached st0 = (Ok (info, info), asked st0)).
  { intros cached st0 Hc Hcode0. unfold getSystemInfo, try_catch. rewrite Hc, Hctx.
    erewrite bind_ok by apply get_run.
    erewrite bind_ok.
    2:{ rewrite call_native with (name := name) by done. by rewrite Hanswer. }
    reflexivity. }
  split; [by apply Hask|]. split.
  - intros Htruthy fuel' st'. unfold getSystemInfo, try_catch. by rewrite Htruthy.
  - intros Hinfo. apply Hask; [done|]. by destruct st.
Qed.

Lemma getSystemInfo_caches_witness :
  getSystemInfo Cases.host_with_pages 1 VNull Cases.st1
  = (Ok (VRef 22, VRef 22), State Cases.heap1 [] [ECall (VRef 29) (VRef 28) []])
  /\ forall fuel' st',
       getSystemInfo Cases.host_with_pages fuel' (VRef 22) st' = (Ok (VRef 22, VRef 22), st').
Proof.
  destruct (getSystemInfo_caches Cases.host_with_pages 0 28 Cases.st1 "getSystemInfoSync"
              (VRef 22) VNull eq_refl eq_refl eq_refl eq_refl) as (Hfirst & Hcached & _).
  split; [exact Hfirst|exact (Hcached eq_refl)].
Defined.

(** ** [isWxUnhandledPromiseError] *)

Lemma map_string_length f s : String.length (map_string f s) = String.length s.
Proof. induction s as [|c s IH]; simpl; [done|]. by rewrite IH. Qed.

Lemma substring_app_prefix (p rest : string) :
  substring 0 (String.length p) (p ++ rest) = p.
Proof.
  induction p as [|c p IH]; simpl; [by destruct rest|]. by rewrite IH.
Qed.

Lemma substring_split n (s : string) : exists rest, s = substring 0 n s ++ rest.
Proof.
  revert s. induction n as [|n IH]; intros s.
  - exists s. by destruct s.
  - destruct s as [|c s]; simpl; [by exists ""|].
    destruct (IH s) as [rest Hrest]. exists rest.
    change (String c s = String c (substring 0 n s ++ rest)). by rewrite <- Hrest.
Qed.

Lemma starts_with_ci_spec (prefix s : string) :
  starts_with_ci prefix s = true
  <-> exists p rest, s = p ++ rest /\ map_string lower_char p = prefix.
Proof.
  unfold starts_with_ci. rewrite String.eqb_eq. split.
  - intros H. destruct (substring_split (String.length prefix) s) as [rest Hrest].
    by exists (substring 0 (String.length prefix) s), rest.
  - intros (p & rest & -> & <-).
    by rewrite map_string_length, substring_app_prefix.
Qed.

(** X9.  [isWxUnhandledPromiseError] holds exactly of the strings that begin
    with "unhandled" or "uncaught" in any mix of upper and lower case;
    of no other value, and of no string that has the word further in. *)
Theorem isWxUnhandledPromiseError_prefix message :
  isWxUnhandledPromiseError message = true
  <-> exists p rest,
        message = VString (p ++ rest)
        /\ (map_string lower_char p = "unhandled" \/ map_string lower_char p = "uncaught").
Proof.
  split.
  - destruct message as [| | | | |s|]; try done. simpl.
    rewrite andb_true_iff, orb_true_iff, !starts_with_ci_spec.
    intros [_ [(p & rest & -> & Hp)|(p & rest & -> & Hp)]]; exists p, rest; auto.
  - intros (p & rest & -> & Hp). simpl.
    rewrite andb_true_iff, orb_true_iff, !starts_with_ci_spec. split.
    + destruct p; [by destruct Hp|done].
    + destruct Hp as [Hp|Hp]; [left|right]; by exists p, rest.
Qed.

Example isWxUnhandledPromiseError_examples :
  isWxUnhandledPromiseError (VString "UNCAUGHT (in promise) TypeError") = true
  /\ isWxUnhandledPromiseError (VString "unhandled promise rejection") = true
  /\ isWxUnhandledPromiseError (VString "An Unhandled rejection") = false
  /\ isWxUnhandledPromiseError (VString "") = false
  /\ isWxUnhandledPromiseError (VRef 0) = false.
Proof. repeat split. Qed.

(** ** The wrappers of the generic API and of the request callbacks *)

(** X10.  The wrapper that [instrumentMinaApi] installs for [api], on a host
    function: whatever receiver it is called on, it hands the emitter one
    "mina-api" breadcrumb with the arguments and the name, then calls the
    original on the context (not on its own receiver) with the same
    arguments, and returns or throws what the original does. *)
Theorem mina_api_wrapper_passes_through host fuel wrapper api original ctx name this args st :
  code_at (heap st) wrapper = Some (MinaApiWrapper api original ctx) ->
  code_at (heap st) original = Some (Native name) ->
  call host (S (S fuel)) wrapper this args st
  = (native host name ctx args,
     State (heap st) (fetches st)
       (trace st ++ emitted host (BMinaApi args api) None ++ [ECall original ctx args])).
Proof.
  intros Hw Ho. rewrite (call_run _ _ _ _ _ _ _ Hw). unfold run, mina_api_wrapper.
  erewrite bind_ok by apply addBreadcrumb_run.
  rewrite call_native with (name := name) by done. cbn [heap fetches trace].
  by rewrite <- app_assoc.
Qed.

Lemma mina_api_wrapper_passes_through_witness :
  let st := (instrumentMinaApi Demo.host Demo.this0 Demo.st0).2 in
  field (heap st) 5 "navigateTo" = VRef 23
  /\ call Demo.host 2 (VRef 23) VUndefined [VRef 10] st
     = (Ok VUndefined,
        State (heap st) (fetches st)
          (trace st ++ emitted Demo.host (BMinaApi [VRef 10] "navigateTo") None
           ++ [ECall (VRef 7) (VRef 5) [VRef 10]])).
Proof.
  intros st. split; [reflexivity|].
  exact (mina_api_wrapper_passes_through Demo.host 0 (VRef 23) "navigateTo" (VRef 7) (VRef 5)
           "navigateTo" VUndefined [VRef 10] st eq_refl eq_refl).
Defined.

(** X11.  The [fail] callback that the request wrapper installs hands the
    emitter one breadcrumb of category "request", type "http" and level
    error with the request snapshot; then, if the caller gave a [fail]
    callback, it calls it with the error and without receiver, discarding
    its answer; without one it just returns. *)
Theorem fail_wrapper_reports_error host fuel wrapper fetchData originFail this args st :
  code_at (heap st) wrapper = Some (FailWrapper fetchData originFail) ->
  let error := nth 0 args VUndefined in
  let crumb := emitted host (BRequestError fetchData "error") None in
  category (BRequestError fetchData "error") = "request"
  /\ bc_type (BRequestError fetchData "error") = Some "http"
  /\ (truthy originFail = false ->
        call host (S fuel) wrapper this args st
        = (Ok VUndefined, State (heap st) (fetches st) (trace st ++ crumb)))
  /\ (forall name,
        code_at (heap st) originFail = Some (Native name) ->
        call host (S (S fuel)) wrapper this args st
        = (discard (native host name VUndefined [error]),
           State (heap st) (fetches st)
             (trace st ++ crumb ++ [ECall originFail VUndefined [error]]))).
Proof.
  intros Hw error crumb. split; [done|]. split; [done|]. split.
  - intros Hfalsy. rewrite (call_run _ _ _ _ _ _ _ Hw). unfold run, fail_wrapper.
    erewrite bind_ok by apply addBreadcrumb_run. by rewrite Hfalsy.
  - intros name Ho. rewrite (call_run _ _ _ _ _ _ _ Hw). unfold run, fail_wrapper.
    erewrite bind_ok by apply addBreadcrumb_run.
    assert (Htruthy : truthy originFail = true) by by destruct originFail.
    rewrite Htruthy. unfold when. unfold bind at 1. unfold bind at 1.
    rewrite call_native with (name := name) by done. cbn [heap fetches trace].
    fold error. rewrite <- app_assoc.
    by destruct (native host name VUndefined [error]).
Qed.

Lemma fail_wrapper_reports_error_witness :
  let st := (instrumentRequest Demo.host Demo.this_request Demo.st0).2 in
  let st1 := (call Demo.host 2 (VRef 22) (VRef 5) [VRef 10] st).2 in
  field (heap st1) 10 "fail" = VRef 25
  /\ call Demo.host 1 (VRef 25) VUndefined [VString "timeout"] st1
     = (Ok VUndefined,
        State (heap st1) (fetches st1)
          (trace st1 ++ emitted Demo.host (BRequestError 0 "error") None)).
Proof.
  intros st st1. split; [reflexivity|].
  exact (proj1 (proj2 (proj2
           (fail_wrapper_reports_error Demo.host 0 (VRef 25) 0 VUndefined VUndefined
              [VString "timeout"] st1 eq_refl))) eq_refl).
Defined.

(** X12.  The [success] callback that the request wrapper installs throws a
    [TypeError] when it is called without a response, or with [null]: the
    status code is read before the guard on the response.  Nothing is
    emitted and the caller's callback is not called. *)
Theorem success_wrapper_needs_response host fuel wrapper fetchData originSuccess request
    this args st :
  code_at (heap st) wrapper = Some (SuccessWrapper fetchData originSuccess request) ->
  nth 0 args VUndefined = VUndefined \/ nth 0 args VUndefined = VNull ->
  call host (S fuel) wrapper this args st = (Throw TypeError, st).
Proof.
  intros Hw Hres. rewrite (call_run _ _ _ _ _ _ _ Hw). unfold run, success_wrapper.
  cbv zeta. by erewrite bind_throw by by apply get_nullish.
Qed.

Lemma success_wrapper_needs_response_witness :
  let st := (instrumentRequest Demo.host Demo.this_request Demo.st0).2 in
  let st1 := (call Demo.host 2 (VRef 22) (VRef 5) [VRef 10] st).2 in
  field (heap st1) 10 "success" = VRef 24
  /\ call Demo.host 1 (VRef 24) VUndefined [] st1 = (Throw TypeError, st1).
Proof.
  intros st st1. split; [reflexivity|].
  exact (success_wrapper_needs_response Demo.host 0 (VRef 24) 0 (VRef 11)
           (OObject (Some ["Authorization"])) VUndefined [] st1 eq_refl (or_introl eq_refl)).
Defined.

Lemma string_length_app (s1 s2 : string) :
  String.length (s1 ++ s2) = (String.length s1 + String.length s2)%nat.
Proof.
  induction s1 as [|c s1 IH]; [done|].
  change (S (String.length (s1 ++ s2)) = S (String.length s1 + String.length s2)).
  by rewrite IH.
Qed.

(** X13.  The [success] callback that the request wrapper installs, on a
    response whose header can be filtered: it records the status code, hands
    the emitter one "request" breadcrumb and calls the caller's callback
    with the response.  The response data in the breadcrumb is the response's
    [data] itself when that is a string of at most 128 characters, [null]
    when it is no string, and never a string of more than 131 characters. *)
Theorem success_wrapper_bounds_data host fuel wrapper fetchData originSuccess request
    callback this st fd r :
  code_at (heap st) wrapper = Some (SuccessWrapper fetchData originSuccess request) ->
  fetches st !! fetchData = Some fd ->
  code_at (heap st) originSuccess = Some (Native callback) ->
  filterable (heap st) (field (heap st) r "header") ->
  let recorded := record_status (field (heap st) r "statusCode") fd in
  let fetches' := alter (record_status (field (heap st) r "statusCode")) fetchData
                    (fetches st) in
  exists header extra data,
    call host (S (S fuel)) wrapper this [VRef r] st
    = (discard (native host callback VUndefined [VRef r]),
       State (heap st ++ extra) fetches'
         (trace st ++ emitted host (BRequest recorded header data) None
          ++ [ECall originSuccess VUndefined [VRef r]]))
    /\ (forall s, field (heap st) r "data" = VString s -> (String.length s <= 128)%nat ->
          data = VString s)
    /\ ((forall s, field (heap st) r "data" <> VString s) -> data = VNull)
    /\ (forall s, data = VString s -> (String.length s <= 131)%nat).
Proof.
  intros Hsw Hfd Horigin Hheader recorded fetches'.
  destruct (fillKeys_returns host fuel (field (heap st) r "header") (filterHeaders_of request)
              (State (heap st) fetches' (trace st)) Hheader) as (header & extra & Hfill).
  simpl in Hfill.
  assert (Hrec : fetches' !! fetchData = Some recorded).
  { unfold fetches'. by rewrite list_lookup_alter_eq, Hfd. }
  set (data := match field (heap st) r "data" with
               | VString s =>
                   if (128 <? String.length s)%nat
                   then VString (substr0 128 s ++ "...")
                   else VString s
               | _ => VNull
               end).
  exists header, extra, data. split; [|split; [|split]].
  - rewrite (call_run _ _ _ _ _ _ _ Hsw). unfold run, success_wrapper. simpl nth.
    erewrite bind_ok by apply get_run.
    erewrite bind_ok by reflexivity.
    cbn [truthy heap].
    erewrite bind_ok.
    2:{ erewrite bind_ok by apply get_run. cbn [heap]. fold data. reflexivity. }
    erewrite bind_ok by reflexivity. cbn [fetches]. fold fetches'. rewrite Hrec.
    erewrite bind_ok by apply get_run. cbn [heap].
    erewrite bind_ok by exact Hfill.
    erewrite bind_ok by apply addBreadcrumb_run. cbn [heap fetches trace].
    assert (Htruthy : truthy originSuccess = true) by by destruct originSuccess.
    rewrite Htruthy. unfold when.
    unfold bind at 1. unfold bind at 1.
    rewrite call_native with (name := callback) by (by apply code_at_extend).
    cbn [heap fetches trace]. rewrite <- app_assoc.
    by destruct (native host callback VUndefined [VRef r]).
  - intros s Hs Hshort. unfold data. rewrite Hs.
    by destruct (Nat.ltb_spec 128 (String.length s)); [lia|].
  - intros Hno. unfold data. destruct (field (heap st) r "data"); try done.
    by specialize (Hno s).
  - intros s. unfold data. destruct (field (heap st) r "data") as [| | | | |s0|]; try done.
    destruct (Nat.ltb_spec 128 (String.length s0)); intros [= <-]; [|lia].
    rewrite string_length_app, substr0_length by lia. simpl. lia.
Qed.

Lemma success_wrapper_bounds_data_witness :
  let st := (instrumentRequest Demo.host Demo.this_request Cases.st1).2 in
  let st1 := (call Demo.host 2 (VRef 34) (VRef 5) [VRef 10] st).2 in
  field (heap st1) 10 "success" = VRef 36
  /\ field (heap st1) 33 "data" = VString "not found"
  /\ exists header extra,
       call Demo.host 2 (VRef 36) VUndefined [VRef 33] st1
       = (Ok VUndefined,
          State (heap st1 ++ extra)
            (alter (record_status (VNumber 404)) 0 (fetches st1))
            (trace st1
             ++ emitted Demo.host
                  (BRequest (FetchData (VString "GET") (VString "https://api.example/items")
                               (VRef 35) VUndefined (VNumber 404) VUndefined)
                     header (VString "not found")) None
             ++ [ECall (VRef 11) VUndefined [VRef 33]])).
Proof.
  intros st st1. split; [reflexivity|]. split; [reflexivity|].
  assert (Hheader : filterable (heap st1) (field (heap st1) 33 "header")).
  { right. right. exists 12. split; [reflexivity|].
    exists (Property (VRef 18) true false true). split; reflexivity. }
  destruct (success_wrapper_bounds_data Demo.host 0 (VRef 36) 0 (VRef 11)
              (OObject (Some ["Authorization"])) "onSuccess" VUndefined st1
              (FetchData (VString "GET") (VString "https://api.example/items")
                 (VRef 35) VUndefined (VNumber 0) VUndefined) 33
              eq_refl eq_refl eq_refl Hheader)
    as (header & extra & data & Hrun & Hshort & _ & _).
  exists header, extra. rewrite Hrun. rewrite (Hshort "not found"); [reflexivity|reflexivity|].
  simpl. lia.
Defined.

(** ** The navigation wrapper *)

(** X14.  The navigation wrapper, called with options whose [url] is truthy:
    it hands the emitter one "navigation" breadcrumb from the current page
    to that url, then calls the original function on its own receiver with
    the same options and returns or throws what it does; [delta] is not
    looked at. *)
Theorem history_wrapper_records_url host fuel wrapper original name this ro st :
  code_at (heap st) wrapper = Some (HistoryWrapper original) ->
  code_at (heap st) original = Some (Native name) ->
  truthy (field (heap st) ro "url") = true ->
  getCurrentPages host <> Some Diverge ->
  exists from,
    getCurrentPage host st
    = (Ok from, State (heap st) (fetches st) (trace st ++ page_warning host))
    /\ call host (S (S fuel)) wrapper this [VRef ro] st
       = (native host name this [VRef ro],
          State (heap st) (fetches st)
            (trace st ++ page_warning host
             ++ emitted host (BNavigation from (field (heap st) ro "url")) None
             ++ [ECall original this [VRef ro]])).
Proof.
  intros Hw Ho Hurl Hpages.
  destruct (getCurrentPage_total host st Hpages) as [from Hfrom].
  exists from. split; [exact Hfrom|].
  rewrite (call_run _ _ _ _ _ _ _ Hw). unfold run, history_wrapper. simpl nth.
  unfold default_object.
  erewrite bind_ok by reflexivity.
  erewrite bind_ok by apply get_run. rewrite Hurl. cbn [negb andb].
  erewrite bind_ok by reflexivity.
  erewrite bind_ok by reflexivity.
  rewrite Hurl. unfold when.
  erewrite bind_ok.
  2:{ erewrite bind_ok by exact Hfrom. apply addBreadcrumb_run. }
  rewrite call_native with (name := name) by done. cbn [heap fetches trace].
  by rewrite <- !app_assoc.
Qed.

Lemma history_wrapper_records_url_witness :
  let st := (instrumentNavigation Demo.host Demo.this0 Cases.st1).2 in
  field (heap st) 5 "navigateTo" = VRef 34
  /\ call Cases.host_with_pages 2 (VRef 34) (VRef 5) [VRef 10] st
     = (Ok VUndefined,
        State (heap st) (fetches st)
          (trace st
           ++ emitted Cases.host_with_pages
                (BNavigation (VString "pages/detail") (VString "https://api.example/items"))
                None
           ++ [ECall (VRef 7) (VRef 5) [VRef 10]])).
Proof.
  intros st. split; [reflexivity|].
  destruct (history_wrapper_records_url Cases.host_with_pages 0 (VRef 34) (VRef 7)
              "navigateTo" (VRef 5) 10 st eq_refl eq_refl eq_refl ltac:(discriminate))
    as (from & Hfrom & Hrun).
  vm_compute in Hfrom. injection Hfrom as <-. exact Hrun.
Defined.

(** X15.  The navigation wrapper, called with options without a truthy
    [url]: when [delta] is falsy as well, nothing is emitted and the original
    is called; when [delta] is truthy, the destination is what [getPrevPage]
    gives for it, the breadcrumb goes from the current page to that
    destination if it is truthy, and the original is called in either case. *)
Theorem history_wrapper_back_navigation host fuel wrapper original name this ro st :
  code_at (heap st) wrapper = Some (HistoryWrapper original) ->
  code_at (heap st) original = Some (Native name) ->
  truthy (field (heap st) ro "url") = false ->
  getCurrentPages host <> Some Diverge ->
  let delta := field (heap st) ro "delta" in
  let warned := State (heap st) (fetches st) (trace st ++ page_warning host) in
  (truthy delta = false ->
     call host (S (S fuel)) wrapper this [VRef ro] st
     = (native host name this [VRef ro],
        State (heap st) (fetches st) (trace st ++ [ECall original this [VRef ro]])))
  /\ (truthy delta = true ->
      exists to from,
        getPrevPage host delta st = (Ok to, warned)
        /\ getCurrentPage host warned
           = (Ok from,
              State (heap st) (fetches st) (trace warned ++ page_warning host))
        /\ call host (S (S fuel)) wrapper this [VRef ro] st
           = (native host name this [VRef ro],
              State (heap st) (fetches st)
                (trace warned
                 ++ (if truthy to
                     then page_warning host ++ emitted host (BNavigation from to) None
                     else [])
                 ++ [ECall original this [VRef ro]]))).
Proof.
  intros Hw Ho Hurl Hpages delta warned. split.
  - intros Hdelta.
    rewrite (call_run _ _ _ _ _ _ _ Hw). unfold run, history_wrapper. simpl nth.
    unfold default_object.
    erewrite bind_ok by reflexivity.
    erewrite bind_ok by apply get_run. rewrite Hurl. cbn [negb andb].
    erewrite bind_ok by apply get_run. fold delta. rewrite Hdelta.
    erewrite bind_ok by reflexivity. rewrite Hurl. unfold when.
    erewrite bind_ok by reflexivity.
    by rewrite call_native with (name := name) by done.
  - intros Hdelta.
    destruct (getPrevPage_total host delta st Hpages) as [to Hto].
    destruct (getCurrentPage_total host warned Hpages) as [from Hfrom].
    exists to, from. split; [exact Hto|]. split; [exact Hfrom|].
    rewrite (call_run _ _ _ _ _ _ _ Hw). unfold run, history_wrapper. simpl nth.
    unfold default_object.
    erewrite bind_ok by reflexivity.
    erewrite bind_ok by apply get_run. rewrite Hurl. cbn [negb andb].
    erewrite bind_ok by apply get_run. fold delta. rewrite Hdelta.
    erewrite bind_ok by exact Hto. fold warned.
    destruct (truthy to); unfold when.
    + erewrite bind_ok.
      2:{ erewrite bind_ok by exact Hfrom. apply addBreadcrumb_run. }
      rewrite call_native with (name := name) by done. cbn [heap fetches trace].
      by rewrite <- !app_assoc.
    + erewrite bind_ok by reflexivity.
      by rewrite call_native with (name := name) by done.
Qed.

Lemma history_wrapper_back_navigation_witness :
  let st := (instrumentNavigation Demo.host Demo.this0 Cases.st1).2 in
  call Cases.host_with_pages 2 (VRef 34) (VRef 5) [VRef 31] st
  = (Ok VUndefined,
     State (heap st) (fetches st)
       (trace st
        ++ emitted Cases.host_with_pages
             (BNavigation (VString "pages/detail") (VString "pages/list")) None
        ++ [ECall (VRef 7) (VRef 5) [VRef 31]])).
Proof.
  intros st.
  destruct (proj2 (history_wrapper_back_navigation Cases.host_with_pages 0 (VRef 34) (VRef 7)
                     "navigateTo" (VRef 5) 31 st eq_refl eq_refl eq_refl
                     ltac:(discriminate)) eq_refl)
    as (to & from & Hto & Hfrom & Hrun).
  vm_compute in Hto. injection Hto as <-.
  vm_compute in Hfrom. injection Hfrom as <-.
  exact Hrun.
Defined.

(** ** The lifecycle listeners *)

(** X16.  The listener that [instrumentLifeCycle] registers for a hook hands
    the emitter one "app-life-cycle" breadcrumb with the hook's name and the
    first argument it is called with, and returns [undefined]; further
    arguments are dropped. *)
Theorem lifecycle_listener_reports host fuel listener key this args st :
  code_at (heap st) listener = Some (LifeCycleListener key) ->
  call host (S fuel) listener this args st
  = (Ok VUndefined,
     State (heap st) (fetches st)
       (trace st ++ emitted host (BLifeCycle key (nth 0 args VUndefined)) None)).
Proof.
  intros Hl. rewrite (call_run _ _ _ _ _ _ _ Hl). unfold run, lifecycle_listener.
  by erewrite bind_ok by apply addBreadcrumb_run.
Qed.

Lemma lifecycle_listener_reports_witness :
  let st := (instrumentLifeCycle Demo.host 1 Demo.this0 Demo.st0).2 in
  host_calls (trace st) = [(VRef 8, VRef 5, [VRef 22])]
  /\ call Demo.host 1 (VRef 22) VUndefined [VRef 13; VNumber 2] st
     = (Ok VUndefined,
        State (heap st) (fetches st)
          (trace st ++ emitted Demo.host (BLifeCycle "onAppShow" (VRef 13)) None)).
Proof.
  intros st. split; [reflexivity|].
  exact (lifecycle_listener_reports Demo.host 0 (VRef 22) "onAppShow" VUndefined
           [VRef 13; VNumber 2] st eq_refl).
Defined.

Lemma instrumentLifeCycle_loop host fuel c h fs (keys : list string) :
  grounded h c ->
  forall extra tr,
  (forall hook, hook ∈ hooks h c (length (h ++ extra)) keys ->
     exists name v, code_at h hook.1.2 = Some (Native name)
                    /\ native host name (VRef c) [VRef hook.2] = Ok v) ->
  forEach keys (fun key =>
      probe <- get (VRef c) key ;;
      if truthy probe
      then register <- get (VRef c) key ;;
           listener <- closure (LifeCycleListener key) ;;
           call host (S fuel) register (VRef c) [listener] ;;
           ret tt
      else ret tt)
    (State (h ++ extra) fs tr)
  = (Ok tt,
     State (h ++ extra ++ map hook_listener (hooks h c (length (h ++ extra)) keys)) fs
       (tr ++ map (hook_call c) (hooks h c (length (h ++ extra)) keys))).
Proof.
  intros Hc. induction keys as [|key keys IH]; intros extra tr Hhooks.
  - cbn [forEach hooks map]. by rewrite !app_nil_r.
  - cbn [forEach hooks] in *.
    destruct (truthy (field h c key)) eqn:Ht.
    + destruct (Hhooks _ (list_elem_of_here _ _)) as (name & v & Hcode & Hanswer).
      cbn [fst snd] in Hcode, Hanswer.
      erewrite bind_ok.
      2:{ erewrite bind_ok by apply get_run. cbn [heap].
          rewrite (field_grounded h extra c) by done. rewrite Ht.
          erewrite bind_ok by apply get_run. cbn [heap].
          rewrite (field_grounded h extra c) by done.
          erewrite bind_ok by apply closure_run.
          erewrite bind_ok.
          2:{ rewrite call_native with (name := name)
                by (cbn [heap]; by do 2 apply code_at_extend).
              cbn [heap fetches trace]. rewrite Hanswer. reflexivity. }
          reflexivity. }
      rewrite <- app_assoc.
      rewrite IH.
      * rewrite !length_app. cbn [map length]. rewrite Nat.add_1_r, Nat.add_succ_r.
        rewrite <- !app_assoc. reflexivity.
      * intros hook Hin. apply Hhooks. apply list_elem_of_further.
        rewrite !length_app in Hin. cbn [length] in Hin.
        rewrite Nat.add_1_r, Nat.add_succ_r, <- length_app in Hin. exact Hin.
    + erewrite bind_ok.
      2:{ erewrite bind_ok by apply get_run. cbn [heap].
          rewrite (field_grounded h extra c) by done. rewrite Ht. reflexivity. }
      by apply IH.
Qed.

(** X17.  When every lifecycle hook the context has (onAppShow, onAppHide) is
    a host function that returns, [instrumentLifeCycle] allocates one
    listener per hook that is present and calls each such hook once, on the
    context, with its listener, in the order onAppShow, onAppHide; a hook
    the context lacks is skipped. *)
Theorem instrumentLifeCycle_registers host fuel this c st :
  this_ctx this = VRef c ->
  grounded (heap st) c ->
  let present := hooks (heap st) c (length (heap st)) MINA_APP_LIFE_CYCLE in
  (forall hook, hook ∈ present ->
     exists name v, code_at (heap st) hook.1.2 = Some (Native name)
                    /\ native host name (VRef c) [VRef hook.2] = Ok v) ->
  instrumentLifeCycle host (S fuel) this st
  = (Ok tt,
     State (heap st ++ map hook_listener present) (fetches st)
       (trace st ++ map (hook_call c) present)).
Proof.
  intros Hctx Hc present Hpresent. destruct st as [h fs tr].
  cbn [heap fetches trace] in *.
  unfold instrumentLifeCycle. rewrite Hctx. cbv zeta.
  pose proof (instrumentLifeCycle_loop host fuel c h fs MINA_APP_LIFE_CYCLE Hc [] tr)
    as Hloop.
  rewrite !app_nil_r in Hloop. cbn [app] in Hloop. by apply Hloop.
Qed.

Lemma instrumentLifeCycle_registers_witness :
  instrumentLifeCycle Demo.host 1 Demo.this0 Demo.st0
  = (Ok tt,
     State (heap Demo.st0 ++ [Object [] None true (KFunction (LifeCycleListener "onAppShow"))])
       [] [ECall (VRef 8) (VRef 5) [VRef 22]]).
Proof.
  apply (instrumentLifeCycle_registers Demo.host 0 Demo.this0 5 Demo.st0 eq_refl eq_refl).
  intros hook Hin. apply list_elem_of_singleton in Hin as ->.
  by exists "onAppShow", VUndefined.
Defined.

(** X18.  When the context's [onAppShow] is truthy but no function,
    [instrumentLifeCycle] throws a [TypeError] to its caller: the member is
    only tested for truth before it is called.  The listener has been
    allocated by then; [onAppHide] is not reached. *)
Theorem instrumentLifeCycle_not_callable host fuel this c st :
  this_ctx this = VRef c ->
  truthy (field (heap st) c "onAppShow") = true ->
  not_callable (heap st) (field (heap st) c "onAppShow") ->
  instrumentLifeCycle host fuel this st
  = (Throw TypeError,
     State (heap st ++ [Object [] None true (KFunction (LifeCycleListener "onAppShow"))])
       (fetches st) (trace st)).
Proof.
  intros Hctx Hshow Hcode. destruct st as [h fs tr]. cbn [heap fetches trace] in *.
  unfold instrumentLifeCycle, MINA_APP_LIFE_CYCLE. rewrite Hctx. cbv zeta.
  cbn [forEach].
  erewrite bind_throw; [reflexivity|].
  erewrite bind_ok by apply get_run. cbn [heap]. rewrite Hshow.
  erewrite bind_ok by apply get_run. cbn [heap].
  erewrite bind_ok by apply closure_run.
  erewrite bind_throw; [reflexivity|].
  apply call_not_function. cbn [heap].
  destruct (field h c "onAppShow") as [| | | | | |l]; try done. simpl in *.
  destruct Hcode as (f & Hl & Hkind).
  erewrite lookup_app_l_Some by done.
  destruct (o_kind f) eqn:Hk; try done. by specialize (Hkind c0).
Qed.

Lemma instrumentLifeCycle_not_callable_witness :
  let this := {| this_name := "Breadcrumbs"; this_ctx := VRef 32;
                 this_realtimeLogManager := VUndefined;
                 this_options := merged_options no_options |} in
  field (heap Cases.st1) 32 "onAppShow" = VString "soon"
  /\ instrumentLifeCycle Demo.host 2 this Cases.st1
     = (Throw TypeError,
        State (heap Cases.st1
               ++ [Object [] None true (KFunction (LifeCycleListener "onAppShow"))])
          [] []).
Proof.
  intros this. split; [reflexivity|].
  exact (instrumentLifeCycle_not_callable Demo.host 2 this 32 Cases.st1 eq_refl eq_refl I).
Defined.

(** ** The console wrapper, statement by statement *)

Lemma console_breadcrumb_off_run host level cff args st :
  level ∉ cff -> console_breadcrumb host level cff args st = (Ok tt, st).
Proof.
  intros Hout. unfold console_breadcrumb. by rewrite (bool_decide_eq_false_2 _ Hout).
Qed.

Lemma console_breadcrumb_run host level cff args st arguments :
  level ∉ cff \/ (level <> "assert" /\ (JSON_stringify args st).1 = Ok arguments) ->
  console_breadcrumb host level cff args st
  = (Ok tt,
     State (heap st) (fetches st)
       (trace st ++ console_crumb host level cff (heap st) args arguments)).
Proof.
  intros Hcase. unfold console_crumb. destruct (decide (level ∈ cff)) as [Hin|Hout].
  - rewrite (bool_decide_eq_true_2 _ Hin). destruct Hcase as [Hout|[Hne Hargs]]; [done|].
    by apply console_breadcrumb_plain_run.
  - rewrite (bool_decide_eq_false_2 _ Hout), app_nil_r.
    rewrite console_breadcrumb_off_run by done. by destruct st.
Qed.

Lemma console_realtime_log_off_run call level rlff manager args st :
  bool_decide (level ∈ rlff) && truthy manager = false ->
  console_realtime_log call level rlff manager args st = (Ok tt, st).
Proof. intros Hoff. unfold console_realtime_log. by rewrite Hoff. Qed.

Lemma console_capture_run level capture args st :
  console_capture level capture args st
  = (Ok tt,
     State (heap st) (fetches st)
       (trace st
        ++ option_list (ECapture <$> unhandled_rejection (heap st) level capture args))).
Proof.
  destruct st as [h fs tr]. unfold console_capture, unhandled_rejection. cbn [heap fetches trace].
  destruct ((String.eqb level "warn" || String.eqb level "error") && opt_truthy capture);
    cbn [when andb]; [|by rewrite app_nil_r].
  erewrite bind_ok by reflexivity. cbn [heap].
  destruct (isWxUnhandledPromiseError (nth 0 args VUndefined)
            && isError h (nth 1 args VUndefined)); [reflexivity|].
  unfold ret. by rewrite app_nil_r.
Qed.

(** The last two statements of the wrapper. *)
Lemma console_tail_run host fuel level original capture name args st :
  code_at (heap st) original = Some (Native name) ->
  (console_capture level capture args ;;
   console_original host (call host (S fuel)) original args ;;
   ret VUndefined) st
  = (discard (native host name (VRef (console host)) args),
     State (heap st) (fetches st)
       (trace st
        ++ option_list (ECapture <$> unhandled_rejection (heap st) level capture args)
        ++ original_calls host original name args)).
Proof.
  intros Ho. erewrite bind_ok by apply console_capture_run.
  pose proof (console_original_native_run host fuel original name args
                (State (heap st) (fetches st)
                   (trace st
                    ++ option_list (ECapture <$> unhandled_rejection (heap st) level capture args)))
                Ho) as Horig.
  cbv zeta in Horig. cbn [heap fetches trace] in Horig.
  unfold bind at 1. rewrite Horig. unfold original_calls.
  destruct (native host name (VRef (console host)) args);
    rewrite <- ?app_assoc; reflexivity.
Qed.

(** X19.  A console wrapper whose level is neither among the breadcrumb
    levels nor mirrored to the realtime log emits no breadcrumb and does not
    serialize its arguments: it only captures an unhandled rejection, if the
    arguments are one, and calls the original on the console with the same
    arguments (a second time if the first call throws). *)
Theorem console_wrapper_transparent_off_list host fuel wrapper level original cff rlff
    capture manager this name args st :
  code_at (heap st) wrapper = Some (ConsoleWrapper level original cff rlff capture manager) ->
  code_at (heap st) original = Some (Native name) ->
  level ∉ cff ->
  bool_decide (level ∈ rlff) && truthy manager = false ->
  let r := call host (S (S fuel)) wrapper this args st in
  r = (discard (native host name (VRef (console host)) args),
       State (heap st) (fetches st)
         (trace st
          ++ option_list (ECapture <$> unhandled_rejection (heap st) level capture args)
          ++ original_calls host original name args))
  /\ emitted_categories (trace r.2) = emitted_categories (trace st).
Proof.
  intros Hw Ho Hout Hmirror r.
  assert (Hrun : r = (discard (native host name (VRef (console host)) args),
       State (heap st) (fetches st)
         (trace st
          ++ option_list (ECapture <$> unhandled_rejection (heap st) level capture args)
          ++ original_calls host original name args))).
  { unfold r. rewrite (call_run _ _ _ _ _ _ _ Hw). unfold run, console_wrapper.
    erewrite bind_ok by by apply console_breadcrumb_off_run.
    erewrite bind_ok by by apply console_realtime_log_off_run.
    by apply console_tail_run. }
  split; [exact Hrun|]. rewrite Hrun. cbn [snd trace].
  rewrite !emitted_categories_app.
  assert (emitted_categories
            (option_list (ECapture <$> unhandled_rejection (heap st) level capture args)) = [])
    as -> by by destruct (unhandled_rejection (heap st) level capture args).
  assert (emitted_categories (original_calls host original name args) = []) as ->.
  { unfold original_calls. by destruct (native host name (VRef (console host)) args). }
  by rewrite !app_nil_r.
Qed.

Lemma console_wrapper_transparent_off_list_witness :
  let st := (instrumentConsole Demo.host Cases.this_errors_only Demo.st0).2 in
  own_value (heap st) 0 "log" = Some (VRef 24)
  /\ call Demo.host 2 (VRef 24) (VRef 0) [VRef 14] st
     = (Ok VUndefined,
        State (heap st) (fetches st) (trace st ++ [ECall (VRef 1) (VRef 0) [VRef 14]])).
Proof.
  intros st. split; [vm_compute; reflexivity|].
  assert (Hw : code_at (heap st) (VRef 24)
               = Some (ConsoleWrapper "log" (VRef 1) ["error"] ["warn"; "error"; "info"]
                         (OBool true) VUndefined)) by (vm_compute; reflexivity).
  assert (Ho : code_at (heap st) (VRef 1) = Some (Native "log")) by (vm_compute; reflexivity).
  assert (Hout : "log" ∉ ["error"]).
  { intros Hin. apply list_elem_of_singleton in Hin. discriminate Hin. }
  exact (proj1 (console_wrapper_transparent_off_list Demo.host 0 (VRef 24) "log" (VRef 1)
                  ["error"] ["warn"; "error"; "info"] (OBool true) VUndefined (VRef 0)
                  "log" [VRef 14] st Hw Ho Hout eq_refl)).
Defined.

(** X20.  What a console wrapper hands to [captureException].  At a level
    other than warn and error, or with [unhandleError] off, nothing.  At
    warn or error with [unhandleError] on, when the first argument is an
    unhandled-rejection message and the second an error object, exactly that
    error object, once; the original console function is still called. *)
Theorem console_wrapper_captures host fuel wrapper level original cff rlff capture manager
    this name args st arguments :
  code_at (heap st) wrapper = Some (ConsoleWrapper level original cff rlff capture manager) ->
  code_at (heap st) original = Some (Native name) ->
  level ∉ cff \/ (level <> "assert" /\ (JSON_stringify args st).1 = Ok arguments) ->
  bool_decide (level ∈ rlff) && truthy manager = false ->
  let after := trace (call host (S (S fuel)) wrapper this args st).2 in
  ((level <> "warn" /\ level <> "error") \/ opt_truthy capture = false ->
     captures after = captures (trace st))
  /\ (forall message e rest,
        args = VString message :: VRef e :: rest ->
        level = "warn" \/ level = "error" ->
        opt_truthy capture = true ->
        isWxUnhandledPromiseError (VString message) = true ->
        isError (heap st) (VRef e) = true ->
        captures after = (captures (trace st) ++ [VRef e])%list
        /\ host_calls after
           = (host_calls (trace st) ++ host_calls (original_calls host original name args))%list).
Proof.
  intros Hw Ho Hcrumb Hmirror after.
  assert (Hrun : after
                 = (trace st ++ console_crumb host level cff (heap st) args arguments
                    ++ option_list (ECapture <$> unhandled_rejection (heap st) level capture args)
                    ++ original_calls host original name args)%list).
  { unfold after. rewrite (call_run _ _ _ _ _ _ _ Hw). unfold run, console_wrapper.
    erewrite bind_ok by by apply console_breadcrumb_run.
    erewrite bind_ok by by apply console_realtime_log_off_run.
    rewrite console_tail_run with (name := name) by done. cbn [snd heap fetches trace].
    by rewrite <- !app_assoc. }
  assert (Hc1 : captures (console_crumb host level cff (heap st) args arguments) = []).
  { unfold console_crumb, emitted.
    by destruct (bool_decide (level ∈ cff)), (hub_integration host). }
  assert (Hc2 : captures (original_calls host original name args) = []).
  { unfold original_calls. by destruct (native host name (VRef (console host)) args). }
  assert (Hh1 : host_calls (console_crumb host level cff (heap st) args arguments) = []).
  { unfold console_crumb, emitted.
    by destruct (bool_decide (level ∈ cff)), (hub_integration host). }
  rewrite Hrun. unfold captures, host_calls in *. rewrite !omap_app, Hc1, Hc2, Hh1.
  split.
  - intros Hoff.
    assert (unhandled_rejection (heap st) level capture args = None) as ->.
    { unfold unhandled_rejection. destruct Hoff as [[Hwarn Herror]|Hflag].
      - apply String.eqb_neq in Hwarn, Herror. by rewrite Hwarn, Herror.
      - rewrite Hflag. by rewrite andb_false_r. }
    by rewrite !app_nil_r.
  - intros message e rest -> Hlevel Hflag Hmessage Herr.
    assert (unhandled_rejection (heap st) level capture (VString message :: VRef e :: rest)
            = Some (VRef e)) as ->.
    { unfold unhandled_rejection. cbn [nth]. rewrite Hflag, Hmessage, Herr.
      by destruct Hlevel as [-> | ->]. }
    cbn [fmap option_fmap option_map option_list omap app]. by rewrite !app_nil_r.
Qed.

Lemma console_wrapper_captures_witness :
  let st := (instrumentConsole Demo.host Demo.this0 Cases.st1).2 in
  let args := [VString "Unhandled promise rejection"; VRef 27] in
  own_value (heap st) 0 "error" = Some (VRef 35)
  /\ captures (trace (call Demo.host 2 (VRef 35) (VRef 0) args st).2) = [VRef 27]
  /\ host_calls (trace (call Demo.host 2 (VRef 35) (VRef 0) args st).2)
     = [(VRef 2, VRef 0, args)].
Proof.
  intros st args. split; [vm_compute; reflexivity|].
  assert (Hw : code_at (heap st) (VRef 35)
               = Some (ConsoleWrapper "error" (VRef 2) watchFunctions
                         ["warn"; "error"; "info"] (OBool true) VUndefined))
    by (vm_compute; reflexivity).
  assert (Ho : code_at (heap st) (VRef 2) = Some (Native "error"))
    by (vm_compute; reflexivity).
  assert (Hargs : exists arguments, (JSON_stringify args st).1 = Ok arguments)
    by (eexists; vm_compute; reflexivity).
  destruct Hargs as [arguments Hargs].
  assert (Herr : isError (heap st) (VRef 27) = true) by (vm_compute; reflexivity).
  assert (Hne : "error" <> "assert") by discriminate.
  assert (Hst : captures (trace st) = [] /\ host_calls (trace st) = [])
    by (vm_compute; split; reflexivity).
  destruct (proj2 (console_wrapper_captures Demo.host 0 (VRef 35) "error" (VRef 2)
                     watchFunctions ["warn"; "error"; "info"] (OBool true) VUndefined (VRef 0)
                     "error" args st arguments Hw Ho (or_intror (conj Hne Hargs)) eq_refl)
              "Unhandled promise rejection" 27 [] eq_refl (or_intror eq_refl)
              eq_refl eq_refl Herr) as [Hcaptures Hcalls].
  rewrite Hcaptures, Hcalls, (proj1 Hst), (proj2 Hst). split; reflexivity.
Defined.

Lemma console_realtime_log_native_run host fuel level rlff m args st name :
  level ∈ rlff ->
  code_at (heap st) (field (heap st) m (mirrored_level level)) = Some (Native name) ->
  console_realtime_log (call host (S fuel)) level rlff (VRef m) args st
  = (match native host name (VRef m) args with
     | Ok _ => Ok tt
     | Throw e => Throw e
     | Diverge => Diverge
     end,
     State (heap st) (fetches st)
       (trace st ++ [ECall (field (heap st) m (mirrored_level level)) (VRef m) args])).
Proof.
  intros Hin Hcode. unfold console_realtime_log.
  rewrite (bool_decide_eq_true_2 _ Hin). cbn [truthy andb when]. cbv zeta.
  fold (mirrored_level level).
  erewrite bind_ok by apply get_run.
  assert (Ht : truthy (field (heap st) m (mirrored_level level)) = true).
  { by destruct (field (heap st) m (mirrored_level level)). }
  rewrite Ht. unfold bind at 1.
  rewrite call_native with (name := name) by done.
  by destruct (native host name (VRef m) args).
Qed.

(** X21.  A console wrapper whose level is mirrored to the realtime log and
    which has a log manager looks up, on the manager, the method named after
    the level ("info" for the level log).  A manager without that method
    is skipped silently.  A host method is called on the manager with the
    wrapper's arguments, after the breadcrumb and before the original; if it
    throws, the wrapper throws and the original console function is not
    called. *)
Theorem console_wrapper_mirrors host fuel wrapper level original cff rlff capture m
    this name args st arguments :
  code_at (heap st) wrapper = Some (ConsoleWrapper level original cff rlff capture (VRef m)) ->
  code_at (heap st) original = Some (Native name) ->
  level ∉ cff \/ (level <> "assert" /\ (JSON_stringify args st).1 = Ok arguments) ->
  level ∈ rlff ->
  let method := field (heap st) m (mirrored_level level) in
  let r := call host (S (S fuel)) wrapper this args st in
  let crumb := console_crumb host level cff (heap st) args arguments in
  let rest :=
    (option_list (ECapture <$> unhandled_rejection (heap st) level capture args)
     ++ original_calls host original name args)%list in
  (truthy method = false ->
     r = (discard (native host name (VRef (console host)) args),
          State (heap st) (fetches st) (trace st ++ crumb ++ rest)))
  /\ (forall mirror,
        code_at (heap st) method = Some (Native mirror) ->
        r = match native host mirror (VRef m) args with
            | Ok _ =>
                (discard (native host name (VRef (console host)) args),
                 State (heap st) (fetches st)
                   (trace st ++ crumb ++ ECall method (VRef m) args :: rest))
            | Throw e =>
                (Throw e,
                 State (heap st) (fetches st)
                   (trace st ++ crumb ++ [ECall method (VRef m) args]))
            | Diverge =>
                (Diverge,
                 State (heap st) (fetches st)
                   (trace st ++ crumb ++ [ECall method (VRef m) args]))
            end).
Proof.
  intros Hw Ho Hcrumb Hin method r crumb rest. split.
  - intros Hmissing. unfold r.
    rewrite (call_run _ _ _ _ _ _ _ Hw). unfold run, console_wrapper.
    erewrite bind_ok by by apply console_breadcrumb_run.
    erewrite bind_ok.
    2:{ unfold console_realtime_log. rewrite (bool_decide_eq_true_2 _ Hin).
        cbn [truthy andb when]. cbv zeta. fold (mirrored_level level).
        erewrite bind_ok by apply get_run. cbn [heap]. fold method. rewrite Hmissing.
        reflexivity. }
    rewrite console_tail_run with (name := name) by done. cbn [heap fetches trace].
    by rewrite <- !app_assoc.
  - intros mirror Hmethod. unfold r.
    rewrite (call_run _ _ _ _ _ _ _ Hw). unfold run, console_wrapper.
    erewrite bind_ok by by apply console_breadcrumb_run.
    pose proof (console_realtime_log_native_run host fuel level rlff m args
                  (State (heap st) (fetches st) (trace st ++ crumb)) mirror Hin Hmethod)
      as Hlog.
    cbn [heap fetches trace] in Hlog. fold method in Hlog. unfold crumb in Hlog.
    unfold bind at 1. rewrite Hlog. fold crumb.
    destruct (native host mirror (VRef m) args); try by rewrite <- !app_assoc.
    rewrite console_tail_run with (name := name) by done. cbn [heap fetches trace].
    by rewrite <- !app_assoc.
Qed.

Lemma console_wrapper_mirrors_witness :
  let st := (instrumentConsole Demo.host Cases.this_mirror Cases.st1).2 in
  own_value (heap st) 0 "error" = Some (VRef 35)
  /\ host_calls (trace (call Demo.host 2 (VRef 35) (VRef 0) [VString "boom"] st).2)
     = [(VRef 26, VRef 25, [VString "boom"]); (VRef 2, VRef 0, [VString "boom"])].
Proof.
  intros st. split; [vm_compute; reflexivity|].
  assert (Hin : "error" ∈ ["warn"; "error"; "info"])
    by (apply list_elem_of_further, list_elem_of_here).
  assert (Hw : code_at (heap st) (VRef 35)
               = Some (ConsoleWrapper "error" (VRef 2) watchFunctions
                         ["warn"; "error"; "info"] (OBool true) (VRef 25)))
    by (vm_compute; reflexivity).
  assert (Ho : code_at (heap st) (VRef 2) = Some (Native "error"))
    by (vm_compute; reflexivity).
  assert (Hargs : exists arguments, (JSON_stringify [VString "boom"] st).1 = Ok arguments)
    by (eexists; vm_compute; reflexivity).
  destruct Hargs as [arguments Hargs].
  assert (Hne : "error" <> "assert") by discriminate.
  assert (Hm : code_at (heap st) (field (heap st) 25 (mirrored_level "error"))
               = Some (Native "manager.error")) by (vm_compute; reflexivity).
  rewrite (proj2 (console_wrapper_mirrors Demo.host 0 (VRef 35) "error" (VRef 2)
                    watchFunctions ["warn"; "error"; "info"] (OBool true) 25 (VRef 0)
                    "error" [VString "boom"] st arguments Hw Ho
                    (or_intror (conj Hne Hargs)) Hin)
            "manager.error" Hm).
  vm_compute. reflexivity.
Defined.

(** ** The installers *)

Lemma patched_refl st : patched st st.
Proof.
  split; [done|]. split; [exists []; by rewrite app_nil_r|].
  intros l o Hl. by exists o.
Qed.

Lemma patched_trans st1 st2 st3 : patched st1 st2 -> patched st2 st3 -> patched st1 st3.
Proof.
  intros (Hf1 & [ws1 Ht1] & Hh1) (Hf2 & [ws2 Ht2] & Hh2).
  split; [congruence|]. split.
  - exists (ws1 ++ ws2)%list. by rewrite Ht2, Ht1, map_app, app_assoc.
  - intros l o Hl. destruct (Hh1 l o Hl) as (o1 & Hl1 & Hp1 & He1 & Hk1).
    destruct (Hh2 l o1 Hl1) as (o2 & Hl2 & Hp2 & He2 & Hk2).
    exists o2. repeat split; congruence.
Qed.

(** A call of [fill] returns normally, and patches at most. *)
Lemma fill_patched host source name mk st :
  exists st', fill host source name (replacement mk) st = (Ok tt, st') /\ patched st st'.
Proof.
  destruct (fill_effect host source name mk st)
    as (st' & Hrun & Hfetches & Htrace & Hheap).
  exists st'. split; [exact Hrun|]. split; [exact Hfetches|]. split.
  - destruct Htrace as [-> | ->]; [exists []; by rewrite app_nil_r|by exists [name]].
  - intros l o Hl.
    destruct Hheap as [[extra ->]|(l0 & o0 & prop & extra & _ & Hl0 & ->)].
    + exists o. by rewrite (lookup_app_l_Some _ _ _ _ Hl).
    + destruct (decide (l0 = l)) as [->|Hne].
      * exists (with_props o0 (assoc_set name prop (o_props o0))).
        rewrite Hl in Hl0. injection Hl0 as <-.
        split; [|done]. apply lookup_app_l_Some, list_lookup_insert_eq.
        by eapply lookup_lt_Some.
      * exists o. split; [|done]. apply lookup_app_l_Some.
        by rewrite list_lookup_insert_ne.
Qed.

(** A loop whose every round returns, keeps [I] and is related by [R] to
    the state it started from. *)
Lemma forEach_steps {A} (I : state -> Prop) (R : state -> state -> Prop)
    (l : list A) (f : A -> M unit) :
  (forall st, R st st) ->
  (forall st1 st2 st3, R st1 st2 -> R st2 st3 -> R st1 st3) ->
  (forall x st, x ∈ l -> I st ->
     exists st', f x st = (Ok tt, st') /\ R st st' /\ I st') ->
  forall st, I st -> exists st', forEach l f st = (Ok tt, st') /\ R st st'.
Proof.
  intros Hrefl Htrans. induction l as [|x l IH]; intros Hstep st HI.
  - exists st. by split.
  - destruct (Hstep x st (list_elem_of_here _ _) HI) as (st1 & Hrun1 & HR1 & HI1).
    destruct (IH (fun y st0 Hy => Hstep y st0 (list_elem_of_further _ _ _ Hy)) st1 HI1)
      as (st2 & Hrun2 & HR2).
    exists st2. split; [|by eapply Htrans].
    cbn [forEach]. by erewrite bind_ok by exact Hrun1.
Qed.

Lemma get_not_nullish v name st :
  not_nullish v -> exists w, get v name st = (Ok w, st).
Proof. intros [Hu Hn]. destruct v; try done; by eexists. Qed.

Lemma get_member_not_nullish v name st :
  not_nullish v -> exists w, get_member v name st = (Ok w, st).
Proof.
  intros Hv. unfold get_member. destruct v; try by apply get_not_nullish.
  destruct (char_at s name); [by eexists|by apply get_not_nullish].
Qed.

Lemma filterM_total {A} (f : A -> M bool) (l : list A) st :
  (forall x, exists b, f x st = (Ok b, st)) ->
  exists l', filterM f l st = (Ok l', st) /\ l' ⊆ l.
Proof.
  intros Hf. induction l as [|x l (l' & IH & Hsub)]; [by exists []|].
  destruct (Hf x) as [b Hb]. exists (if b then x :: l' else l'). split.
  - simpl filterM. erewrite bind_ok by exact Hb. by erewrite bind_ok by exact IH.
  - destruct b; [by apply list_subseteq_skip|by apply list_subseteq_cons].
Qed.

Lemma supportNavigations_total host st :
  not_nullish (minaContext host) ->
  exists list, supportNavigations host st = (Ok list, st).
Proof.
  intros Hctx. unfold supportNavigations.
  destruct (filterM_total
              (fun api => v <- get (minaContext host) api ;; ret (truthy v))
              ["navigateBack"; "navigateTo"; "redirectTo"; "reLaunch"; "switchTab"] st)
    as (list & Hlist & _).
  { intros api. destruct (get_not_nullish _ api st Hctx) as [w Hw].
    exists (truthy w). by erewrite bind_ok by exact Hw. }
  eexists. by erewrite bind_ok by exact Hlist.
Qed.

(** X22.  [instrumentConsole] never throws, whatever the console holds; and
    when the context is neither [undefined] nor [null], neither do
    [instrumentNavigation] and [instrumentRequest].  Each returns normally
    and patches at most: it calls no function of the host, emits no
    breadcrumb, logs nothing but the warnings of patches that failed, and
    leaves to every object that existed its prototype, its extensibility and
    its kind. *)
Theorem installers_never_throw host this st :
  (exists st', instrumentConsole host this st = (Ok tt, st') /\ patched st st')
  /\ (not_nullish (minaContext host) ->
        (exists st', instrumentNavigation host this st = (Ok tt, st') /\ patched st st')
        /\ (exists st', instrumentRequest host this st = (Ok tt, st') /\ patched st st')).
Proof.
  split; [|intros Hctx; split].
  - unfold instrumentConsole. cbv zeta.
    apply (forEach_steps (fun _ => True) patched);
      [apply patched_refl|apply patched_trans| |done].
    intros level st0 _ _. destruct st0 as [h fs tr].
    erewrite bind_ok by apply has_property_run.
    destruct (bool_decide (is_Some (find_property h (console host) level))); cbn [negb].
    + match goal with
      | |- context [fill host ?s ?n ?r] =>
          change r with (replacement (fun original =>
                           ConsoleWrapper level original
                             match opt_console (this_options this) with
                             | OList names => names
                             | o => if opt_truthy o then watchFunctions else []
                             end
                             match opt_realtimeLog (this_options this) with
                             | OList names => names
                             | o => if opt_truthy o then ["warn"; "error"; "info"] else []
                             end
                             (opt_unhandleError (this_options this))
                             (this_realtimeLogManager this)))
      end.
      destruct (fill_patched host (VRef (console host)) level
                  (fun original =>
                     ConsoleWrapper level original
                       match opt_console (this_options this) with
                       | OList names => names
                       | o => if opt_truthy o then watchFunctions else []
                       end
                       match opt_realtimeLog (this_options this) with
                       | OList names => names
                       | o => if opt_truthy o then ["warn"; "error"; "info"] else []
                       end
                       (opt_unhandleError (this_options this))
                       (this_realtimeLogManager this)) (State h fs tr))
        as (st' & Hrun & Hp).
      exists st'. by rewrite Hrun.
    + eexists. split; [reflexivity|]. split; [apply patched_refl|done].
  - unfold instrumentNavigation.
    destruct (supportNavigations_total host st Hctx) as [list Hlist].
    erewrite bind_ok by exact Hlist.
    destruct list as [list|]; [|exists st; split; [done|apply patched_refl]].
    apply (forEach_steps (fun _ => True) patched);
      [apply patched_refl|apply patched_trans| |done].
    intros api st0 _ _.
    destruct (fill_patched host (this_ctx this) api HistoryWrapper st0) as (st' & Hrun & Hp).
    by exists st'.
  - unfold instrumentRequest, supportRequest.
    destruct (get_not_nullish _ "request" st Hctx) as [w Hw].
    erewrite bind_ok by (erewrite bind_ok by exact Hw; reflexivity).
    destruct (truthy w); cbn [negb]; [|exists st; split; [done|apply patched_refl]].
    apply (fill_patched host (this_ctx this) "request"
             (fun original =>
                RequestWrapper original (this_ctx this) (opt_request (this_options this)))).
Qed.

Lemma installers_never_throw_witness :
  not_nullish (minaContext Demo.host)
  /\ (exists st', instrumentNavigation Demo.host Demo.this0 Demo.st0 = (Ok tt, st')
                  /\ patched Demo.st0 st')
  /\ (exists st', instrumentRequest Demo.host Demo.this0 Demo.st0 = (Ok tt, st')
                  /\ patched Demo.st0 st').
Proof.
  assert (Hctx : not_nullish (minaContext Demo.host)) by (split; discriminate).
  split; [exact Hctx|].
  exact (proj2 (installers_never_throw Demo.host Demo.this0 Demo.st0) Hctx).
Defined.

Lemma getMinaApiList_total host st :
  not_nullish (minaContext host) ->
  exists list, getMinaApiList host st = (Ok list, st).
Proof.
  intros Hctx. unfold getMinaApiList.
  assert (Hkeys : exists keys, Object_keys (minaContext host) st = (Ok keys, st)).
  { destruct Hctx as [Hu Hn]. destruct (minaContext host); try done; by eexists. }
  destruct Hkeys as [keys Hkeys]. erewrite bind_ok by exact Hkeys.
  destruct (filterM_total
              (fun api => v <- get_member (minaContext host) api ;;
                          gets (fun st => is_function (heap st) v)) keys st)
    as (list & Hlist & _); [|by exists list].
  intros api. destruct (get_member_not_nullish _ api st Hctx) as [w Hw].
  eexists. by erewrite bind_ok by exact Hw.
Qed.

(** X23.  When the context is an object and [filterApis] is absent, [false]
    or a list, [instrumentMinaApi] returns normally and patches at most, and
    it leaves alone every member of the context that [filterApis] names and
    every member outside the list of apis it works on (the explicit [api]
    list, else the functions [getMinaApiList] finds, else nothing): the own
    property of such a name is what it was. *)
Theorem instrumentMinaApi_spares_filtered host this c o st :
  not_nullish (minaContext host) ->
  this_ctx this = VRef c ->
  heap st !! c = Some o ->
  match opt_filterApis (this_options this) with
  | OBool true | OObject _ => False
  | _ => True
  end ->
  exists discovered st',
    getMinaApiList host st = (Ok discovered, st)
    /\ instrumentMinaApi host this st = (Ok tt, st')
    /\ patched st st'
    /\ forall api,
         (exists names, opt_filterApis (this_options this) = OList names /\ api ∈ names)
         \/ api ∉ match opt_api (this_options this) with
                  | OList names => names
                  | o => if opt_truthy o then discovered else []
                  end ->
         own_property (heap st') c api = own_property (heap st) c api.
Proof.
  intros Hctx Hthis Hc Hfilter.
  destruct (getMinaApiList_total host st Hctx) as [discovered Hdiscovered].
  set (apiList := match opt_api (this_options this) with
                  | OList names => names
                  | o => if opt_truthy o then discovered else []
                  end).
  set (filtered api := exists names,
         opt_filterApis (this_options this) = OList names /\ api ∈ names).
  set (round := fun api : string =>
    filtered <- match opt_filterApis (this_options this) with
                | OUndefined | OBool false => ret false
                | OList names => ret (bool_decide (api ∈ names))
                | _ => throw TypeError
                end ;;
    if filtered then ret tt
    else
      member <- get_member (this_ctx this) api ;;
      callable <- gets (fun st => is_function (heap st) member) ;;
      if truthy member && callable
      then fill host (this_ctx this) api (fun originalRequest =>
             closure (MinaApiWrapper api originalRequest (this_ctx this)))
      else ret tt).
  assert (Hround : forall x st0,
            is_Some (heap st0 !! c) ->
            exists st1, round x st0 = (Ok tt, st1) /\ patched st0 st1
                        /\ (forall api, filtered api \/ api <> x ->
                              own_property (heap st1) c api = own_property (heap st0) c api)).
  { intros x st0 [o0 Hc0].
    assert (Hskip : exists st1, (ret tt : M unit) st0 = (Ok tt, st1) /\ patched st0 st1
                      /\ (forall api, filtered api \/ api <> x ->
                            own_property (heap st1) c api = own_property (heap st0) c api)).
    { exists st0. split; [done|]. split; [apply patched_refl|done]. }
    assert (Hpatch :
              (forall names, opt_filterApis (this_options this) = OList names -> x ∉ names) ->
              exists st1,
                (member <- get_member (this_ctx this) x ;;
                 callable <- gets (fun st => is_function (heap st) member) ;;
                 if truthy member && callable
                 then fill host (this_ctx this) x (fun originalRequest =>
                        closure (MinaApiWrapper x originalRequest (this_ctx this)))
                 else ret tt) st0 = (Ok tt, st1)
                /\ patched st0 st1
                /\ (forall api, filtered api \/ api <> x ->
                      own_property (heap st1) c api = own_property (heap st0) c api)).
    { intros Hout.
      destruct (get_member_not_nullish (this_ctx this) x st0) as [member Hmember].
      { rewrite Hthis. split; discriminate. }
      erewrite bind_ok by exact Hmember. erewrite bind_ok by reflexivity.
      destruct (truthy member && is_function (heap st0) member); [|exact Hskip].
      destruct (fill_patched host (this_ctx this) x
                  (fun original => MinaApiWrapper x original (this_ctx this)) st0)
        as (st1 & Hrun & Hp).
      exists st1. split; [exact Hrun|]. split; [exact Hp|].
      intros api Hapi.
      assert (Hne : api <> x).
      { destruct Hapi as [(names' & Hnames & Hin)|Hne]; [|done].
        intros ->. exact (Hout names' Hnames Hin). }
      pose proof (fill_frame host (this_ctx this) x
                    (fun original => MinaApiWrapper x original (this_ctx this))
                    st0 c o0 api Hc0 (or_intror Hne)) as Hframe.
      unfold replacement in Hrun, Hframe. rewrite Hrun in Hframe. exact Hframe. }
    unfold round. destruct (opt_filterApis (this_options this)) as [|[]|names|] eqn:Hf;
      try done.
    - erewrite bind_ok by reflexivity. by apply Hpatch.
    - erewrite bind_ok by reflexivity. by apply Hpatch.
    - erewrite bind_ok by reflexivity.
      destruct (decide (x ∈ names)) as [Hin|Hout].
      + rewrite (bool_decide_eq_true_2 _ Hin). exact Hskip.
      + rewrite (bool_decide_eq_false_2 _ Hout). apply Hpatch.
        by intros names' [= <-]. }
  destruct (forEach_steps
              (fun st0 => is_Some (heap st0 !! c))
              (fun st0 st1 =>
                 patched st0 st1
                 /\ forall api, filtered api \/ api ∉ apiList ->
                      own_property (heap st1) c api = own_property (heap st0) c api)
              apiList round) with (st := st) as (st' & Hrun & Hp & Hspared).
  - intros st0. split; [apply patched_refl|done].
  - intros st1 st2 st3 [Hp1 Hs1] [Hp2 Hs2]. split; [by eapply patched_trans|].
    intros api Hapi. by rewrite Hs2, Hs1.
  - intros x st0 Hx Hc0. destruct (Hround x st0 Hc0) as (st1 & Hrun & Hp & Hs).
    exists st1. split; [exact Hrun|]. split.
    + split; [exact Hp|]. intros api [Hf|Hout]; apply Hs; [by left|right].
      intros ->. by apply Hout.
    + destruct Hc0 as [o0 Hc0]. destruct Hp as (_ & _ & Hh).
      destruct (Hh c o0 Hc0) as (o1 & Hc1 & _). by exists o1.
  - by exists o.
  - exists discovered, st'. split; [exact Hdiscovered|]. split; [|split; [exact Hp|]].
    + unfold instrumentMinaApi. erewrite bind_ok by exact Hdiscovered. exact Hrun.
    + intros api Hapi. apply Hspared. exact Hapi.
Qed.

Lemma instrumentMinaApi_spares_filtered_witness :
  exists st',
    instrumentMinaApi Demo.host Cases.this_filtered Demo.st0 = (Ok tt, st')
    /\ own_property (heap st') 5 "request" = Some (data_property (VRef 6))
    /\ own_property (heap st') 5 "no such api" = None.
Proof.
  destruct (instrumentMinaApi_spares_filtered Demo.host Cases.this_filtered 5
              (Demo.plain [("request", VRef 6); ("navigateTo", VRef 7);
                           ("onAppShow", VRef 8)]) Demo.st0
              ltac:(split; discriminate) eq_refl eq_refl I)
    as (discovered & st' & Hlist & Hrun & _ & Hspared).
  exists st'. split; [exact Hrun|]. split.
  - rewrite Hspared; [reflexivity|]. left. exists ["request"]. split; [reflexivity|].
    apply list_elem_of_here.
  - rewrite Hspared; [reflexivity|]. right.
    vm_compute in Hlist. injection Hlist as <-.
    change (("no such api" : string) ∉ ["request"; "navigateTo"; "onAppShow"]).
    intros Hin. repeat (apply elem_of_cons in Hin as [Hin|Hin]; [discriminate Hin|]).
    by apply elem_of_nil in Hin.
Defined.

(** ** The request wrapper on an ordinary request *)

Lemma agree_on_refl name h : agree_on name h h.
Proof. intros l o Hl. by exists o. Qed.









Lemma fillKeys_no_keys host call obj st : fillKeys host call obj [] st = (Ok obj, st).
Proof. reflexivity. Qed.



(** X25.  The request wrapper on a call to the client's own store endpoint
    whose method does not upper-case to POST, or whose body is falsy: the
    original is called on the context with the same options, and that is
    all: no breadcrumb of any category, no snapshot, no error logged, and
    the callbacks of the options are not replaced. *)
Theorem own_delivery_without_body_passes_silently host fuel wrapper original ctx request
    this ro st name :
  code_at (heap st) wrapper = Some (RequestWrapper original ctx request) ->
  code_at (heap st) original = Some (Native name) ->
  (truthy (field (heap st) ro "method") = true ->
   exists s, field (heap st) ro "method" = VString s) ->
  own_delivery host (field (heap st) ro "url") = true ->
  request_method (field (heap st) ro "method") <> VString "POST"
  \/ truthy (field (heap st) ro "data") = false ->
  call host (S (S fuel)) wrapper this [VRef ro] st
  = (native host name ctx [VRef ro],
     State (heap st) (fetches st) (trace st ++ [ECall original ctx [VRef ro]])).
Proof.
  intros Hw Ho Hmethod Hown Hsilent.
  rewrite (call_run _ _ _ _ _ _ _ Hw). unfold run, request_wrapper.
  simpl nth. unfold default_object.
  erewrite bind_ok by reflexivity.
  erewrite bind_ok by apply get_run.
  erewrite bind_ok.
  2:{ instantiate (1 := st).
      instantiate (1 := request_method (field (heap st) ro "method")).
      destruct (truthy (field (heap st) ro "method")) eqn:Ht.
      - destruct (Hmethod eq_refl) as [s Hs]. rewrite Hs in *. simpl in Ht.
        unfold request_method. destruct (String.eqb s ""); [done|]. reflexivity.
      - unfold request_method. destruct (field (heap st) ro "method"); try done.
        simpl in Ht. destruct (String.eqb s ""); done. }
  erewrite bind_ok by apply get_run.
  unfold own_delivery in Hown. destruct (client_dsn host) as [dsn|]; [|done].
  cbv zeta. rewrite Hown.
  erewrite bind_ok by apply get_run.
  assert (Hoff : bool_decide (request_method (field (heap st) ro "method") = VString "POST")
                 && truthy (field (heap st) ro "data") = false).
  { destruct Hsilent as [Hne|Hdata].
    - by rewrite (bool_decide_eq_false_2 _ Hne).
    - rewrite Hdata. apply andb_false_r. }
  rewrite Hoff. unfold when.
  erewrite bind_ok by reflexivity.
  by rewrite call_native with (name := name) by done.
Qed.

Lemma own_delivery_without_body_passes_silently_witness :
  let st := (instrumentRequest Demo.host Demo.this_request Cases.st2).2 in
  field (heap st) 5 "request" = VRef 35
  /\ field (heap st) 34 "url" = VString Demo.endpoint
  /\ call Demo.host 2 (VRef 35) (VRef 5) [VRef 34] st
     = (Ok VUndefined,
        State (heap st) (fetches st) (trace st ++ [ECall (VRef 6) (VRef 5) [VRef 34]])).
Proof.
  intros st. split; [vm_compute; reflexivity|]. split; [vm_compute; reflexivity|].
  assert (Hw : code_at (heap st) (VRef 35)
               = Some (RequestWrapper (VRef 6) (VRef 5) (OObject (Some ["Authorization"]))))
    by (vm_compute; reflexivity).
  assert (Ho : code_at (heap st) (VRef 6) = Some (Native "request"))
    by (vm_compute; reflexivity).
  assert (Hmethod : truthy (field (heap st) 34 "method") = true ->
                    exists s, field (heap st) 34 "method" = VString s).
  { intros _. exists "get". vm_compute. reflexivity. }
  assert (Hown : own_delivery Demo.host (field (heap st) 34 "url") = true)
    by (vm_compute; reflexivity).
  assert (Hsilent : request_method (field (heap st) 34 "method") <> VString "POST"
                    \/ truthy (field (heap st) 34 "data") = false).
  { right. vm_compute. reflexivity. }
  exact (own_delivery_without_body_passes_silently Demo.host 0 (VRef 35) (VRef 6) (VRef 5)
           (OObject (Some ["Authorization"])) (VRef 5) 34 st "request"
           Hw Ho Hmethod Hown Hsilent).
Defined.

(** ** [addSentryBreadcrumb] and the constructor *)

(** What a run of [addSentryBreadcrumb] adds to the trace. *)
Lemma addSentryBreadcrumb_run host serializedData st :
  addSentryBreadcrumb host serializedData st
  = (Ok tt,
     State (heap st) (fetches st)
       (trace st
        ++ match to_string host (heap st) serializedData with
           | Ok text =>
               match JSON_parse host text with
               | Some event =>
                   match json_get event "event_id", json_get event "level" with
                   | Ok event_id, Ok level =>
                       emitted host
                         (BSentry event_id
                            (if json_truthy level then default JNull level
                             else JString (Severity_fromString host "error"))
                            (getEventDescription host event))
                         (Some (HSentry event))
                   | _, _ => [EError "Error while adding sentry type breadcrumb"]
                   end
               | None => [EError "Error while adding sentry type breadcrumb"]
               end
           | _ => [EError "Error while adding sentry type breadcrumb"]
           end)).
Proof.
  unfold addSentryBreadcrumb, try_catch.
  unfold bind at 1. destruct (to_string host (heap st) serializedData) as [text|e|] eqn:Htext.
  - destruct (JSON_parse host text) as [event|] eqn:Hparse.
    + erewrite bind_ok by reflexivity. unfold lift.
      destruct (json_get event "event_id") as [event_id|e|] eqn:Hid.
      * erewrite bind_ok by reflexivity.
        destruct (json_get event "level") as [level|e|] eqn:Hlevel.
        -- erewrite bind_ok by reflexivity. rewrite addBreadcrumb_run.
           by destruct level.
        -- destruct event; discriminate Hlevel || discriminate Hid.
        -- destruct event; discriminate Hlevel.
      * by erewrite bind_throw by reflexivity.
      * destruct event; discriminate Hid.
    + by erewrite bind_throw by reflexivity.
  - reflexivity.
  - exfalso. revert Htext. unfold to_string.
    destruct serializedData; try done. destruct (heap st !! l); [|done].
    by destruct (object_toString host o).
Qed.

(** X26.  [addSentryBreadcrumb] never throws and changes neither the heap nor
    the request snapshots, whatever it is given.  When the argument cannot be
    converted to a string, does not parse, or parses to [null], it logs its
    error and emits nothing.  When it parses to anything else, it emits one
    "sentry" breadcrumb with the event's [event_id], with the event's
    [level] if that is truthy and the severity of "error" if not, with the
    event's description as message and the event as hint. *)
Theorem addSentryBreadcrumb_fails_soft host serializedData st :
  let r := addSentryBreadcrumb host serializedData st in
  let failure := [EError "Error while adding sentry type breadcrumb"] in
  r.1 = Ok tt
  /\ heap r.2 = heap st
  /\ fetches r.2 = fetches st
  /\ (forall e, to_string host (heap st) serializedData = Throw e ->
        trace r.2 = (trace st ++ failure)%list)
  /\ (forall text, to_string host (heap st) serializedData = Ok text ->
        JSON_parse host text = None \/ JSON_parse host text = Some JNull ->
        trace r.2 = (trace st ++ failure)%list)
  /\ (forall text event,
        to_string host (heap st) serializedData = Ok text ->
        JSON_parse host text = Some event ->
        event <> JNull ->
        exists event_id level,
          json_get event "event_id" = Ok event_id
          /\ json_get event "level" = Ok level
          /\ trace r.2
             = (trace st
                ++ emitted host
                     (BSentry event_id
                        (if json_truthy level then default JNull level
                         else JString (Severity_fromString host "error"))
                        (getEventDescription host event))
                     (Some (HSentry event)))%list).
Proof.
  intros r failure. subst r. rewrite addSentryBreadcrumb_run. cbn [fst snd heap fetches trace].
  split; [done|]. split; [done|]. split; [done|]. split; [|split].
  - by intros e ->.
  - intros text -> [-> | ->]; done.
  - intros text event -> -> Hne.
    assert (Hget : forall name, exists v, json_get event name = Ok v).
    { intros name. destruct event; try done; by eexists. }
    destruct (Hget "event_id") as [event_id Hid], (Hget "level") as [level Hlevel].
    exists event_id, level. by rewrite Hid, Hlevel.
Qed.

Lemma addSentryBreadcrumb_fails_soft_witness :
  trace (addSentryBreadcrumb Demo.host (VString Demo.envelope) Demo.st0).2
  = emitted Demo.host (BSentry (Some (JString "X")) (JString "error") "X")
      (Some (HSentry (JObject [("event_id", JString "X"); ("level", JString "error")])))
  /\ trace (addSentryBreadcrumb Demo.host (VRef 14) Demo.st0).2
     = [EError "Error while adding sentry type breadcrumb"].
Proof.
  split.
  - destruct (proj2 (proj2 (proj2 (proj2 (proj2
               (addSentryBreadcrumb_fails_soft Demo.host (VString Demo.envelope) Demo.st0)))))
               Demo.envelope
               (JObject [("event_id", JString "X"); ("level", JString "error")])
               eq_refl eq_refl ltac:(discriminate))
      as (event_id & level & Hid & Hlevel & Htrace).
    vm_compute in Hid. injection Hid as <-.
    vm_compute in Hlevel. injection Hlevel as <-.
    exact Htrace.
  - exact (proj1 (proj2 (proj2 (proj2 (proj2
             (addSentryBreadcrumb_fails_soft Demo.host (VRef 14) Demo.st0)))))
             "[object Object]" eq_refl (or_introl eq_refl)).
Defined.

(** X27.  The constructor, on a context that is an object: it keeps the
    context and the merged options; when the context's
    [getRealtimeLogManager] is falsy the log manager stays [undefined] and
    nothing happens; when it is a host function, the function is called
    once on the context without arguments and its answer kept, and if it
    throws the constructor throws; when it is truthy but no function, the
    constructor throws a [TypeError]. *)
Theorem constructor_probes_manager host fuel options st c :
  minaContext host = VRef c ->
  let probe := field (heap st) c "getRealtimeLogManager" in
  let made manager :=
    {| this_name := "Breadcrumbs"; this_ctx := VRef c;
       this_realtimeLogManager := manager; this_options := merged_options options |} in
  (truthy probe = false -> constructor host fuel options st = (Ok (made VUndefined), st))
  /\ (forall name,
        code_at (heap st) probe = Some (Native name) ->
        constructor host (S fuel) options st
        = (match native host name (VRef c) [] with
           | Ok manager => Ok (made manager)
           | Throw e => Throw e
           | Diverge => Diverge
           end,
           State (heap st) (fetches st) (trace st ++ [ECall probe (VRef c) []])))
  /\ (truthy probe = true -> not_callable (heap st) probe ->
        constructor host fuel options st = (Throw TypeError, st)).
Proof.
  intros Hctx probe made. unfold constructor, getMinaContext. rewrite Hctx. cbv zeta.
  split; [|split].
  - intros Hfalsy. erewrite bind_ok by apply get_run. fold probe. rewrite Hfalsy.
    by erewrite bind_ok by reflexivity.
  - intros name Hcode. erewrite bind_ok by apply get_run. fold probe.
    assert (Ht : truthy probe = true) by by destruct probe.
    rewrite Ht. unfold bind at 1. unfold bind at 1. rewrite get_run. fold probe.
    rewrite call_native with (name := name) by done.
    by destruct (native host name (VRef c) []).
  - intros Ht Hno. erewrite bind_ok by apply get_run. fold probe. rewrite Ht.
    erewrite bind_throw; [reflexivity|].
    erewrite bind_ok by apply get_run. fold probe.
    apply call_not_function.
    destruct probe as [| | | | | |l]; try done. simpl in *.
    destruct Hno as (f & -> & Hkind).
    destruct (o_kind f) eqn:Hk; try done. by specialize (Hkind c0).
Qed.

Lemma constructor_probes_manager_witness :
  constructor Demo.host 0 no_options Demo.st0 = (Ok Demo.this0, Demo.st0).
Proof.
  exact (proj1 (constructor_probes_manager Demo.host 0 no_options Demo.st0 5 eq_refl)
           eq_refl).
Defined.
